(** * clickHearts.js: the harvest loop of [clickAllHearts]

    A shallow embedding of [src/clickHearts.js].  The script is one
    asynchronous routine that drives a live page: it queries the DOM for
    unfilled heart icons, clicks them, scrolls, and waits on a
    MutationObserver.  The page is not part of the script, so it is a
    parameter here: a [Host] packs one function per DOM primitive the script
    calls.  The script itself is written in a small monad that threads the
    closure variables of [clickAllHearts] and the page, can throw, can run
    out of fuel (the two [while] loops need not terminate), and records
    every call the script makes on the page or the console as an [event].

    Model notes.
    - Pixel values ([scrollY], [scrollTop], ...) are integers.  The script
      only adds, subtracts and compares them; the statements below do the
      same and divide only where a bound is rounded down, so none of them
      rests on a move of more than 5 px being one of at least 6 px.
    - [await] points are sequenced: a pause is one host transition.  During
      the wait on the observer promise the host decides what wakes the
      script next (a batch of mutation records or the 7000 ms timer), and
      the callback of a batch runs to its end before the next wakeup.
    - Scope.  [mutationCallback] is an [async] function: in the browser a
      second batch that arrives while the callback of a first one sleeps
      (lines 99 and 71) starts a second callback, the two interleave, and a
      callback can still be running when the wait that started it is over.
      Such runs are outside this model.  The statements about a run are
      therefore statements about runs whose batches are handled one at a
      time, unless they speak only of what the main routine itself does
      (its writes to the counter, its calls on the observer, its scroll
      commands) or of the guards in front of every [click()].
    - [document.body] and [document.documentElement] exist: lines 134 and
      202 do not throw.
    - [CounterSet] and [Iteration] are ghost events: the first records each
      write to [scrollsWithoutNewHearts], the second each entry into the
      body of the main [while] loop. *)

From Stdlib Require Import ZArith List String Bool Arith Lia DecimalString.
Import ListNotations.

(** ** Data *)

(** DOM elements are handles. *)
Definition node := nat.

(** Thrown JavaScript values. *)
Definition exn := string.

(** The fields of a MutationRecord that [mutationCallback] reads. *)
Record AddedNode := { nodeType : Z; tagName : string }.
Record MutationRecord := { mtype : string; addedNodes : list AddedNode }.

Definition ELEMENT_NODE : Z := 1.

(** What resumes the script while it is suspended on the observer promise. *)
Inductive wakeup :=
| TimerFired
| Mutations (ms : list MutationRecord).

Inductive event :=
| Log (text : string) (args : list Z)           (* console.log, template and interpolated values *)
| LogNode (text : string) (n : node)            (* console.log(text, element) *)
| ErrorNode (text : string) (n : node) (e : exn) (* console.error(text, element, e) *)
| Click (n : node)                              (* n.click() returned *)
| ClickThrew (n : node) (e : exn)               (* n.click() threw e *)
| Pause (ms : Z)                                (* await new Promise(r => setTimeout(r, ms)) *)
| WindowScrollTo (y : Z)                        (* window.scrollTo(0, y) *)
| SetScrollTop (n : node) (y : Z)               (* n.scrollTop = y *)
| Observe (target : node)                       (* observer.observe(target, ...) *)
| Disconnect                                    (* observer.disconnect() *)
| SetTimeout (ms : Z)                           (* mutationTimeoutId = setTimeout(..., ms) *)
| ClearTimeout                                  (* clearTimeout(mutationTimeoutId) *)
| CounterSet (c : nat)                          (* ghost: scrollsWithoutNewHearts written *)
| Iteration.                                    (* ghost: main loop body entered *)

Inductive outcome (A : Type) :=
| Ret (a : A)
| Throw (e : exn)
| Diverge.
Arguments Ret {A} a.
Arguments Throw {A} e.
Arguments Diverge {A}.

(** ** The host page *)

Record Host := {
  world : Type;
  documentElement : node;
  body : node;
  (* document.querySelectorAll('i.ud.ud-heart:not(.filled)'), in document order *)
  querySelectorAll_hearts : world -> list node;
  (* el.offsetParent === null *)
  offsetParent_null : node -> world -> bool;
  (* el.classList.contains('filled') *)
  classList_contains_filled : node -> world -> bool;
  (* el.click(): the thrown value if it throws, and the page afterwards *)
  click : node -> world -> option exn * world;
  (* document.querySelector('.infinite-scroll.scrolling-grid') *)
  querySelector_grid : world -> option node;
  scrollY : world -> Z;
  innerHeight : world -> Z;
  body_scrollHeight : world -> Z;
  scrollTop : node -> world -> Z;
  clientHeight : node -> world -> Z;
  scrollHeight : node -> world -> Z;
  window_scrollTo : Z -> world -> world;
  set_scrollTop : node -> Z -> world -> world;
  (* the page while the script sleeps on a timer of [ms] *)
  sleep : Z -> world -> world;
  observe : node -> world -> world;
  disconnect : world -> world;
  set_timeout : Z -> world -> world;
  clear_timeout : world -> world;
  (* the script is suspended on the observer promise: what wakes it next *)
  await_wakeup : world -> wakeup * world
}.

(** ** Constants of [clickAllHearts] *)

Definition delayBetweenClicks : Z := 100.
Definition mutationCheckTimeout : Z := 7000.
Definition maxScrollsWithoutNewHearts : nat := 4.
Definition aggressiveScrollPause : Z := 300.
Definition maxAggressiveScrollAttemptsAtBottom : nat := 3.

(** Decimal rendering of a count inside a template literal. *)
Definition show (n : nat) : string := NilEmpty.string_of_uint (Nat.to_uint n).

Section Script.

Variable H : Host.

(** The closure variables of [clickAllHearts] and the page. *)
Record St := {
  scrollsWithoutNewHearts : nat;
  totalHeartsClicked : nat;
  processedHeartsInCycle : bool;   (* currentScrollOperation.processedHeartsInCycle *)
  resolve : bool;                  (* currentScrollOperation.resolve is not null *)
  page : world H
}.

Definition set_scrolls (c : nat) (st : St) : St :=
  {| scrollsWithoutNewHearts := c;
     totalHeartsClicked := totalHeartsClicked st;
     processedHeartsInCycle := processedHeartsInCycle st;
     resolve := resolve st;
     page := page st |}.

Definition set_total (t : nat) (st : St) : St :=
  {| scrollsWithoutNewHearts := scrollsWithoutNewHearts st;
     totalHeartsClicked := t;
     processedHeartsInCycle := processedHeartsInCycle st;
     resolve := resolve st;
     page := page st |}.

Definition set_processed (b : bool) (st : St) : St :=
  {| scrollsWithoutNewHearts := scrollsWithoutNewHearts st;
     totalHeartsClicked := totalHeartsClicked st;
     processedHeartsInCycle := b;
     resolve := resolve st;
     page := page st |}.

Definition set_resolve (b : bool) (st : St) : St :=
  {| scrollsWithoutNewHearts := scrollsWithoutNewHearts st;
     totalHeartsClicked := totalHeartsClicked st;
     processedHeartsInCycle := processedHeartsInCycle st;
     resolve := b;
     page := page st |}.

Definition set_page (w : world H) (st : St) : St :=
  {| scrollsWithoutNewHearts := scrollsWithoutNewHearts st;
     totalHeartsClicked := totalHeartsClicked st;
     processedHeartsInCycle := processedHeartsInCycle st;
     resolve := resolve st;
     page := w |}.

(** ** The monad *)

Definition M (A : Type) : Type := St -> outcome A * St * list event.

Definition ret {A} (a : A) : M A := fun st => (Ret a, st, []).

Definition bind {A B} (m : M A) (k : A -> M B) : M B := fun st =>
  match m st with
  | (Ret a, st1, ev1) =>
      match k a st1 with
      | (r, st2, ev2) => (r, st2, ev1 ++ ev2)
      end
  | (Throw e, st1, ev1) => (Throw e, st1, ev1)
  | (Diverge, st1, ev1) => (Diverge, st1, ev1)
  end.

(** [try { m } catch (e) { h e }] *)
Definition try_catch {A} (m : M A) (h : exn -> M A) : M A := fun st =>
  match m st with
  | (Throw e, st1, ev1) =>
      match h e st1 with
      | (r, st2, ev2) => (r, st2, ev1 ++ ev2)
      end
  | other => other
  end.

Definition diverge {A} : M A := fun st => (Diverge, st, []).
Definition emit (e : event) : M unit := fun st => (Ret tt, st, [e]).
Definition get {A} (f : St -> A) : M A := fun st => (Ret (f st), st, []).
Definition read {A} (f : world H -> A) : M A := fun st => (Ret (f (page st)), st, []).
Definition modify (f : St -> St) : M unit := fun st => (Ret tt, f st, []).
(** A call on the page that returns nothing. *)
Definition call (e : event) (f : world H -> world H) : M unit :=
  fun st => (Ret tt, set_page (f (page st)) st, [e]).

Definition log (text : string) (args : list Z) : M unit := emit (Log text args).

(** Every write to [scrollsWithoutNewHearts]. *)
Definition setScrolls (c : nat) : M unit :=
  fun st => (Ret tt, set_scrolls c st, [CounterSet c]).

Definition pause (ms : Z) : M unit := call (Pause ms) (sleep H ms).

Notation "x <- m ;; k" := (bind m (fun x => k))
  (at level 61, m at next level, right associativity).
Notation "m ;;; k" := (bind m (fun _ => k))
  (at level 61, right associativity).

(** ** processVisibleHearts *)

(** The body of the [try] block for one heart: click, log, count, pause.
    [passed] is [heartsClickedInThisPass]; the new value is returned. *)
Definition clickHeart (heartIcon : node) (passed : nat) : M nat :=
  (fun st =>
     match click H heartIcon (page st) with
     | (None, w) => (Ret tt, set_page w st, [Click heartIcon])
     | (Some e, w) => (Throw e, set_page w st, [ClickThrew heartIcon e])
     end) ;;;
  emit (LogNode "Clicked heart:" heartIcon) ;;;
  modify (fun st => set_total (S (totalHeartsClicked st)) st) ;;;
  pause delayBetweenClicks ;;;
  ret (S passed).

(** [for (const heartIcon of unfilledHearts) { ... }] over the static
    NodeList; visibility and the filled class are read when the loop
    reaches the element. *)
Fixpoint forHearts (unfilledHearts : list node) (passed : nat) : M nat :=
  match unfilledHearts with
  | [] => ret passed
  | heartIcon :: rest =>
      hidden <- read (offsetParent_null H heartIcon) ;;
      filled <- read (classList_contains_filled H heartIcon) ;;
      if hidden || filled then forHearts rest passed
      else
        passed' <- try_catch (clickHeart heartIcon passed)
                     (fun e => emit (ErrorNode "Error clicking heart:" heartIcon e) ;;;
                               ret passed) ;;
        forHearts rest passed'
  end.

Definition processVisibleHearts : M nat :=
  unfilledHearts <- read (querySelectorAll_hearts H) ;;
  log "processVisibleHearts: Found ${unfilledHearts.length} unfilled hearts."
      [Z.of_nat (List.length unfilledHearts)] ;;;
  if List.length unfilledHearts =? 0 then ret 0
  else forHearts unfilledHearts 0.

(** ** mutationCallback *)

Definition isExcludedTag (t : string) : bool :=
  String.eqb t "SCRIPT" || String.eqb t "STYLE" || String.eqb t "LINK".

Definition hasNonScriptOrStyleNodes (m : MutationRecord) : bool :=
  existsb (fun n => (nodeType n =? ELEMENT_NODE)%Z && negb (isExcludedTag (tagName n)))
          (addedNodes m).

Definition relevantMutationDetected (mutationsList : list MutationRecord) : bool :=
  existsb (fun m => String.eqb (mtype m) "childList"
                    && (0 <? List.length (addedNodes m))
                    && hasNonScriptOrStyleNodes m)
          mutationsList.

(** Returns whether the callback resolved the pending promise. *)
Definition mutationCallback (mutationsList : list MutationRecord) : M bool :=
  if relevantMutationDetected mutationsList then
    log "MutationObserver: Detected new relevant nodes." [] ;;;
    r <- get resolve ;;
    (if r then call ClearTimeout (clear_timeout H) else ret tt) ;;;
    pause 300 ;;;
    heartsClickedByObserver <- processVisibleHearts ;;
    (if 0 <? heartsClickedByObserver then
       log "MutationObserver: Processed ${heartsClickedByObserver} hearts."
           [Z.of_nat heartsClickedByObserver] ;;;
       modify (set_processed true)
     else
       log "MutationObserver: Detected new nodes, but no new hearts were processed." []) ;;;
    r <- get resolve ;;
    ret r
  else ret false.

(** The script suspended on the promise of lines 207-213, until the timer
    or a callback resolves it.  Each wakeup is handled to its end before
    the next one: the callback of a batch runs through, pauses included
    (see the scope note at the head of the file). *)
Fixpoint awaitResolve (fuel : nat) : M unit :=
  match fuel with
  | 0 => diverge
  | S fuel' =>
      wk <- (fun st => let (wk, w) := await_wakeup H (page st) in
                       (Ret wk, set_page w st, [])) ;;
      match wk with
      | TimerFired =>
          log "MutationObserver: Timeout waiting for mutations." [] ;;;
          r <- get resolve ;;
          if r then ret tt else awaitResolve fuel'
      | Mutations ms =>
          resolved <- mutationCallback ms ;;
          if resolved then ret tt else awaitResolve fuel'
      end
  end.

(** ** The aggressive scroll phase (lines 155-199) *)

Definition getScrollTop (isWindowScroll : bool) (scrollElement : node) : M Z :=
  read (fun w => if isWindowScroll then scrollY H w else scrollTop H scrollElement w).

Definition getScrollHeight (isWindowScroll : bool) (scrollElement : node) : M Z :=
  read (fun w => if isWindowScroll then body_scrollHeight H w
                 else scrollHeight H scrollElement w).

Definition getClientHeight (isWindowScroll : bool) (scrollElement : node) : M Z :=
  read (fun w => if isWindowScroll then innerHeight H w
                 else clientHeight H scrollElement w).

Definition scrollToEnd (isWindowScroll : bool) (scrollElement : node) : M unit :=
  if isWindowScroll then
    h <- read (body_scrollHeight H) ;;
    call (WindowScrollTo (h + 1000)) (window_scrollTo H (h + 1000))
  else
    h <- read (scrollHeight H scrollElement) ;;
    call (SetScrollTop scrollElement (h + 1000)) (set_scrollTop H scrollElement (h + 1000)).

(** The inner [while]; returns [actualScrollHappenedInAggressiveLoop]. *)
Fixpoint aggressiveLoop (fuel : nat) (isWindowScroll : bool) (scrollElement : node)
    (aggressiveScrollAttempts : nat) (actualScrollHappened : bool) : M bool :=
  if aggressiveScrollAttempts <? maxAggressiveScrollAttemptsAtBottom then
    match fuel with
    | 0 => diverge
    | S fuel' =>
        previousScrollTop <- getScrollTop isWindowScroll scrollElement ;;
        scrollToEnd isWindowScroll scrollElement ;;;
        pause aggressiveScrollPause ;;;
        newScrollTop <- getScrollTop isWindowScroll scrollElement ;;
        let unchanged := (newScrollTop <=? previousScrollTop + 5)%Z in
        let attempts' := if unchanged then S aggressiveScrollAttempts else 0 in
        let happened' := if unchanged then actualScrollHappened else true in
        (if unchanged then
           log "Aggressive scroll: Position effectively unchanged (at ${newScrollTop}), attempt ${aggressiveScrollAttempts}/${maxAggressiveScrollAttemptsAtBottom}."
               [newScrollTop; Z.of_nat attempts'; Z.of_nat maxAggressiveScrollAttemptsAtBottom]
         else
           log "Aggressive scroll: Scrolled from ${previousScrollTopForAggressiveScroll} to ${newScrollTop}."
               [previousScrollTop; newScrollTop]) ;;;
        currentScrollHeight <- getScrollHeight isWindowScroll scrollElement ;;
        currentClientHeight <- getClientHeight isWindowScroll scrollElement ;;
        if (currentScrollHeight - 5 <=? newScrollTop + currentClientHeight)%Z then
          log "Aggressive scroll: Reached effective bottom based on scrollHeight." [] ;;;
          if unchanged then ret happened'
          else aggressiveLoop fuel' isWindowScroll scrollElement attempts' happened'
        else aggressiveLoop fuel' isWindowScroll scrollElement attempts' happened'
    end
  else ret actualScrollHappened.

Definition aggressiveScroll (fuel : nat) (isWindowScroll : bool) (scrollElement : node)
    : M unit :=
  log "Attempting aggressive scroll to ensure page bottom is reached..." [] ;;;
  actualScrollHappened <- aggressiveLoop fuel isWindowScroll scrollElement 0 false ;;
  log "Finished aggressive scroll attempts." [] ;;;
  c <- get scrollsWithoutNewHearts ;;
  if negb actualScrollHappened && (0 <? c) then
    finalScrollTop <- getScrollTop isWindowScroll scrollElement ;;
    finalScrollHeight <- getScrollHeight isWindowScroll scrollElement ;;
    finalClientHeight <- getClientHeight isWindowScroll scrollElement ;;
    if (finalScrollHeight - 5 <=? finalScrollTop + finalClientHeight)%Z then
      log "Aggressive scroll confirmed: No scroll movement and appears to be at the bottom." []
    else
      log "Aggressive scroll warning: No scroll movement, but scrollHeight suggests more content. Page might be unresponsive to scrolls." []
  else ret tt.

(** ** The main loop (lines 127-233) *)

(** Lines 138-152; returns whether the loop is left by [break]. *)
Definition bottomCheck : M bool :=
  log "Loop start: Initial check suggests we might be at the bottom or cannot scroll further." [] ;;;
  heartsFoundAtBottomCheck <- processVisibleHearts ;;
  (if 0 <? heartsFoundAtBottomCheck then
     log "Found ${heartsFoundAtBottomCheck} hearts after initial bottom check."
         [Z.of_nat heartsFoundAtBottomCheck] ;;;
     setScrolls 0
   else
     log "No additional hearts found at what seems to be the bottom." [] ;;;
     p <- get processedHeartsInCycle ;;
     if negb p then
       c <- get scrollsWithoutNewHearts ;;
       setScrolls (S c)
     else ret tt) ;;;
  c <- get scrollsWithoutNewHearts ;;
  if maxScrollsWithoutNewHearts <=? c then
    log "Breaking loop: Max scrolls without new hearts reached after bottom check." [] ;;;
    ret true
  else ret false.

(** Lines 201-217: subscribe, suspend until resolved, unsubscribe. *)
Definition waitForMutations (fuel : nat) : M unit :=
  modify (set_processed false) ;;;
  grid <- read (querySelector_grid H) ;;
  let observerTargetNode := match grid with Some g => g | None => body H end in
  call (Observe observerTargetNode) (observe H observerTargetNode) ;;;
  log "MutationObserver is now watching for new content..." [] ;;;
  modify (set_resolve true) ;;;
  call (SetTimeout mutationCheckTimeout) (set_timeout H mutationCheckTimeout) ;;;
  awaitResolve fuel ;;;
  call Disconnect (disconnect H) ;;;
  log "MutationObserver stopped watching." [] ;;;
  modify (set_resolve false).

(** Lines 219-232. *)
Definition afterCycle : M unit :=
  p <- get processedHeartsInCycle ;;
  (if p then setScrolls 0
   else
     log "Observer cycle ended. Explicitly re-checking for hearts." [] ;;;
     heartsAfterCycle <- processVisibleHearts ;;
     if 0 <? heartsAfterCycle then
       log "Found ${heartsAfterCycle} hearts in explicit check after observer cycle."
           [Z.of_nat heartsAfterCycle] ;;;
       setScrolls 0
     else
       log "No hearts found in explicit check after observer cycle." [] ;;;
       c <- get scrollsWithoutNewHearts ;;
       setScrolls (S c)) ;;;
  c <- get scrollsWithoutNewHearts ;;
  log "Scrolls without new hearts: ${scrollsWithoutNewHearts}/${maxScrollsWithoutNewHearts}"
      [Z.of_nat c; Z.of_nat maxScrollsWithoutNewHearts].

Definition canStillScroll (isWindowScroll : bool) (scrollElement : node) (w : world H)
    : bool :=
  if isWindowScroll then (innerHeight H w + scrollY H w <? body_scrollHeight H w - 5)%Z
  else (scrollTop H scrollElement w + clientHeight H scrollElement w
        <? scrollHeight H scrollElement w - 5)%Z.

(** One pass through the body of the main [while]; returns whether the
    loop is left by [break]. *)
Definition loopBody (fuel : nat) : M bool :=
  emit Iteration ;;;
  grid <- read (querySelector_grid H) ;;
  let scrollElement := match grid with Some g => g | None => documentElement H end in
  let isWindowScroll := scrollElement =? documentElement H in
  can <- read (canStillScroll isWindowScroll scrollElement) ;;
  stop <- (if negb can then bottomCheck else ret false) ;;
  if stop then ret true
  else
    aggressiveScroll fuel isWindowScroll scrollElement ;;;
    waitForMutations fuel ;;;
    afterCycle ;;;
    ret false.

(** [while (scrollsWithoutNewHearts < maxScrollsWithoutNewHearts) { ... }];
    [fuel] bounds the iterations of this loop, [inner] those of the loops
    inside one iteration. *)
Fixpoint mainLoop (fuel inner : nat) : M unit :=
  c <- get scrollsWithoutNewHearts ;;
  if c <? maxScrollsWithoutNewHearts then
    match fuel with
    | 0 => diverge
    | S fuel' =>
        stop <- loopBody inner ;;
        if stop then ret tt else mainLoop fuel' inner
    end
  else ret tt.

(** ** clickAllHearts *)

Definition clickAllHeartsFrom (fuel : nat) : M string :=
  log "clickAllHearts: Process starting now." [] ;;;
  log "Starting heart clicking process (after initial manual scroll by user)..." [] ;;;
  heartsProcessedInitially <- processVisibleHearts ;;
  (if 0 <? heartsProcessedInitially then
     log "Processed ${heartsProcessedInitially} hearts on initial (post-manual-scroll) load."
         [Z.of_nat heartsProcessedInitially] ;;;
     setScrolls 0
   else
     log "No hearts found on initial (post-manual-scroll) load. This might be okay if all visible were already filled." []) ;;;
  mainLoop fuel fuel ;;;
  call Disconnect (disconnect H) ;;;
  t <- get totalHeartsClicked ;;
  log "Finished. Total hearts clicked: ${totalHeartsClicked}." [Z.of_nat t] ;;;
  c <- get scrollsWithoutNewHearts ;;
  (if maxScrollsWithoutNewHearts <=? c then
     log "Stopped after ${scrollsWithoutNewHearts} scroll attempts without new hearts or reaching bottom."
         [Z.of_nat c]
   else
     log "Stopped because no more scrollable content was detected or loop completed naturally." []) ;;;
  ret (String.append "Total hearts clicked: " (show t)).

(** The test at the head of an iteration (lines 128-135): whether the
    page reports room to scroll. *)
Definition roomToScroll (w : world H) : bool :=
  let scrollElement :=
    match querySelector_grid H w with Some g => g | None => documentElement H end in
  canStillScroll (scrollElement =? documentElement H) scrollElement w.

(** The variables as declared at lines 43-51. *)
Definition initial (w : world H) : St :=
  {| scrollsWithoutNewHearts := 0;
     totalHeartsClicked := 0;
     processedHeartsInCycle := false;
     resolve := false;
     page := w |}.

Definition clickAllHearts (fuel : nat) (w : world H) : outcome string * St * list event :=
  clickAllHeartsFrom fuel (initial w).

End Script.

Arguments Ret {A} a.
Arguments scrollsWithoutNewHearts {H} s.
Arguments totalHeartsClicked {H} s.
Arguments processedHeartsInCycle {H} s.
Arguments resolve {H} s.
Arguments page {H} s.
Arguments set_scrolls {H} c st.
Arguments set_total {H} t st.
Arguments set_processed {H} b st.
Arguments set_resolve {H} b st.
Arguments set_page {H} w st.

(** The three components of a finished or interrupted computation. *)
Definition outcomeOf {A S} (x : outcome A * S * list event) : outcome A := fst (fst x).
Definition stateOf {A S} (x : outcome A * S * list event) : S := snd (fst x).
Definition traceOf {A S} (x : outcome A * S * list event) : list event := snd x.

(** ** Reading a trace *)

Definition isClick (e : event) : bool :=
  match e with Click _ => true | _ => false end.

(** The hearts whose [click()] returned, in order. *)
Fixpoint clickedNodes (evs : list event) : list node :=
  match evs with
  | [] => []
  | Click n :: tl => n :: clickedNodes tl
  | _ :: tl => clickedNodes tl
  end.

(** The hearts on which [click()] was invoked, in order. *)
Fixpoint attemptedNodes (evs : list event) : list node :=
  match evs with
  | [] => []
  | Click n :: tl => n :: attemptedNodes tl
  | ClickThrew n _ :: tl => n :: attemptedNodes tl
  | _ :: tl => attemptedNodes tl
  end.

(** Number of successful click actions in a trace. *)
Fixpoint nclicks (evs : list event) : nat :=
  match evs with
  | [] => 0
  | Click _ :: tl => S (nclicks tl)
  | _ :: tl => nclicks tl
  end.

(** Entries into the body of the main loop. *)
Fixpoint iterations (evs : list event) : nat :=
  match evs with
  | [] => 0
  | Iteration :: tl => S (iterations tl)
  | _ :: tl => iterations tl
  end.

(** Scroll commands issued. *)
Fixpoint scrollCommands (evs : list event) : nat :=
  match evs with
  | [] => 0
  | WindowScrollTo _ :: tl => S (scrollCommands tl)
  | SetScrollTop _ _ :: tl => S (scrollCommands tl)
  | _ :: tl => scrollCommands tl
  end.

(** Every write to the no-progress counter stays within the threshold. *)
Definition counterBounded (evs : list event) : bool :=
  forallb (fun e => match e with
                    | CounterSet c => c <=? maxScrollsWithoutNewHearts
                    | _ => true
                    end) evs.

(** [resetsAfterClicks pending evs]: scanning [evs] with [pending] telling
    whether a heart was clicked since the counter was last written, the
    first write after a click is a write of zero.  [None] when a non-zero
    write follows a click; otherwise the pending flag at the end. *)
Fixpoint resetsAfterClicks (pending : bool) (evs : list event) : option bool :=
  match evs with
  | [] => Some pending
  | Click _ :: tl => resetsAfterClicks true tl
  | CounterSet 0 :: tl => resetsAfterClicks false tl
  | CounterSet (S _) :: tl => if pending then None else resetsAfterClicks false tl
  | _ :: tl => resetsAfterClicks pending tl
  end.

(** The targets the observer is subscribed to after an event:
    [observe] adds a target (once), [disconnect] drops them all. *)
Definition subscribe (subs : list node) (e : event) : list node :=
  match e with
  | Observe t => if existsb (Nat.eqb t) subs then subs else t :: subs
  | Disconnect => []
  | _ => subs
  end.

Definition subscriptions (subs : list node) (evs : list event) : list node :=
  fold_left subscribe evs subs.

(** At every point of the trace at most one subscription is outstanding,
    and none is when an iteration of the main loop begins. *)
Fixpoint observerDiscipline (subs : list node) (evs : list event) : bool :=
  match evs with
  | [] => true
  | e :: tl =>
      (match e with Iteration => (List.length subs =? 0) | _ => true end)
      && (List.length (subscribe subs e) <=? 1)
      && observerDiscipline (subscribe subs e) tl
  end.

(** The last call on the page is [observer.disconnect()]: only the two
    closing console lines follow it. *)
Definition endsDisconnected (evs : list event) : bool :=
  match rev evs with
  | Log _ _ :: Log _ _ :: Disconnect :: _ => true
  | _ => false
  end.

(** A scan body is a sequence of blocks, one per heart acted on: a click
    that returns, its log line and the pause of [delayBetweenClicks]; or a
    click that throws and the error line for the same heart and value. *)
Fixpoint passBlocks (evs : list event) : bool :=
  match evs with
  | [] => true
  | Click n :: LogNode _ n' :: Pause ms :: tl =>
      (n =? n') && (ms =? delayBetweenClicks)%Z && passBlocks tl
  | ClickThrew n e :: ErrorNode _ n' e' :: tl =>
      (n =? n') && String.eqb e e' && passBlocks tl
  | _ => false
  end.

(** Every click that throws is followed at once by the error line for the
    same heart and thrown value. *)
Fixpoint errorsLogged (evs : list event) : bool :=
  match evs with
  | [] => true
  | ClickThrew n e :: tl =>
      match tl with
      | ErrorNode _ n' e' :: _ => (n =? n') && String.eqb e e'
      | _ => false
      end && errorsLogged tl
  | _ :: tl => errorsLogged tl
  end.

(** Between two consecutive invocations of [click()] the script pauses for
    [delayBetweenClicks]; [paused] tells whether it has since the last one. *)
Fixpoint clicksSeparated (paused : bool) (evs : list event) : bool :=
  match evs with
  | [] => true
  | Click _ :: tl => paused && clicksSeparated false tl
  | ClickThrew _ _ :: tl => paused && clicksSeparated false tl
  | Pause ms :: tl => clicksSeparated ((ms =? delayBetweenClicks)%Z || paused) tl
  | _ :: tl => clicksSeparated paused tl
  end.

(** The values written to the no-progress counter, in order. *)
Fixpoint counterWrites (evs : list event) : list nat :=
  match evs with
  | [] => []
  | CounterSet c :: tl => c :: counterWrites tl
  | _ :: tl => counterWrites tl
  end.

(** Every scroll command is followed at once by the pause of
    [aggressiveScrollPause]. *)
Fixpoint scrollsPaused (evs : list event) : bool :=
  match evs with
  | [] => true
  | WindowScrollTo _ :: tl | SetScrollTop _ _ :: tl =>
      match tl with
      | Pause ms :: _ => (ms =? aggressiveScrollPause)%Z
      | _ => false
      end && scrollsPaused tl
  | _ :: tl => scrollsPaused tl
  end.

(** ** A page that never changes *)

(** The same hearts at every query, all visible, none ever filled; every
    click throws or every click returns; the scroll geometry is constant. *)
Definition fixedPage (hearts : list node) (throws : bool) (grid : option node)
    (position total viewport : Z) : Host :=
  {| world := unit;
     documentElement := 0;
     body := 1;
     querySelectorAll_hearts := fun _ => hearts;
     offsetParent_null := fun _ _ => false;
     classList_contains_filled := fun _ _ => false;
     click := fun _ w => (if throws then Some "not clickable"%string else None, w);
     querySelector_grid := fun _ => grid;
     scrollY := fun _ => position;
     innerHeight := fun _ => viewport;
     body_scrollHeight := fun _ => total;
     scrollTop := fun _ _ => position;
     clientHeight := fun _ _ => viewport;
     scrollHeight := fun _ _ => total;
     window_scrollTo := fun _ w => w;
     set_scrollTop := fun _ _ w => w;
     sleep := fun _ w => w;
     observe := fun _ w => w;
     disconnect := fun w => w;
     set_timeout := fun _ w => w;
     clear_timeout := fun w => w;
     await_wakeup := fun w => (TimerFired, w) |}.

(** ** Pages that keep scrolling *)

(** A page that gives way ten pixels at a time: [fst w] scroll commands
    still move it, [snd w] have moved it so far.  Its document is always
    much longer than the viewport. *)
Definition treadmill : Host :=
  {| world := nat * nat;
     documentElement := 0;
     body := 1;
     querySelectorAll_hearts := fun _ => [];
     offsetParent_null := fun _ _ => false;
     classList_contains_filled := fun _ _ => false;
     click := fun _ w => (None, w);
     querySelector_grid := fun _ => None;
     scrollY := fun w => (10 * Z.of_nat (snd w))%Z;
     innerHeight := fun _ => 100%Z;
     body_scrollHeight := fun w => (10 * Z.of_nat (snd w) + 10000)%Z;
     scrollTop := fun _ _ => 0%Z;
     clientHeight := fun _ _ => 0%Z;
     scrollHeight := fun _ _ => 0%Z;
     window_scrollTo := fun _ w =>
       match fst w with
       | 0 => w
       | S remaining => (remaining, S (snd w))
       end;
     set_scrollTop := fun _ _ w => w;
     sleep := fun _ w => w;
     observe := fun _ w => w;
     disconnect := fun w => w;
     set_timeout := fun _ w => w;
     clear_timeout := fun w => w;
     await_wakeup := fun w => (TimerFired, w) |}.

(** A page that gives way at every scroll command, for ever. *)
Definition endless : Host :=
  {| world := nat;
     documentElement := 0;
     body := 1;
     querySelectorAll_hearts := fun _ => [];
     offsetParent_null := fun _ _ => false;
     classList_contains_filled := fun _ _ => false;
     click := fun _ w => (None, w);
     querySelector_grid := fun _ => None;
     scrollY := fun w => (10 * Z.of_nat w)%Z;
     innerHeight := fun _ => 100%Z;
     body_scrollHeight := fun w => (10 * Z.of_nat w + 10000)%Z;
     scrollTop := fun _ _ => 0%Z;
     clientHeight := fun _ _ => 0%Z;
     scrollHeight := fun _ _ => 0%Z;
     window_scrollTo := fun _ w => S w;
     set_scrollTop := fun _ _ w => w;
     sleep := fun _ w => w;
     observe := fun _ w => w;
     disconnect := fun w => w;
     set_timeout := fun _ w => w;
     clear_timeout := fun w => w;
     await_wakeup := fun w => (TimerFired, w) |}.

(** An empty page scrolled to its end, and an empty page that reports
    more content below but does not move. *)
Definition atBottom : Host := fixedPage [] false None 0 100 100.
Definition unresponsive : Host := fixedPage [] false None 0 5000 100.

(** Three hearts that cannot be clicked. *)
Definition unclickable : Host := fixedPage [7; 8; 9] true None 0 100 100.

(** One heart that stays unfilled however often it is clicked. *)
Definition sticky : Host := fixedPage [7] false None 0 100 100.

(** ** A simulated page *)

Inductive behaviour := Fills | Sticky | Throws.

Record SimHeart := {
  hid : node;
  hvisible : bool;
  hfilled : bool;
  hbehaviour : behaviour   (* what a click does: fill the heart, nothing, throw *)
}.

Record Sim := {
  dom : list SimHeart;               (* the heart icons in the document *)
  nextPage : option (list SimHeart); (* hearts the server has not sent yet *)
  notifies : bool;                   (* the new page arrives as a mutation batch *)
  responsive : bool;                 (* scroll commands move the position *)
  growthRequested : bool;
  top : Z;
  height : Z;
  client : Z
}.

Definition simLookup (n : node) (w : Sim) : option SimHeart :=
  find (fun h => hid h =? n) (dom w).

Definition fillHeart (n : node) (h : SimHeart) : SimHeart :=
  if hid h =? n
  then {| hid := hid h; hvisible := hvisible h; hfilled := true; hbehaviour := hbehaviour h |}
  else h.

Definition withDom (d : list SimHeart) (w : Sim) : Sim :=
  {| dom := d; nextPage := nextPage w; notifies := notifies w; responsive := responsive w;
     growthRequested := growthRequested w; top := top w; height := height w;
     client := client w |}.

Definition simClick (n : node) (w : Sim) : option exn * Sim :=
  match simLookup n w with
  | Some h =>
      match hbehaviour h with
      | Fills => (None, withDom (map (fillHeart n) (dom w)) w)
      | Sticky => (None, w)
      | Throws => (Some "click failed"%string, w)
      end
  | None => (None, w)
  end.

Definition simScrollTo (y : Z) (w : Sim) : Sim :=
  if responsive w then
    {| dom := dom w; nextPage := nextPage w; notifies := notifies w;
       responsive := responsive w; growthRequested := true;
       top := Z.max 0 (Z.min y (height w - client w)); height := height w;
       client := client w |}
  else w.

Definition pageHeight : Z := 1000.

Definition newContent : list MutationRecord :=
  [ {| mtype := "childList"; addedNodes := [ {| nodeType := 1; tagName := "DIV" |} ] |} ].

Definition simAwait (w : Sim) : wakeup * Sim :=
  if growthRequested w then
    match nextPage w with
    | Some p =>
        (if notifies w then Mutations newContent else TimerFired,
         {| dom := dom w ++ p; nextPage := None; notifies := notifies w;
            responsive := responsive w; growthRequested := false;
            top := top w; height := (height w + pageHeight)%Z; client := client w |})
    | None => (TimerFired, w)
    end
  else (TimerFired, w).

Definition simHost : Host :=
  {| world := Sim;
     documentElement := 0;
     body := 1;
     querySelectorAll_hearts := fun w => map hid (filter (fun h => negb (hfilled h)) (dom w));
     offsetParent_null := fun n w =>
       match simLookup n w with Some h => negb (hvisible h) | None => true end;
     classList_contains_filled := fun n w =>
       match simLookup n w with Some h => hfilled h | None => false end;
     click := simClick;
     querySelector_grid := fun _ => None;
     scrollY := top;
     innerHeight := client;
     body_scrollHeight := height;
     scrollTop := fun _ _ => 0%Z;
     clientHeight := fun _ _ => 0%Z;
     scrollHeight := fun _ _ => 0%Z;
     window_scrollTo := simScrollTo;
     set_scrollTop := fun _ _ w => w;
     sleep := fun _ w => w;
     observe := fun _ w => w;
     disconnect := fun w => w;
     set_timeout := fun _ w => w;
     clear_timeout := fun w => w;
     await_wakeup := simAwait |}.

Definition heart (b : behaviour) (n : node) : SimHeart :=
  {| hid := n; hvisible := true; hfilled := false; hbehaviour := b |}.

Definition filledHeart (n : node) : SimHeart :=
  {| hid := n; hvisible := true; hfilled := true; hbehaviour := Fills |}.

(** [N] hearts split across two pages: [page1] is in the document, one
    viewport high; [page2] arrives during the first wait that follows a
    scroll command. *)
Definition twoPages (notify : bool) (page1 page2 : list node) : Sim :=
  {| dom := map (heart Fills) page1;
     nextPage := Some (map (heart Fills) page2);
     notifies := notify;
     responsive := true;
     growthRequested := false;
     top := 0; height := pageHeight; client := 100 |}.

(** A page with the given hearts and nothing more to load. *)
Definition onePage (hearts : list SimHeart) (canMove : bool) (h : Z) : Sim :=
  {| dom := hearts; nextPage := None; notifies := false; responsive := canMove;
     growthRequested := false; top := 0; height := h; client := 100 |}.

(** A document with a hidden heart, a heart whose click throws, and two
    hearts that fill when clicked. *)
Definition mixedPage : Sim :=
  onePage [ {| hid := 2; hvisible := false; hfilled := false; hbehaviour := Fills |};
            heart Throws 3; heart Fills 4; heart Fills 5 ] false 100.

(** A document with a heart that never fills and one that does. *)
Definition stickyAmongFilling : Sim := onePage [heart Sticky 7; heart Fills 8] false 100.

(** The pages of the simulation on which heart 7 is in the document,
    visible, unfilled, and does not fill when clicked. *)
Definition keepsSticky (w : Sim) : Prop := simLookup 7 w = Some (heart Sticky 7).

(** ** A page that fills its hearts late *)

(** A click only registers the heart; the page adds the filled class
    later, while the script sleeps.  The world is the hearts clicked and
    not yet filled, and the hearts filled. *)
Definition asyncFill : Host :=
  {| world := list node * list node;
     documentElement := 0;
     body := 1;
     querySelectorAll_hearts := fun w =>
       filter (fun h => negb (existsb (Nat.eqb h) (snd w))) [7; 8; 9];
     offsetParent_null := fun _ _ => false;
     classList_contains_filled := fun h w => existsb (Nat.eqb h) (snd w);
     click := fun h w => (None, (h :: fst w, snd w));
     querySelector_grid := fun _ => None;
     scrollY := fun _ => 0%Z;
     innerHeight := fun _ => 100%Z;
     body_scrollHeight := fun _ => 100%Z;
     scrollTop := fun _ _ => 0%Z;
     clientHeight := fun _ _ => 0%Z;
     scrollHeight := fun _ _ => 0%Z;
     window_scrollTo := fun _ w => w;
     set_scrollTop := fun _ _ w => w;
     sleep := fun _ w => ([], fst w ++ snd w);
     observe := fun _ w => w;
     disconnect := fun w => w;
     set_timeout := fun _ w => w;
     clear_timeout := fun w => w;
     await_wakeup := fun w => (TimerFired, w) |}.

(** The hearts of [asyncFill] that have not been clicked. *)
Definition asyncFresh (w : world asyncFill) (h : node) : Prop :=
  existsb (Nat.eqb h) (fst w) = false /\ existsb (Nat.eqb h) (snd w) = false.

(** ** Classes of events *)

(** Events that touch neither the counter, nor the observer, nor the loop. *)
Definition quiet (e : event) : bool :=
  match e with
  | CounterSet _ | Observe _ | Disconnect | Iteration => false
  | _ => true
  end.

(** Events of the scroll phase: quiet and no click. *)
Definition silent (e : event) : bool :=
  match e with
  | Log _ _ | Pause _ | WindowScrollTo _ | SetScrollTop _ _ => true
  | _ => false
  end.

(** ** Vocabulary of the specifications *)

(** Events of a phase that leaves the observer and the loop alone. *)
Definition inner (e : event) : bool :=
  match e with
  | Observe _ | Disconnect | Iteration => false
  | _ => true
  end.

(** The console line that opens a scan which matched [n] elements. *)
Definition foundLine (n : nat) : event :=
  Log "processVisibleHearts: Found ${unfilledHearts.length} unfilled hearts." [Z.of_nat n].

(** The events of a scan that clicks the hearts [l], each click returning. *)
Definition clickBlocks (l : list node) : list event :=
  flat_map (fun h => [Click h; LogNode "Clicked heart:" h; Pause delayBetweenClicks]) l.

(** *** One attempt of the aggressive scroll loop *)

Section ScrollVocabulary.

Variable H : Host.
Variable isWindowScroll : bool.
Variable scrollElement : node.

(** The scroll position the script reads. *)
Definition positionOf (w : world H) : Z :=
  if isWindowScroll then scrollY H w else scrollTop H scrollElement w.

(** The scroll command of one attempt. *)
Definition scrollCommand (w : world H) : event :=
  if isWindowScroll then WindowScrollTo (body_scrollHeight H w + 1000)
  else SetScrollTop scrollElement (scrollHeight H scrollElement w + 1000).

(** The page after the scroll command and the pause of one attempt. *)
Definition afterAttempt (w : world H) : world H :=
  sleep H aggressiveScrollPause
    (if isWindowScroll then window_scrollTo H (body_scrollHeight H w + 1000) w
     else set_scrollTop H scrollElement (scrollHeight H scrollElement w + 1000) w).

(** [newScrollTop <= previousScrollTopForAggressiveScroll + 5] *)
Definition unchangedBy (w : world H) : bool :=
  (positionOf (afterAttempt w) <=? positionOf w + 5)%Z.

Definition atEffectiveBottom (w : world H) : bool :=
  ((if isWindowScroll then body_scrollHeight H w else scrollHeight H scrollElement w) - 5
   <=? positionOf w
       + (if isWindowScroll then innerHeight H w else clientHeight H scrollElement w))%Z.

(** What one attempt prints and does, given the attempt counter before. *)
Definition attemptEvents (attempts : nat) (w : world H) : list event :=
  [scrollCommand w; Pause aggressiveScrollPause;
   if unchangedBy w then
     Log "Aggressive scroll: Position effectively unchanged (at ${newScrollTop}), attempt ${aggressiveScrollAttempts}/${maxAggressiveScrollAttemptsAtBottom}."
       [positionOf (afterAttempt w); Z.of_nat (S attempts);
        Z.of_nat maxAggressiveScrollAttemptsAtBottom]
   else
     Log "Aggressive scroll: Scrolled from ${previousScrollTopForAggressiveScroll} to ${newScrollTop}."
       [positionOf w; positionOf (afterAttempt w)]]
  ++ (if atEffectiveBottom (afterAttempt w) then
        [Log "Aggressive scroll: Reached effective bottom based on scrollHeight." []]
      else []).

(** How far one attempt moves the scroll position, in pixels:
    [newScrollTop - previousScrollTopForAggressiveScroll]. *)
Definition advance (w : world H) : Z := (positionOf (afterAttempt w) - positionOf w)%Z.

(** The page after [n] attempts. *)
Fixpoint pageAfter (n : nat) (w : world H) : world H :=
  match n with
  | 0 => w
  | S k => pageAfter k (afterAttempt w)
  end.

(** Among the first [n] attempts from [w], those that move the position by
    more than 5 px. *)
Fixpoint movesIn (n : nat) (w : world H) : nat :=
  match n with
  | 0 => 0
  | S k => (if (5 <? advance w)%Z then 1 else 0) + movesIn k (afterAttempt w)
  end.

(** The attempts in a row, counted from [attempts], that have moved the
    position by at most 5 px when [n] attempts from [w] are over. *)
Fixpoint streak (attempts n : nat) (w : world H) : nat :=
  match n with
  | 0 => attempts
  | S k => streak (if (5 <? advance w)%Z then 0 else S attempts) k (afterAttempt w)
  end.

(** The moves of more than 5 px that fit between the position of [w] and
    [B]: [(B - position) / 5], rounded down. *)
Definition room (B : Z) (w : world H) : nat := Z.to_nat ((B - positionOf w) / 5).

End ScrollVocabulary.

(** A page that never grows: no unfilled heart is ever found, no mutation
    batch is ever delivered, and no scroll command ever advances the scroll
    position. *)
Definition neverGrows (H : Host) : Prop :=
  (forall w, querySelectorAll_hearts H w = [])
  /\ (forall w, fst (await_wakeup H w) = TimerFired)
  /\ (forall isWin el w,
        (positionOf H isWin el (afterAttempt H isWin el w) <= positionOf H isWin el w)%Z).

(** *** Predicate transformers and postconditions *)

Section Vocabulary.

Variable H : Host.
Implicit Types st : St H.

(** [wp m Q st]: running [m] from [st] ends in an outcome, a state and a
    trace that satisfy [Q]. *)
Definition wp {A} (m : M H A) (Q : outcome A -> St H -> list event -> Prop) st : Prop :=
  Q (fst (fst (m st))) (snd (fst (m st))) (snd (m st)).

(** The closure variables a scan leaves alone. *)
Definition keepsVars st st' : Prop :=
  scrollsWithoutNewHearts st' = scrollsWithoutNewHearts st
  /\ processedHeartsInCycle st' = processedHeartsInCycle st
  /\ resolve st' = resolve st.

(** What a scan guarantees, whatever the page does. *)
Definition passPost st (r : outcome nat) st' (evs : list event) : Prop :=
  exists n, r = Ret n
    /\ keepsVars st st'
    /\ totalHeartsClicked st' = totalHeartsClicked st + nclicks evs
    /\ n = nclicks evs
    /\ forallb quiet evs = true.

Definition callbackPost st (r : outcome bool) st' (evs : list event) : Prop :=
  exists b, r = Ret b
    /\ scrollsWithoutNewHearts st' = scrollsWithoutNewHearts st
    /\ resolve st' = resolve st
    /\ totalHeartsClicked st' = totalHeartsClicked st + nclicks evs
    /\ forallb quiet evs = true
    /\ (0 < nclicks evs -> processedHeartsInCycle st' = true)
    /\ (nclicks evs = 0 -> processedHeartsInCycle st' = processedHeartsInCycle st)
    /\ (resolve st = true -> b = false -> nclicks evs = 0).

(** The wait on the promise: it resolves or runs out of fuel, never
    throws; hearts are clicked only by a callback that then resolves it. *)
Definition awaitPost st (r : outcome unit) st' (evs : list event) : Prop :=
  (r = Ret tt \/ (r = Diverge /\ nclicks evs = 0))
  /\ scrollsWithoutNewHearts st' = scrollsWithoutNewHearts st
  /\ resolve st' = resolve st
  /\ totalHeartsClicked st' = totalHeartsClicked st + nclicks evs
  /\ forallb quiet evs = true
  /\ (0 < nclicks evs -> processedHeartsInCycle st' = true)
  /\ (nclicks evs = 0 -> processedHeartsInCycle st' = processedHeartsInCycle st).

(** The scroll phase touches no closure variable and clicks nothing. *)
Definition scrollPost {A} st (r : outcome A) st' (evs : list event) : Prop :=
  ((exists a, r = Ret a) \/ r = Diverge)
  /\ keepsVars st st'
  /\ totalHeartsClicked st' = totalHeartsClicked st
  /\ forallb silent evs = true.

Definition bottomCheckPost st (r : outcome bool) st' (evs : list event) : Prop :=
  exists b, r = Ret b
    /\ scrollsWithoutNewHearts st' <= maxScrollsWithoutNewHearts
    /\ b = (maxScrollsWithoutNewHearts <=? scrollsWithoutNewHearts st')
    /\ totalHeartsClicked st' = totalHeartsClicked st + nclicks evs
    /\ counterBounded evs = true
    /\ resetsAfterClicks false evs = Some false
    /\ forallb inner evs = true.

Definition waitPost st (r : outcome unit) st' (evs : list event) : Prop :=
  (r = Ret tt \/ (r = Diverge /\ nclicks evs = 0))
  /\ scrollsWithoutNewHearts st' = scrollsWithoutNewHearts st
  /\ totalHeartsClicked st' = totalHeartsClicked st + nclicks evs
  /\ counterBounded evs = true
  /\ resetsAfterClicks false evs = Some (0 <? nclicks evs)
  /\ (0 < nclicks evs -> processedHeartsInCycle st' = true)
  /\ observerDiscipline [] evs = true
  /\ (r = Ret tt -> subscriptions [] evs = [])
  /\ iterations evs = 0.

Definition afterCyclePost st (r : outcome unit) st' (evs : list event) : Prop :=
  r = Ret tt
  /\ scrollsWithoutNewHearts st' <= maxScrollsWithoutNewHearts
  /\ totalHeartsClicked st' = totalHeartsClicked st + nclicks evs
  /\ counterBounded evs = true
  /\ forallb inner evs = true
  /\ (forall p, (p = true -> processedHeartsInCycle st = true) ->
                resetsAfterClicks p evs = Some false).

Definition loopBodyPost st (r : outcome bool) st' (evs : list event) : Prop :=
  ((exists b, r = Ret b
              /\ (b = true -> maxScrollsWithoutNewHearts <= scrollsWithoutNewHearts st'))
   \/ r = Diverge)
  /\ scrollsWithoutNewHearts st' <= maxScrollsWithoutNewHearts
  /\ totalHeartsClicked st' = totalHeartsClicked st + nclicks evs
  /\ counterBounded evs = true
  /\ resetsAfterClicks false evs = Some false
  /\ observerDiscipline [] evs = true
  /\ (r <> Diverge -> subscriptions [] evs = []).

Definition mainLoopPost st (r : outcome unit) st' (evs : list event) : Prop :=
  ((r = Ret tt /\ scrollsWithoutNewHearts st' = maxScrollsWithoutNewHearts
    /\ subscriptions [] evs = [])
   \/ r = Diverge)
  /\ scrollsWithoutNewHearts st' <= maxScrollsWithoutNewHearts
  /\ totalHeartsClicked st' = totalHeartsClicked st + nclicks evs
  /\ counterBounded evs = true
  /\ resetsAfterClicks false evs = Some false
  /\ observerDiscipline [] evs = true.

(** What a whole run guarantees on every page, finished or cut short. *)
Definition runPost (r : outcome string) st' (evs : list event) : Prop :=
  ((r = Ret (String.append "Total hearts clicked: " (show (nclicks evs)))
    /\ scrollsWithoutNewHearts st' = maxScrollsWithoutNewHearts
    /\ subscriptions [] evs = []
    /\ endsDisconnected evs = true)
   \/ r = Diverge)
  /\ scrollsWithoutNewHearts st' <= maxScrollsWithoutNewHearts
  /\ totalHeartsClicked st' = nclicks evs
  /\ counterBounded evs = true
  /\ resetsAfterClicks false evs = Some false
  /\ observerDiscipline [] evs = true.

(** A heart the scan acts on when it reaches it on page [w]. *)
Definition actionable (w : world H) (h : node) : bool :=
  negb (offsetParent_null H h w || classList_contains_filled H h w).

Definition sameFlags (h : node) (w w' : world H) : Prop :=
  offsetParent_null H h w' = offsetParent_null H h w
  /\ classList_contains_filled H h w' = classList_contains_filled H h w.

(** The page changes the visibility and the filled class of a heart only
    once that heart has been clicked, at once or later: a heart that is
    [fresh] (not clicked so far) stays fresh, and keeps both, through a
    click on another heart and through a pause. *)
Definition leavesFreshAlone (fresh : world H -> node -> Prop) : Prop :=
  (forall h h' w, h <> h' -> fresh w h' ->
     fresh (snd (click H h w)) h' /\ sameFlags h' w (snd (click H h w)))
  /\ (forall ms h' w, fresh w h' ->
        fresh (sleep H ms w) h' /\ sameFlags h' w (sleep H ms w)).

(** [Inv] holds of every page a scan can pass through once it holds: it is
    kept by a click on any heart and by a pause. *)
Definition keptByScan (Inv : world H -> Prop) : Prop :=
  (forall n w, Inv w -> Inv (snd (click H n w)))
  /\ (forall ms w, Inv w -> Inv (sleep H ms w)).

(** On the pages of [Inv] the heart [h] matches the selector, is visible
    and does not carry the filled class. *)
Definition staysUnfilled (Inv : world H -> Prop) (h : node) : Prop :=
  forall w, Inv w ->
    In h (querySelectorAll_hearts H w)
    /\ offsetParent_null H h w = false
    /\ classList_contains_filled H h w = false.

End Vocabulary.

Arguments wp {H A} m Q st.
Arguments keepsVars {H}.
Arguments passPost {H}.
Arguments callbackPost {H}.
Arguments awaitPost {H}.
Arguments bottomCheckPost {H}.
Arguments waitPost {H}.
Arguments afterCyclePost {H}.
Arguments loopBodyPost {H}.
Arguments mainLoopPost {H}.
Arguments runPost {H}.
Arguments scrollPost {H A}.
Arguments actionable {H} w h.
Arguments sameFlags {H} h w w'.

(** [wpc m P st]: as [wp], for a property of the hearts clicked. *)
Definition wpc {H : Host} {A} (m : M H A)
    (P : outcome A -> St H -> list node -> Prop) (st : St H) : Prop :=
  wp m (fun r st' evs => P r st' (clickedNodes evs)) st.

(** ** Vocabulary of further properties *)

(** The tags [mutationCallback] does not count as new content (line 84). *)
Definition excludedTags : list string := ["SCRIPT"; "STYLE"; "LINK"]%string.

(** [Inv] is kept by everything the script does to the page and by
    everything the page does while the script is suspended. *)
Definition hostKeeps (H : Host) (Inv : world H -> Prop) : Prop :=
  (forall n w, Inv w -> Inv (snd (click H n w)))
  /\ (forall ms w, Inv w -> Inv (sleep H ms w))
  /\ (forall y w, Inv w -> Inv (window_scrollTo H y w))
  /\ (forall n y w, Inv w -> Inv (set_scrollTop H n y w))
  /\ (forall n w, Inv w -> Inv (observe H n w))
  /\ (forall w, Inv w -> Inv (disconnect H w))
  /\ (forall ms w, Inv w -> Inv (set_timeout H ms w))
  /\ (forall w, Inv w -> Inv (clear_timeout H w))
  /\ (forall w, Inv w -> Inv (snd (await_wakeup H w))).

(** [pageKept Inv m]: [m] leaves the page within [Inv]. *)
Definition pageKept {H : Host} {A} (Inv : world H -> Prop) (m : M H A) : Prop :=
  forall st, Inv (page st) -> Inv (page (snd (fst (m st)))).

(** The state after [k] scans in a row. *)
Fixpoint afterScans (H : Host) (k : nat) (st : St H) : St H :=
  match k with
  | 0 => st
  | S k' => afterScans H k' (stateOf (processVisibleHearts H st))
  end.

(** The last three events of a finished run (lines 235-238). *)
Definition closingLines (clicked : nat) : list event :=
  [Disconnect;
   Log "Finished. Total hearts clicked: ${totalHeartsClicked}." [Z.of_nat clicked];
   Log "Stopped after ${scrollsWithoutNewHearts} scroll attempts without new hearts or reaching bottom."
       [Z.of_nat maxScrollsWithoutNewHearts]].

(** [emitsOnly ok m]: whatever the state, every event of [m] satisfies [ok]. *)
Definition emitsOnly {H : Host} {A} (ok : event -> Prop) (m : M H A) : Prop :=
  forall st, Forall ok (snd (m st)).

(** The events that name no element the script acts on: neither a click,
    nor a scroll command, nor a subscription. *)
Definition plain (e : event) : bool :=
  match e with
  | Click _ | ClickThrew _ _ | WindowScrollTo _ | SetScrollTop _ _ | Observe _ => false
  | _ => true
  end.

(** [scrollElement] of line 128 and [observerTargetNode] of line 202. *)
Definition scrollElementOf (H : Host) (w : world H) : node :=
  match querySelector_grid H w with Some g => g | None => documentElement H end.

Definition observerTargetOf (H : Host) (w : world H) : node :=
  match querySelector_grid H w with Some g => g | None => body H end.

(** On a page whose grid query always answers [grid]: a scroll command goes
    to the window when there is no grid (or the grid is the document
    element) and to the grid otherwise; the observer watches the grid, or
    the body when there is none. *)
Definition targetOk (H : Host) (grid : option node) (e : event) : bool :=
  let el := match grid with Some g => g | None => documentElement H end in
  match e with
  | WindowScrollTo _ => el =? documentElement H
  | SetScrollTop n _ => negb (el =? documentElement H) && (n =? el)
  | Observe t => t =? match grid with Some g => g | None => body H end
  | _ => true
  end.

(** Milliseconds the script sleeps in [Pause] events. *)
Fixpoint sleepTime (evs : list event) : Z :=
  match evs with
  | [] => 0
  | Pause ms :: tl => ms + sleepTime tl
  | _ :: tl => sleepTime tl
  end.

(** [subseq a l]: [a] is [l] with some elements left out. *)
Fixpoint subseq (a l : list node) : bool :=
  match l with
  | [] => match a with [] => true | _ => false end
  | y :: l' =>
      match a with
      | [] => true
      | x :: a' => if x =? y then subseq a' l' else subseq a l'
      end
  end.

(** An empty page with a grid container that reports more content below
    and does not move. *)
Definition gridded : Host := fixedPage [] false (Some 5) 0 5000 100.

(** ** Facts about traces *)

Lemma silent_quiet evs : forallb silent evs = true -> forallb quiet evs = true.
Proof.
  induction evs as [|e tl IH]; simpl; auto.
  intros E; apply andb_true_iff in E as [E1 E2].
  rewrite IH by assumption. destruct e; simpl in *; congruence.
Qed.

Lemma clickedNodes_app a b : clickedNodes (a ++ b) = clickedNodes a ++ clickedNodes b.
Proof.
  induction a as [|e tl IH]; simpl; auto.
  destruct e; simpl; rewrite ?IH; reflexivity.
Qed.

Lemma attemptedNodes_app a b :
  attemptedNodes (a ++ b) = attemptedNodes a ++ attemptedNodes b.
Proof.
  induction a as [|e tl IH]; simpl; auto.
  destruct e; simpl; rewrite ?IH; reflexivity.
Qed.

Lemma nclicks_app a b : nclicks (a ++ b) = nclicks a + nclicks b.
Proof.
  induction a as [|e tl IH]; simpl; auto.
  destruct e; simpl; rewrite ?IH; reflexivity.
Qed.

Lemma nclicks_length evs : nclicks evs = List.length (clickedNodes evs).
Proof.
  induction evs as [|e tl IH]; simpl; auto.
  destruct e; simpl; rewrite ?IH; reflexivity.
Qed.

Lemma nclicks_silent evs : forallb silent evs = true -> nclicks evs = 0.
Proof.
  induction evs as [|e tl IH]; simpl; auto.
  intros E; apply andb_true_iff in E as [E1 E2].
  destruct e; simpl in *; try discriminate; auto.
Qed.

Lemma iterations_app a b : iterations (a ++ b) = iterations a + iterations b.
Proof.
  induction a as [|e tl IH]; simpl; auto.
  destruct e; simpl; rewrite ?IH; reflexivity.
Qed.

Lemma iterations_quiet evs : forallb quiet evs = true -> iterations evs = 0.
Proof.
  induction evs as [|e tl IH]; simpl; auto.
  intros E; apply andb_true_iff in E as [E1 E2].
  destruct e; simpl in *; try discriminate; auto.
Qed.

Lemma scrollCommands_app a b : scrollCommands (a ++ b) = scrollCommands a + scrollCommands b.
Proof.
  induction a as [|e tl IH]; simpl; auto.
  destruct e; simpl; rewrite ?IH; reflexivity.
Qed.

Lemma counterBounded_app a b :
  counterBounded (a ++ b) = counterBounded a && counterBounded b.
Proof. apply forallb_app. Qed.

Lemma counterBounded_quiet evs : forallb quiet evs = true -> counterBounded evs = true.
Proof.
  unfold counterBounded. induction evs as [|e tl IH]; simpl; auto.
  intros E; apply andb_true_iff in E as [E1 E2].
  rewrite IH by assumption. destruct e; simpl in *; congruence.
Qed.

Lemma resetsAfterClicks_app p a b :
  resetsAfterClicks p (a ++ b) =
  match resetsAfterClicks p a with
  | Some p' => resetsAfterClicks p' b
  | None => None
  end.
Proof.
  revert p; induction a as [|e tl IH]; intros p; simpl; auto.
  destruct e; simpl; auto.
  destruct c; simpl; auto. destruct p; auto.
Qed.

Lemma resetsAfterClicks_quiet p evs :
  forallb quiet evs = true ->
  resetsAfterClicks p evs = Some (p || (0 <? nclicks evs)).
Proof.
  revert p; induction evs as [|e tl IH]; intros p E; simpl.
  - rewrite orb_false_r. reflexivity.
  - simpl in E. apply andb_true_iff in E as [E1 E2].
    destruct e; simpl in E1; try discriminate;
      try (rewrite IH by assumption; reflexivity).
    rewrite IH by assumption. simpl.
    rewrite orb_true_r. reflexivity.
Qed.

Lemma subscriptions_app s a b :
  subscriptions s (a ++ b) = subscriptions (subscriptions s a) b.
Proof. apply fold_left_app. Qed.

Lemma observerDiscipline_app s a b :
  observerDiscipline s (a ++ b) =
  observerDiscipline s a && observerDiscipline (subscriptions s a) b.
Proof.
  revert s; induction a as [|e tl IH]; intros s; simpl; auto.
  rewrite IH. rewrite <- !andb_assoc. reflexivity.
Qed.

Lemma subscriptions_quiet s evs : forallb quiet evs = true -> subscriptions s evs = s.
Proof.
  revert s; induction evs as [|e tl IH]; intros s E; simpl; auto.
  simpl in E. apply andb_true_iff in E as [E1 E2].
  unfold subscriptions in *.
  destruct e; simpl in E1; try discriminate; simpl; apply IH; assumption.
Qed.

Lemma observerDiscipline_quiet s evs :
  List.length s <= 1 -> forallb quiet evs = true -> observerDiscipline s evs = true.
Proof.
  intros L. induction evs as [|e tl IH]; intros E; simpl; auto.
  simpl in E. apply andb_true_iff in E as [E1 E2].
  destruct e; simpl in *; try discriminate;
    rewrite IH by assumption; rewrite andb_true_r; apply Nat.leb_le; assumption.
Qed.

Lemma quiet_inner evs : forallb quiet evs = true -> forallb inner evs = true.
Proof.
  induction evs as [|e tl IH]; simpl; auto.
  intros E; apply andb_true_iff in E as [E1 E2].
  rewrite IH by assumption. destruct e; simpl in *; congruence.
Qed.

Lemma subscriptions_inner s evs : forallb inner evs = true -> subscriptions s evs = s.
Proof.
  revert s; induction evs as [|e tl IH]; intros s E; simpl; auto.
  simpl in E. apply andb_true_iff in E as [E1 E2].
  unfold subscriptions in *.
  destruct e; simpl in E1; try discriminate; simpl; apply IH; assumption.
Qed.

Lemma observerDiscipline_inner s evs :
  List.length s <= 1 -> forallb inner evs = true -> observerDiscipline s evs = true.
Proof.
  intros L. induction evs as [|e tl IH]; intros E; simpl; auto.
  simpl in E. apply andb_true_iff in E as [E1 E2].
  destruct e; simpl in *; try discriminate;
    rewrite IH by assumption; rewrite andb_true_r; apply Nat.leb_le; assumption.
Qed.

Lemma iterations_inner evs : forallb inner evs = true -> iterations evs = 0.
Proof.
  induction evs as [|e tl IH]; simpl; auto.
  intros E; apply andb_true_iff in E as [E1 E2].
  destruct e; simpl in *; try discriminate; auto.
Qed.

(** ** Facts about the script on every page *)

Ltac unfold_ops :=
  unfold log, pause, setScrolls, bind, ret, emit, get, read, modify, call, diverge,
    try_catch; cbv beta iota.

Section Wp.

Variable H : Host.
Implicit Types st : St H.

Lemma wp_eq {A} (m : M H A) Q st r st' evs :
  m st = (r, st', evs) -> Q r st' evs -> wp m Q st.
Proof. unfold wp. intros ->. simpl. auto. Qed.

Lemma wp_inv {A} (m : M H A) Q st :
  wp m Q st -> exists r st' evs, m st = (r, st', evs) /\ Q r st' evs.
Proof.
  unfold wp. destruct (m st) as [[r st'] evs]. simpl. eauto.
Qed.

Lemma wp_mono {A} (m : M H A) (Q Q' : outcome A -> St H -> list event -> Prop) st :
  wp m Q st -> (forall r st' evs, Q r st' evs -> Q' r st' evs) -> wp m Q' st.
Proof. unfold wp. auto. Qed.

Lemma wp_conj {A} (m : M H A) (Q Q' : outcome A -> St H -> list event -> Prop) st :
  wp m Q st -> wp m Q' st -> wp m (fun r st' evs => Q r st' evs /\ Q' r st' evs) st.
Proof. unfold wp. auto. Qed.

Lemma wp_outcome {A} (m : M H A) st :
  wp m (fun r _ _ => r = outcomeOf (m st)) st.
Proof. reflexivity. Qed.

Lemma wp_bind {A B} (m : M H A) (k : A -> M H B) Q st :
  wp m (fun r st1 ev1 =>
          match r with
          | Ret a => wp (k a) (fun r2 st2 ev2 => Q r2 st2 (ev1 ++ ev2)) st1
          | Throw e => Q (Throw e) st1 ev1
          | Diverge => Q Diverge st1 ev1
          end) st ->
  wp (bind H m k) Q st.
Proof.
  unfold wp, bind. destruct (m st) as [[r st1] ev1]. simpl.
  destruct r; auto. destruct (k a st1) as [[r2 st2] ev2]. auto.
Qed.

Lemma wp_ret {A} (a : A) Q st : Q (Ret a) st [] -> wp (ret H a) Q st.
Proof. auto. Qed.

Lemma wp_emit e Q st : Q (Ret tt) st [e] -> wp (emit H e) Q st.
Proof. auto. Qed.

Lemma wp_log t a Q st : Q (Ret tt) st [Log t a] -> wp (log H t a) Q st.
Proof. auto. Qed.

Lemma wp_get {A} (f : St H -> A) Q st : Q (Ret (f st)) st [] -> wp (get H f) Q st.
Proof. auto. Qed.

Lemma wp_read {A} (f : world H -> A) Q st : Q (Ret (f (page st))) st [] -> wp (read H f) Q st.
Proof. auto. Qed.

Lemma wp_modify f Q st : Q (Ret tt) (f st) [] -> wp (modify H f) Q st.
Proof. auto. Qed.

Lemma wp_call e f Q st : Q (Ret tt) (set_page (f (page st)) st) [e] -> wp (call H e f) Q st.
Proof. auto. Qed.

Lemma wp_pause ms Q st :
  Q (Ret tt) (set_page (sleep H ms (page st)) st) [Pause ms] -> wp (pause H ms) Q st.
Proof. auto. Qed.

Lemma wp_setScrolls c Q st :
  Q (Ret tt) (set_scrolls c st) [CounterSet c] -> wp (setScrolls H c) Q st.
Proof. auto. Qed.

Lemma wp_diverge {A} (Q : outcome A -> St H -> list event -> Prop) st :
  Q Diverge st [] -> wp (diverge H) Q st.
Proof. auto. Qed.

End Wp.

(** One step of symbolic execution of a monadic computation under [wp]. *)
Ltac wp_step :=
  lazymatch goal with
  | |- wp (bind _ _ _) _ _ => apply wp_bind
  | |- wp (ret _ _) _ _ => apply wp_ret
  | |- wp (emit _ _) _ _ => apply wp_emit
  | |- wp (log _ _ _) _ _ => apply wp_log
  | |- wp (get _ _) _ _ => apply wp_get
  | |- wp (read _ _) _ _ => apply wp_read
  | |- wp (modify _ _) _ _ => apply wp_modify
  | |- wp (call _ _ _) _ _ => apply wp_call
  | |- wp (pause _ _) _ _ => apply wp_pause
  | |- wp (setScrolls _ _) _ _ => apply wp_setScrolls
  | |- wp (diverge _) _ _ => apply wp_diverge
  end;
  cbv beta iota zeta.

Ltac wp_steps := repeat wp_step.

(** Case split on the condition of a conditional computation. *)
Ltac wp_if :=
  match goal with
  | |- wp (if ?c then _ else _) _ _ => destruct c eqn:?; cbv iota
  end.

(** Reduce the projections of updated states, and nothing else. *)
Ltac st_simpl :=
  cbn [scrollsWithoutNewHearts totalHeartsClicked processedHeartsInCycle resolve page
       set_scrolls set_total set_processed set_resolve set_page initial].

(** Run a computation whose specification [L] is known. *)
Ltac wp_use L :=
  lazymatch goal with
  | |- wp (bind _ _ _) _ _ => apply wp_bind
  | |- _ => idtac
  end;
  eapply wp_mono; [apply L | cbv beta].

Section Generic.

Variable H : Host.
Implicit Types st : St H.

Lemma keepsVars_refl st : keepsVars st st.
Proof. repeat split. Qed.

Lemma keepsVars_trans st1 st2 st3 :
  keepsVars st1 st2 -> keepsVars st2 st3 -> keepsVars st1 st3.
Proof. unfold keepsVars; intuition congruence. Qed.

Lemma forHearts_spec l : forall passed st,
  exists n st' evs,
    forHearts H l passed st = (Ret n, st', evs)
    /\ keepsVars st st'
    /\ totalHeartsClicked st' = totalHeartsClicked st + nclicks evs
    /\ n = passed + nclicks evs
    /\ forallb quiet evs = true.
Proof.
  induction l as [|h tl IH]; intros passed st; simpl.
  - exists passed, st, []. unfold ret. repeat split; simpl; auto using keepsVars_refl.
  - unfold bind at 1. unfold read at 1. unfold bind at 1. unfold read at 1.
    destruct (offsetParent_null H h (page st) || classList_contains_filled H h (page st)).
    + destruct (IH passed st) as (n & st' & evs & E & K & T & N & Q).
      rewrite E. exists n, st', evs. simpl. auto.
    + unfold bind at 1. unfold try_catch, clickHeart. unfold_ops.
      destruct (click H h (page st)) as [[e|] w]; simpl.
      * match goal with |- context [forHearts H tl ?p ?s] =>
          destruct (IH p s) as (n & st' & evs & E & K & T & N & Q) end.
        rewrite E. do 3 eexists. split; [reflexivity|].
        simpl. repeat split; try apply K; auto.
      * match goal with |- context [forHearts H tl ?p ?s] =>
          destruct (IH p s) as (n & st' & evs & E & K & T & N & Q) end.
        rewrite E. do 3 eexists. split; [reflexivity|].
        simpl in *. repeat split; try apply K; auto; lia.
Qed.

Lemma processVisibleHearts_spec st :
  exists n st' evs,
    processVisibleHearts H st = (Ret n, st', evs)
    /\ keepsVars st st'
    /\ totalHeartsClicked st' = totalHeartsClicked st + nclicks evs
    /\ n = nclicks evs
    /\ forallb quiet evs = true.
Proof.
  unfold processVisibleHearts. unfold_ops.
  destruct (List.length (querySelectorAll_hearts H (page st)) =? 0).
  - do 3 eexists. split; [reflexivity|]. simpl.
    repeat split; auto.
  - destruct (forHearts_spec (querySelectorAll_hearts H (page st)) 0 st)
      as (n & st' & evs & E & K & T & N & Q).
    rewrite E. do 3 eexists. split; [reflexivity|]. simpl. auto.
Qed.

Lemma pass_wp st : wp (processVisibleHearts H) (passPost st) st.
Proof.
  destruct (processVisibleHearts_spec st) as (n & st' & evs & E & K & T & N & Q).
  eapply wp_eq; [exact E|]. exists n. auto.
Qed.

Lemma mutationCallback_wp ms st : wp (mutationCallback H ms) (callbackPost st) st.
Proof.
  unfold mutationCallback. destruct (relevantMutationDetected ms).
  2:{ wp_step. exists false. simpl. repeat split; auto; lia. }
  wp_steps. wp_if; wp_steps.
  all: wp_use pass_wp; intros r st' evs (n & -> & (K1 & K2 & K3) & T & N & Q).
  all: wp_steps; wp_if; wp_steps.
  all: first [apply Nat.ltb_lt in Heqb0 | apply Nat.ltb_ge in Heqb0].
  all: eexists; split; [reflexivity|].
  all: simpl in *; rewrite ?nclicks_app, ?forallb_app, ?Q; simpl.
  all: repeat split; try congruence; try lia.
Qed.

Lemma awaitResolve_wp fuel : forall st,
  resolve st = true -> wp (awaitResolve H fuel) (awaitPost st) st.
Proof.
  induction fuel as [|fuel IH]; intros st R; simpl.
  - wp_step. unfold awaitPost. simpl. repeat split; auto; lia.
  - apply wp_bind. unfold wp at 1. simpl.
    destruct (await_wakeup H (page st)) as [wk w]. simpl.
    destruct wk as [|ms].
    + wp_steps. simpl. rewrite R. wp_step.
      unfold awaitPost. simpl. repeat split; auto; lia.
    + wp_use mutationCallback_wp.
      intros r st1 ev1 (b & -> & C1 & R1 & T1 & Q1 & P1 & P2 & B1).
      simpl in *. destruct b.
      * wp_step. unfold awaitPost. simpl. rewrite app_nil_r.
        repeat split; auto.
      * eapply wp_mono; [apply IH; congruence|]. cbv beta.
        intros r st2 ev2 (O & C2 & R2 & T2 & Q2 & P3 & P4).
        specialize (B1 R eq_refl).
        unfold awaitPost. simpl.
        rewrite nclicks_app, forallb_app, Q1, Q2, B1 in *. simpl in *.
        specialize (P2 eq_refl).
        repeat split; try congruence; try lia; auto.
        intros Z0. rewrite P4; auto.
Qed.

Lemma scrollToEnd_wp isWin el Q st :
  (forall w y, silent y = true -> scrollCommands [y] = 1 ->
     Q (Ret tt) (set_page w st) [y]) ->
  wp (scrollToEnd H isWin el) Q st.
Proof.
  intros HQ. unfold scrollToEnd. destruct isWin; wp_steps; apply HQ; reflexivity.
Qed.

Lemma aggressiveLoop_wp fuel isWin el : forall attempts happened st,
  wp (aggressiveLoop H fuel isWin el attempts happened) (scrollPost st) st.
Proof.
  induction fuel as [|fuel IH]; intros attempts happened st; simpl.
  - destruct (attempts <? maxAggressiveScrollAttemptsAtBottom); wp_step;
      unfold scrollPost; simpl; repeat split; eauto.
  - destruct (attempts <? maxAggressiveScrollAttemptsAtBottom).
    2:{ wp_step. unfold scrollPost; simpl; repeat split; eauto. }
    unfold getScrollTop, getScrollHeight, getClientHeight.
    wp_steps. apply scrollToEnd_wp. intros w y Sy _. cbv beta iota.
    wp_steps.
    set (unchanged := (_ <=? _)%Z).
    destruct unchanged; wp_steps.
    all: match goal with
         | |- wp (if ?c then _ else _) _ _ => destruct c
         end; wp_steps.
    1: unfold scrollPost; simpl; rewrite Sy; repeat split; eauto.
    all: eapply wp_mono; [apply IH|]; cbv beta.
    all: intros r st2 ev2 (O & (K1 & K2 & K3) & T2 & S2).
    all: unfold scrollPost; simpl in *; rewrite ?forallb_app, Sy, S2; simpl.
    all: repeat split; auto.
Qed.

Lemma aggressiveScroll_wp fuel isWin el st :
  wp (aggressiveScroll H fuel isWin el) (scrollPost st) st.
Proof.
  unfold aggressiveScroll, getScrollTop, getScrollHeight, getClientHeight.
  wp_steps. wp_use aggressiveLoop_wp.
  intros r st1 ev1 (O & (K1 & K2 & K3) & T1 & S1).
  destruct O as [[happened ->]| ->].
  2:{ unfold scrollPost; simpl; rewrite S1; repeat split; auto. }
  wp_steps. wp_if; wp_steps.
  1: wp_if; wp_steps.
  all: unfold scrollPost; simpl; rewrite ?forallb_app, S1; simpl.
  all: repeat split; eauto.
Qed.

(** *** The phases of one iteration *)

Lemma bottomCheck_wp st :
  scrollsWithoutNewHearts st < maxScrollsWithoutNewHearts ->
  wp (bottomCheck H) (bottomCheckPost st) st.
Proof.
  intros C. unfold bottomCheck. wp_steps. wp_use pass_wp.
  intros r st1 ev1 (n & -> & (K1 & K2 & K3) & T & N & Q).
  pose proof (quiet_inner _ Q) as I.
  pose proof (counterBounded_quiet _ Q) as CB.
  pose proof (resetsAfterClicks_quiet false _ Q) as RS. simpl in RS.
  wp_steps. wp_if; wp_steps.
  - rewrite N in Heqb.
    eexists. split; [reflexivity|]. simpl.
    rewrite ?nclicks_app, ?forallb_app, ?counterBounded_app, ?resetsAfterClicks_app.
    rewrite RS, Heqb, I, CB. simpl. rewrite Nat.add_0_r.
    unfold maxScrollsWithoutNewHearts. repeat split; auto; lia.
  - rewrite N in Heqb. wp_if; wp_steps.
    all: match goal with
         | |- wp (if ?c then _ else _) _ _ => destruct c eqn:Hc
         end; wp_steps.
    all: eexists; split; [reflexivity|]; simpl.
    all: rewrite ?nclicks_app, ?forallb_app, ?counterBounded_app, ?resetsAfterClicks_app.
    all: rewrite RS, Heqb, I, CB; simpl in *; rewrite ?Nat.add_0_r.
    all: unfold maxScrollsWithoutNewHearts in *.
    all: repeat split; auto; try lia.
    all: try (symmetry; first [apply Nat.leb_le | apply Nat.leb_gt]; 
              first [apply Nat.leb_le in Hc | apply Nat.leb_gt in Hc]; lia).
    all: try (destruct (scrollsWithoutNewHearts st1) as [|[|[|[|?]]]]; simpl; auto; lia).
Qed.

Lemma waitForMutations_wp fuel st : wp (waitForMutations H fuel) (waitPost st) st.
Proof.
  unfold waitForMutations. wp_steps.
  eapply wp_mono; [apply awaitResolve_wp; reflexivity|]. cbv beta.
  intros r st1 ev1 (O & C1 & R1 & T1 & Q1 & P1 & P2).
  pose proof (counterBounded_quiet _ Q1) as CB.
  pose proof (resetsAfterClicks_quiet false _ Q1) as RS. simpl in RS.
  pose proof (iterations_quiet _ Q1) as IT.
  set (target := match querySelector_grid H _ with Some g => g | None => body H end) in *.
  assert (OD : forall tl, observerDiscipline [target] (ev1 ++ tl)
                          = observerDiscipline [target] tl).
  { intros tl. rewrite observerDiscipline_app, subscriptions_quiet by assumption.
    rewrite observerDiscipline_quiet by (simpl; auto). reflexivity. }
  destruct O as [-> | [-> Z0]].
  - wp_steps. unfold waitPost. simpl in *.
    rewrite ?nclicks_app, ?counterBounded_app, ?resetsAfterClicks_app, ?iterations_app,
      ?subscriptions_app.
    rewrite OD, RS, CB, IT, (subscriptions_quiet [target] ev1 Q1). simpl.
    rewrite ?Nat.add_0_r. repeat split; auto.
  - unfold waitPost. simpl in *.
    rewrite (observerDiscipline_quiet [target] ev1) by (simpl; auto).
    rewrite RS, CB, IT. simpl. repeat split; auto. discriminate.
Qed.

Lemma afterCycle_wp st :
  scrollsWithoutNewHearts st < maxScrollsWithoutNewHearts ->
  wp (afterCycle H) (afterCyclePost st) st.
Proof.
  intros C. unfold afterCycle. wp_steps. wp_if; wp_steps.
  - unfold afterCyclePost. simpl. unfold maxScrollsWithoutNewHearts.
    repeat split; auto; lia.
  - wp_use pass_wp.
    intros r st1 ev1 (n & -> & (K1 & K2 & K3) & T & N & Q).
    pose proof (quiet_inner _ Q) as I.
    pose proof (counterBounded_quiet _ Q) as CB.
    pose proof (resetsAfterClicks_quiet false _ Q) as RS. simpl in RS.
    wp_steps. rewrite N. wp_if; wp_steps.
    all: unfold afterCyclePost; simpl.
    all: rewrite ?nclicks_app, ?forallb_app, ?counterBounded_app.
    all: rewrite I, CB; simpl in *; rewrite ?Nat.add_0_r.
    all: unfold maxScrollsWithoutNewHearts in *.
    all: repeat split; auto; try lia.
    all: try (destruct (scrollsWithoutNewHearts st1) as [|[|[|[|?]]]]; simpl; auto; lia).
    all: intros p Hp; destruct p; [specialize (Hp eq_refl); congruence|].
    all: rewrite !resetsAfterClicks_app, RS; reflexivity.
Qed.

(** *** One iteration, the loop, the run *)

Lemma loopBody_wp fuel st :
  scrollsWithoutNewHearts st < maxScrollsWithoutNewHearts ->
  wp (loopBody H fuel) (loopBodyPost st) st.
Proof.
  intros C. unfold loopBody. wp_steps.
  set (el := match querySelector_grid H (page st) with
             | Some g => g | None => documentElement H end).
  set (isWin := el =? documentElement H).
  assert (Rest : forall st0 pre,
    scrollsWithoutNewHearts st0 < maxScrollsWithoutNewHearts ->
    totalHeartsClicked st0 = totalHeartsClicked st + nclicks pre ->
    counterBounded pre = true -> resetsAfterClicks false pre = Some false ->
    forallb inner pre = true ->
    wp (bind H (aggressiveScroll H fuel isWin el)
          (fun _ => bind H (waitForMutations H fuel)
             (fun _ => bind H (afterCycle H) (fun _ => ret H false))))
       (fun r st' evs => loopBodyPost st r st' (Iteration :: pre ++ evs)) st0).
  { intros st0 pre C0 T0 CB0 RS0 I0.
    wp_use aggressiveScroll_wp.
    intros r st1 ev1 (O1 & (K1 & K2 & K3) & T1 & S1).
    pose proof (silent_quiet _ S1) as Q1.
    pose proof (quiet_inner _ Q1) as I1.
    pose proof (counterBounded_quiet _ Q1) as CB1.
    pose proof (resetsAfterClicks_quiet false _ Q1) as RS1.
    pose proof (nclicks_silent _ S1) as N1. rewrite N1 in RS1.
    change (0 <? 0) with false in RS1.
    assert (OD : forall tl, observerDiscipline [] (pre ++ ev1 ++ tl)
                            = observerDiscipline [] tl).
    { intros tl.
      rewrite observerDiscipline_app, (subscriptions_inner [] pre I0),
        (observerDiscipline_inner [] pre) by (simpl; auto).
      rewrite observerDiscipline_app, (subscriptions_inner [] ev1 I1),
        (observerDiscipline_inner [] ev1) by (simpl; auto).
      reflexivity. }
    assert (SB : forall tl, subscriptions [] (pre ++ ev1 ++ tl) = subscriptions [] tl).
    { intros tl.
      rewrite subscriptions_app, (subscriptions_inner [] pre I0).
      rewrite subscriptions_app, (subscriptions_inner [] ev1 I1). reflexivity. }
    destruct O1 as [[[] ->]| ->].
    2:{ unfold loopBodyPost. simpl.
        rewrite <- (app_nil_r ev1) at 4. rewrite OD.
        rewrite ?nclicks_app, ?counterBounded_app, ?resetsAfterClicks_app.
        rewrite ?RS0, ?RS1, ?CB0, ?CB1, ?N1. simpl. rewrite ?RS1.
        repeat split; auto; try lia; try congruence. }
    wp_use waitForMutations_wp.
    intros r st2 ev2 (O2 & C2 & T2 & CB2 & RS2 & P2 & OD2 & SB2 & IT2).
    destruct O2 as [-> | [-> Z2]].
    2:{ unfold loopBodyPost. simpl.
        rewrite OD.
        rewrite ?nclicks_app, ?counterBounded_app, ?resetsAfterClicks_app.
        rewrite Z2 in RS2. change (0 <? 0) with false in RS2.
        rewrite ?RS0, ?RS1, ?RS2, ?CB0, ?CB1, ?CB2, ?N1, ?Z2. simpl.
        rewrite ?resetsAfterClicks_app, ?RS1. simpl. rewrite ?RS2.
        repeat split; auto; try lia; try congruence. }
    wp_use afterCycle_wp; [simpl; lia|].
    intros r st3 ev3 (-> & C3 & T3 & CB3 & I3 & RS3).
    wp_steps. unfold loopBodyPost. simpl.
    rewrite OD, SB, !app_nil_r.
    rewrite (observerDiscipline_app [] ev2 ev3), (subscriptions_app [] ev2 ev3),
      (SB2 eq_refl), OD2.
    rewrite (subscriptions_inner [] ev3 I3), (observerDiscipline_inner [] ev3)
      by (simpl; auto).
    rewrite !nclicks_app, !counterBounded_app, CB0, CB1, CB2, CB3, N1.
    rewrite resetsAfterClicks_app, RS0. cbv iota.
    rewrite resetsAfterClicks_app, RS1. simpl.
    rewrite resetsAfterClicks_app, RS2. cbv iota.
    rewrite RS3.
    2:{ intros E. apply P2. apply Nat.ltb_lt. exact E. }
    simpl. repeat split; auto; try lia.
    left. exists false. split; auto. discriminate. }
  destruct (negb (canStillScroll H isWin el (page st))).
  - wp_use bottomCheck_wp; [exact C|].
    intros r st1 ev1 (b & -> & C1 & B1 & T1 & CB1 & RS1 & I1).
    destruct b.
    + wp_steps. symmetry in B1. apply Nat.leb_le in B1.
      unfold loopBodyPost. simpl. rewrite !app_nil_r.
      rewrite CB1, RS1, observerDiscipline_inner, subscriptions_inner by (simpl; auto).
      repeat split; auto. left. exists true. auto.
    + symmetry in B1. apply Nat.leb_gt in B1.
      cbv beta iota.
      eapply wp_mono;
        [apply (Rest st1 ev1); [exact B1|exact T1|exact CB1|exact RS1|exact I1]|].
      cbv beta. intros r st' evs P. simpl. exact P.
  - wp_step.
    eapply wp_mono; [apply (Rest st []); simpl; auto|]. cbv beta.
    intros r st' evs P. simpl. exact P.
Qed.

Lemma mainLoop_wp fuel inner : forall st,
  scrollsWithoutNewHearts st <= maxScrollsWithoutNewHearts ->
  wp (mainLoop H fuel inner) (mainLoopPost st) st.
Proof.
  induction fuel as [|fuel IH]; intros st C; simpl; wp_steps.
  - destruct (scrollsWithoutNewHearts st <? maxScrollsWithoutNewHearts) eqn:L; wp_steps.
    + unfold mainLoopPost. simpl. repeat split; auto.
    + apply Nat.ltb_ge in L. unfold mainLoopPost. simpl.
      repeat split; auto. left. repeat split; auto. lia.
  - destruct (scrollsWithoutNewHearts st <? maxScrollsWithoutNewHearts) eqn:L; wp_steps.
    2:{ apply Nat.ltb_ge in L. unfold mainLoopPost. simpl.
        repeat split; auto. left. repeat split; auto. lia. }
    apply Nat.ltb_lt in L.
    wp_use loopBody_wp; [exact L|].
    intros r st1 ev1 (O1 & C1 & T1 & CB1 & RS1 & OD1 & SB1).
    destruct O1 as [(b & -> & B1) | ->].
    2:{ unfold mainLoopPost. simpl. repeat split; auto. }
    specialize (SB1 ltac:(discriminate)).
    destruct b.
    + wp_step. unfold mainLoopPost. simpl. rewrite !app_nil_r.
      specialize (B1 eq_refl).
      repeat split; auto. left. repeat split; auto. lia.
    + eapply wp_mono; [apply (IH st1 C1)|]. cbv beta.
      intros r st2 ev2 (O2 & C2 & T2 & CB2 & RS2 & OD2).
      unfold mainLoopPost. simpl.
      rewrite nclicks_app, counterBounded_app, resetsAfterClicks_app,
        observerDiscipline_app, subscriptions_app, SB1, OD1, OD2, CB1, CB2, RS1, RS2.
      destruct O2 as [(-> & E2 & S2) | ->]; repeat split; auto; try lia.
Qed.

Lemma clickAllHearts_wp fuel w :
  wp (clickAllHeartsFrom H fuel) runPost (initial H w).
Proof.
  unfold clickAllHeartsFrom. wp_steps. wp_use pass_wp.
  intros r st1 ev1 (n & -> & (K1 & K2 & K3) & T1 & N1 & Q1).
  pose proof (quiet_inner _ Q1) as I1.
  pose proof (counterBounded_quiet _ Q1) as CB1.
  pose proof (resetsAfterClicks_quiet false _ Q1) as RS1. simpl in RS1.
  simpl in K1, T1.
  assert (P0 : (0 <? nclicks ev1) = (0 <? n)) by (rewrite N1; reflexivity).
  destruct (0 <? n) eqn:Pos; cbv iota; [do 4 wp_step | do 2 wp_step].
  all: wp_use mainLoop_wp; [simpl; unfold maxScrollsWithoutNewHearts; lia|].
  all: intros r st2 ev2 (O2 & C2 & T2 & CB2 & RS2 & OD2).
  all: simpl in T2.
  all: destruct O2 as [(-> & E2 & S2) | ->].
  all: try (wp_steps;
            match goal with
            | |- wp (if ?c then _ else _) _ _ => destruct c; cbv iota
            end; wp_steps).
  all: unfold runPost; simpl.
  all: rewrite ?nclicks_app; simpl; rewrite ?nclicks_app; simpl.
  all: rewrite ?counterBounded_app; simpl; rewrite ?counterBounded_app, ?CB1, ?CB2; simpl.
  all: rewrite resetsAfterClicks_app, RS1, P0; simpl.
  all: rewrite ?resetsAfterClicks_app, RS2; simpl.
  all: rewrite observerDiscipline_app, (subscriptions_inner [] ev1 I1),
         (observerDiscipline_inner [] ev1) by (simpl; auto); simpl.
  all: rewrite ?observerDiscipline_app, ?OD2; simpl.
  all: rewrite subscriptions_app, (subscriptions_inner [] ev1 I1); simpl.
  all: rewrite ?subscriptions_app, ?S2; simpl.
  all: rewrite ?T2, ?T1, ?Nat.add_0_r.
  all: repeat split; auto; try lia.
  all: left; repeat split; auto.
  all: unfold endsDisconnected.
  all: repeat (rewrite ?app_comm_cons;
               match goal with
               | |- context [rev (?a ++ ?b)] => rewrite (rev_app_distr a b)
               end); reflexivity.
Qed.

(** *** What one scan does, heart by heart *)

Lemma forHearts_cons h tl passed st :
  forHearts H (h :: tl) passed st =
  if offsetParent_null H h (page st) || classList_contains_filled H h (page st)
  then forHearts H tl passed st
  else
    match click H h (page st) with
    | (None, w) =>
        match forHearts H tl (S passed)
                (set_page (sleep H delayBetweenClicks w)
                   (set_total (S (totalHeartsClicked st)) (set_page w st))) with
        | (r, st', evs) =>
            (r, st', Click h :: LogNode "Clicked heart:" h :: Pause delayBetweenClicks :: evs)
        end
    | (Some e, w) =>
        match forHearts H tl passed (set_page w st) with
        | (r, st', evs) =>
            (r, st', ClickThrew h e :: ErrorNode "Error clicking heart:" h e :: evs)
        end
    end.
Proof.
  simpl. unfold bind at 1. unfold read at 1. unfold bind at 1. unfold read at 1.
  destruct (offsetParent_null H h (page st) || classList_contains_filled H h (page st)).
  - destruct (forHearts H tl passed st) as [[r st'] evs]. reflexivity.
  - unfold bind at 1. unfold try_catch, clickHeart. unfold_ops.
    destruct (click H h (page st)) as [[e|] w]; simpl.
    + destruct (forHearts H tl passed (set_page w st)) as [[r st'] evs]. reflexivity.
    + match goal with |- context [forHearts H tl ?p ?s] =>
        destruct (forHearts H tl p s) as [[r st'] evs] end.
      reflexivity.
Qed.

Lemma processVisibleHearts_eq st :
  processVisibleHearts H st =
  let unfilledHearts := querySelectorAll_hearts H (page st) in
  let found := Log "processVisibleHearts: Found ${unfilledHearts.length} unfilled hearts."
                   [Z.of_nat (List.length unfilledHearts)] in
  if List.length unfilledHearts =? 0 then (Ret 0, st, [found])
  else
    match forHearts H unfilledHearts 0 st with
    | (r, st', evs) => (r, st', found :: evs)
    end.
Proof.
  unfold processVisibleHearts. unfold_ops. cbv zeta.
  destruct (List.length (querySelectorAll_hearts H (page st)) =? 0).
  - reflexivity.
  - destruct (forHearts H (querySelectorAll_hearts H (page st)) 0 st) as [[r st'] evs].
    reflexivity.
Qed.

Lemma forHearts_nil passed st : forHearts H [] passed st = (Ret passed, st, []).
Proof. reflexivity. Qed.

Lemma forHearts_blocks l : forall passed st,
  passBlocks (snd (forHearts H l passed st)) = true.
Proof.
  induction l as [|h tl IH]; intros passed st.
  - reflexivity.
  - rewrite forHearts_cons.
    destruct (offsetParent_null H h (page st) || classList_contains_filled H h (page st)).
    + apply IH.
    + destruct (click H h (page st)) as [[e|] w].
      * specialize (IH passed (set_page w st)).
        destruct (forHearts H tl passed (set_page w st)) as [[r st'] evs].
        simpl in *. rewrite Nat.eqb_refl, String.eqb_refl, IH. reflexivity.
      * match goal with |- context [forHearts H tl ?p ?s] =>
          specialize (IH p s); destruct (forHearts H tl p s) as [[r st'] evs] end.
        simpl in *. rewrite Nat.eqb_refl, IH. reflexivity.
Qed.

Lemma passBlocks_errorsLogged_bounded k : forall evs,
  List.length evs <= k -> passBlocks evs = true -> errorsLogged evs = true.
Proof.
  induction k as [|k IH]; intros evs L B.
  - destruct evs; [reflexivity | simpl in L; lia].
  - destruct evs as [|e1 tl]; auto.
    destruct e1; simpl in B; try discriminate.
    + destruct tl as [|e2 tl]; try discriminate.
      destruct e2; try discriminate.
      destruct tl as [|e3 tl]; try discriminate.
      destruct e3; try discriminate.
      apply andb_true_iff in B as [_ B]. simpl.
      apply IH; auto. simpl in L. lia.
    + destruct tl as [|e2 tl]; try discriminate.
      destruct e2; try discriminate.
      apply andb_true_iff in B as [B1 B]. simpl. rewrite B1. simpl.
      apply IH; auto. simpl in L. lia.
Qed.

Lemma passBlocks_errorsLogged evs : passBlocks evs = true -> errorsLogged evs = true.
Proof. apply (passBlocks_errorsLogged_bounded (List.length evs)). lia. Qed.

Lemma passBlocks_clicks_paused_bounded k : forall evs,
  List.length evs <= k -> passBlocks evs = true ->
  forall pre n post, evs = pre ++ Click n :: post ->
    exists t post', post = LogNode t n :: Pause delayBetweenClicks :: post'.
Proof.
  induction k as [|k IH]; intros evs L B pre n post E.
  - destruct evs; [destruct pre; discriminate | simpl in L; lia].
  - destruct evs as [|e1 tl]; [destruct pre; discriminate|].
    destruct e1; simpl in B; try discriminate.
    + destruct tl as [|e2 tl]; try discriminate.
      destruct e2; try discriminate.
      destruct tl as [|e3 tl]; try discriminate.
      destruct e3; try discriminate.
      apply andb_true_iff in B as [B1 B]. apply andb_true_iff in B1 as [B1 B2].
      apply Nat.eqb_eq in B1. apply Z.eqb_eq in B2. subst.
      destruct pre as [|p1 pre]; simpl in E.
      * injection E as -> <-. eauto.
      * injection E as <- E.
        destruct pre as [|p2 pre]; simpl in E; [discriminate|]. injection E as <- E.
        destruct pre as [|p3 pre]; simpl in E; [discriminate|]. injection E as <- E.
        apply (IH tl) with (pre := pre); auto. simpl in L. lia.
    + destruct tl as [|e2 tl]; try discriminate.
      destruct e2; try discriminate.
      apply andb_true_iff in B as [B1 B].
      destruct pre as [|p1 pre]; simpl in E; [discriminate|]. injection E as <- E.
      destruct pre as [|p2 pre]; simpl in E; [discriminate|]. injection E as <- E.
      apply (IH tl) with (pre := pre); auto. simpl in L. lia.
Qed.

Lemma passBlocks_clicks_paused evs :
  passBlocks evs = true ->
  forall pre n post, evs = pre ++ Click n :: post ->
    exists t post', post = LogNode t n :: Pause delayBetweenClicks :: post'.
Proof. apply (passBlocks_clicks_paused_bounded (List.length evs)). lia. Qed.

Lemma actionable_same (w w' : world H) h : sameFlags h w w' -> actionable w' h = actionable w h.
Proof. intros [A B]. unfold actionable. rewrite A, B. reflexivity. Qed.

Lemma forHearts_all_throw l :
  (forall h w, fst (click H h w) <> None) ->
  forall passed st, nclicks (snd (forHearts H l passed st)) = 0.
Proof.
  intros T. induction l as [|h tl IH]; intros passed st.
  - reflexivity.
  - rewrite forHearts_cons.
    destruct (offsetParent_null H h (page st) || classList_contains_filled H h (page st)).
    + apply IH.
    + pose proof (T h (page st)) as Th.
      destruct (click H h (page st)) as [[e|] w]; simpl in Th; [|congruence].
      specialize (IH passed (set_page w st)).
      destruct (forHearts H tl passed (set_page w st)) as [[r st'] evs].
      simpl in *. exact IH.
Qed.

Lemma forHearts_all_visible l :
  (forall h w, offsetParent_null H h w = false
               /\ classList_contains_filled H h w = false) ->
  forall passed st, attemptedNodes (snd (forHearts H l passed st)) = l.
Proof.
  intros V. induction l as [|h tl IH]; intros passed st.
  - reflexivity.
  - rewrite forHearts_cons. destruct (V h (page st)) as [-> ->]. simpl.
    destruct (click H h (page st)) as [[e|] w].
    + specialize (IH passed (set_page w st)).
      destruct (forHearts H tl passed (set_page w st)) as [[r st'] evs].
      simpl in *. rewrite IH. reflexivity.
    + match goal with |- context [forHearts H tl ?p ?s] =>
        specialize (IH p s); destruct (forHearts H tl p s) as [[r st'] evs] end.
      simpl in *. rewrite IH. reflexivity.
Qed.

Lemma forHearts_attempted_incl l : forall passed st,
  incl (attemptedNodes (snd (forHearts H l passed st))) l.
Proof.
  induction l as [|h tl IH]; intros passed st.
  - simpl. apply incl_refl.
  - rewrite forHearts_cons.
    destruct (offsetParent_null H h (page st) || classList_contains_filled H h (page st)).
    + apply incl_tl, IH.
    + destruct (click H h (page st)) as [[e|] w].
      * specialize (IH passed (set_page w st)).
        destruct (forHearts H tl passed (set_page w st)) as [[r st'] evs].
        simpl in *. apply incl_cons; [left; reflexivity | apply incl_tl, IH].
      * match goal with |- context [forHearts H tl ?p ?s] =>
          specialize (IH p s); destruct (forHearts H tl p s) as [[r st'] evs] end.
        simpl in *. apply incl_cons; [left; reflexivity | apply incl_tl, IH].
Qed.

End Generic.

(** ** Facts about the simulated pages *)

Lemma hid_fillHeart n x : hid (fillHeart n x) = hid x.
Proof. unfold fillHeart. destruct (hid x =? n); reflexivity. Qed.

Lemma find_fillHeart n n' d :
  find (fun x => hid x =? n') (map (fillHeart n) d)
  = option_map (fillHeart n) (find (fun x => hid x =? n') d).
Proof.
  induction d as [|x d IH]; simpl; auto.
  rewrite hid_fillHeart. destruct (hid x =? n'); auto.
Qed.

Lemma simHost_leavesFreshAlone : leavesFreshAlone simHost (fun _ _ => True).
Proof.
  split.
  - intros h h' w Ne _. split; [exact I|].
    unfold sameFlags. simpl. unfold simClick.
    destruct (simLookup h w) as [x|] eqn:L; [|split; reflexivity].
    destruct (hbehaviour x); try (split; reflexivity).
    simpl. unfold simLookup. simpl. rewrite find_fillHeart.
    destruct (find (fun x0 => hid x0 =? h') (dom w)) as [y|] eqn:F;
      [|split; reflexivity].
    simpl. apply find_some in F as [_ F]. apply Nat.eqb_eq in F.
    unfold fillHeart. destruct (hid y =? h) eqn:E.
    + apply Nat.eqb_eq in E. congruence.
    + split; reflexivity.
  - intros ms h' w _. split; [exact I | split; reflexivity].
Qed.

Lemma keepsSticky_kept : keptByScan simHost keepsSticky.
Proof.
  unfold keepsSticky. split.
  - intros n w I. cbn [click simHost]. unfold simClick.
    destruct (Nat.eq_dec n 7) as [->|Ne].
    + rewrite I. exact I.
    + destruct (simLookup n w) as [x|]; [|exact I].
      destruct (hbehaviour x); try exact I.
      cbn [snd]. unfold simLookup in *. cbn [dom withDom].
      rewrite find_fillHeart, I. cbn [option_map]. unfold fillHeart.
      cbn [hid heart]. apply Nat.eqb_neq in Ne. rewrite Nat.eqb_sym, Ne. reflexivity.
  - intros ms w I. exact I.
Qed.

Lemma keepsSticky_unfilled : staysUnfilled simHost keepsSticky 7.
Proof.
  unfold keepsSticky. intros w I. cbn [querySelectorAll_hearts offsetParent_null
                                       classList_contains_filled simHost].
  rewrite I. split; [|split; reflexivity].
  unfold simLookup in I. apply find_some in I as [In_x _].
  change 7 with (hid (heart Sticky 7)). apply in_map.
  apply filter_In. split; [exact In_x | reflexivity].
Qed.

Lemma asyncFill_leavesFreshAlone : leavesFreshAlone asyncFill asyncFresh.
Proof.
  unfold asyncFresh. split.
  - intros h h' [pending filled] Ne [P F]. simpl in P, F. split.
    + split; [|exact F]. simpl.
      destruct (h' =? h) eqn:E; [apply Nat.eqb_eq in E; congruence | exact P].
    + split; reflexivity.
  - intros ms h' [pending filled] [P F]. simpl in P, F.
    assert (E : existsb (Nat.eqb h') (pending ++ filled) = false).
    { rewrite existsb_app. apply orb_false_iff. split; assumption. }
    split.
    + split; [reflexivity | exact E].
    + split; [reflexivity|]. simpl. rewrite E, F. reflexivity.
Qed.

(** ** Properties of a run and of a scan *)

(** X13.  Throughout every run of [clickAllHearts], finished or cut
    short, every value written to the no-progress counter
    [scrollsWithoutNewHearts] is at most [maxScrollsWithoutNewHearts], and
    so is its final value.  Only the main routine writes the counter
    (lines 121, 143, 146, 220, 226, 229): an increment follows a test that
    the counter is below the threshold. *)
Theorem counter_never_exceeds_threshold (H : Host) (fuel : nat) (w : world H) :
  counterBounded (traceOf (clickAllHearts H fuel w)) = true
  /\ scrollsWithoutNewHearts (stateOf (clickAllHearts H fuel w))
     <= maxScrollsWithoutNewHearts.
Proof.
  destruct (clickAllHearts_wp H fuel w) as (_ & C & _ & CB & _).
  unfold clickAllHearts, traceOf, stateOf. auto.
Qed.

(** C8.  At every point of a run at most one observer subscription is
    outstanding and none is when an iteration of the main loop begins;
    when [clickAllHearts] returns no subscription is left and its last
    call on the page is [observer.disconnect()]. *)
Theorem observer_never_leaks (H : Host) (fuel : nat) (w : world H) :
  observerDiscipline [] (traceOf (clickAllHearts H fuel w)) = true
  /\ (outcomeOf (clickAllHearts H fuel w) = Diverge
      \/ (subscriptions [] (traceOf (clickAllHearts H fuel w)) = []
          /\ endsDisconnected (traceOf (clickAllHearts H fuel w)) = true)).
Proof.
  destruct (clickAllHearts_wp H fuel w) as (O & _ & _ & _ & _ & OD).
  unfold clickAllHearts, traceOf, stateOf, outcomeOf. split; [exact OD|].
  destruct O as [(_ & _ & S & E) | E]; auto.
Qed.

Lemma processVisibleHearts_forHearts (H : Host) (st : St H) :
  processVisibleHearts H st =
  (outcomeOf (forHearts H (querySelectorAll_hearts H (page st)) 0 st),
   stateOf (forHearts H (querySelectorAll_hearts H (page st)) 0 st),
   Log "processVisibleHearts: Found ${unfilledHearts.length} unfilled hearts."
       [Z.of_nat (List.length (querySelectorAll_hearts H (page st)))]
     :: traceOf (forHearts H (querySelectorAll_hearts H (page st)) 0 st)).
Proof.
  rewrite processVisibleHearts_eq. cbv zeta.
  destruct (querySelectorAll_hearts H (page st)) as [|h tl] eqn:Q.
  - reflexivity.
  - simpl List.length. simpl Nat.eqb. cbv iota.
    destruct (forHearts H (h :: tl) 0 st) as [[r st'] evs]. reflexivity.
Qed.

(** C5.  [processVisibleHearts] never propagates an exception: on every
    page it returns a count, the number of clicks that returned.  Every
    click that throws is followed by the [console.error] line for that
    heart and the scan goes on with the next heart: on a page whose hearts
    are all visible and unfilled, [click()] is invoked on every matched
    heart whichever clicks throw.  If every click throws, the count is zero
    and [totalHeartsClicked] is unchanged. *)
Theorem scan_never_throws (H : Host) (st : St H) :
  (exists n, outcomeOf (processVisibleHearts H st) = Ret n
             /\ n = nclicks (traceOf (processVisibleHearts H st)))
  /\ errorsLogged (traceOf (processVisibleHearts H st)) = true
  /\ ((forall h w, offsetParent_null H h w = false
                   /\ classList_contains_filled H h w = false) ->
      attemptedNodes (traceOf (processVisibleHearts H st))
      = querySelectorAll_hearts H (page st))
  /\ ((forall h w, fst (click H h w) <> None) ->
      outcomeOf (processVisibleHearts H st) = Ret 0
      /\ totalHeartsClicked (stateOf (processVisibleHearts H st))
         = totalHeartsClicked st).
Proof.
  destruct (processVisibleHearts_spec H st) as (n & st' & evs & E & K & T & N & Q).
  split; [|split; [|split]].
  - exists n. rewrite E. simpl. auto.
  - rewrite processVisibleHearts_forHearts. unfold traceOf at 1. simpl.
    apply passBlocks_errorsLogged. apply forHearts_blocks.
  - intros V. rewrite processVisibleHearts_forHearts. unfold traceOf at 1. simpl.
    apply forHearts_all_visible. exact V.
  - intros A.
    assert (Z0 : nclicks evs = 0).
    { pose proof (forHearts_all_throw H (querySelectorAll_hearts H (page st)) A 0 st)
        as F.
      rewrite processVisibleHearts_forHearts in E. injection E as _ _ <-.
      simpl. exact F. }
    rewrite E. unfold outcomeOf, stateOf. simpl. rewrite T, N, Z0. split; auto.
Qed.

(** A scan of three hearts whose clicks all throw: each is attempted, each
    failure is logged, the count is zero. *)
Lemma scan_never_throws_witness :
  attemptedNodes (traceOf (processVisibleHearts unclickable (initial unclickable tt)))
  = [7; 8; 9]
  /\ outcomeOf (processVisibleHearts unclickable (initial unclickable tt)) = Ret 0.
Proof.
  destruct (scan_never_throws unclickable (initial unclickable tt)) as (_ & _ & V & T).
  split.
  - apply V. intros h w. split; reflexivity.
  - apply T. intros h w. simpl. discriminate.
Defined.

(** C6.  On a page with no element matching the unfilled-heart selector,
    [processVisibleHearts] returns zero, leaves the page and every closure
    variable as they are, and does nothing but print its one console line;
    running it again gives the same. *)
Theorem scan_of_nothing_is_idempotent (H : Host) (st : St H) :
  querySelectorAll_hearts H (page st) = [] ->
  processVisibleHearts H st
  = (Ret 0, st,
     [Log "processVisibleHearts: Found ${unfilledHearts.length} unfilled hearts." [0%Z]])
  /\ processVisibleHearts H (stateOf (processVisibleHearts H st))
     = processVisibleHearts H st.
Proof.
  intros Q.
  assert (E : processVisibleHearts H st
              = (Ret 0, st,
                 [Log "processVisibleHearts: Found ${unfilledHearts.length} unfilled hearts."
                      [0%Z]])).
  { rewrite processVisibleHearts_eq, Q. reflexivity. }
  split; [exact E|]. rewrite E. unfold stateOf. simpl. exact E.
Qed.

(** A document whose only heart is already filled. *)
Lemma scan_of_nothing_witness :
  processVisibleHearts simHost (initial simHost (onePage [filledHeart 3] false 100))
  = (Ret 0, initial simHost (onePage [filledHeart 3] false 100),
     [Log "processVisibleHearts: Found ${unfilledHearts.length} unfilled hearts." [0%Z]]).
Proof.
  apply (scan_of_nothing_is_idempotent simHost
           (initial simHost (onePage [filledHeart 3] false 100))).
  reflexivity.
Defined.


(** *** Hearts that change only once they are clicked *)

Section Fresh.

Variable H : Host.
Variable fresh : world H -> node -> Prop.
Hypothesis LF : leavesFreshAlone H fresh.

Lemma forHearts_fresh (w0 : world H) l :
  NoDup l ->
  forall passed (st : St H),
    (forall h, In h l -> fresh (page st) h /\ sameFlags h w0 (page st)) ->
    attemptedNodes (snd (forHearts H l passed st)) = filter (actionable w0) l.
Proof.
  destruct LF as [IC IS]. induction l as [|h tl IH]; intros ND passed st F.
  - reflexivity.
  - inversion ND as [|? ? Nin ND']; subst.
    rewrite forHearts_cons. simpl filter.
    rewrite <- (actionable_same H w0 (page st) h) by (apply F; left; reflexivity).
    unfold actionable at 1.
    destruct (offsetParent_null H h (page st) || classList_contains_filled H h (page st)).
    + simpl. apply IH; auto. intros h' I. apply F. right. exact I.
    + simpl.
      assert (Fc : forall h', In h' tl ->
                    fresh (snd (click H h (page st))) h'
                    /\ sameFlags h' w0 (snd (click H h (page st)))).
      { intros h' I. assert (h <> h') by (intros ->; contradiction).
        destruct (F h' (or_intror I)) as [Fr [A B]].
        destruct (IC h h' (page st)) as [Fr' [A' B']]; auto.
        split; [exact Fr'|]. split; congruence. }
      destruct (click H h (page st)) as [[e|] w]; simpl in Fc.
      * specialize (IH ND' passed (set_page w st) Fc).
        destruct (forHearts H tl passed (set_page w st)) as [[r st'] evs].
        simpl in *. rewrite IH. reflexivity.
      * match goal with |- context [forHearts H tl ?p ?s] =>
          specialize (IH ND' p s) end.
        simpl in IH.
        match goal with |- context [forHearts H tl ?p ?s] =>
          destruct (forHearts H tl p s) as [[r st'] evs] end.
        simpl in *. rewrite IH; [reflexivity|].
        intros h' I. destruct (Fc h' I) as [Fr [A B]].
        destruct (IS delayBetweenClicks h' w Fr) as [Fr' [A' B']].
        split; [exact Fr'|]. split; congruence.
Qed.

End Fresh.



(** *** Hearts that stay unfilled *)

Section Kept.

Variable H : Host.
Variable Inv : world H -> Prop.
Hypothesis K : keptByScan H Inv.

Lemma forHearts_keeps l : forall passed (st : St H),
  Inv (page st) -> Inv (page (snd (fst (forHearts H l passed st)))).
Proof.
  destruct K as [KC KS].
  induction l as [|n tl IH]; intros passed st I.
  - exact I.
  - rewrite forHearts_cons.
    destruct (offsetParent_null H n (page st) || classList_contains_filled H n (page st)).
    + apply IH. exact I.
    + pose proof (KC n (page st) I) as Ic.
      destruct (click H n (page st)) as [[e|] w]; simpl in Ic.
      * specialize (IH passed (set_page w st) Ic).
        destruct (forHearts H tl passed (set_page w st)) as [[r st'] evs]. exact IH.
      * match goal with |- context [forHearts H tl ?p ?s] =>
          specialize (IH p s (KS _ _ Ic));
          destruct (forHearts H tl p s) as [[r st'] evs] end.
        exact IH.
Qed.

Variable h : node.
Hypothesis U : staysUnfilled H Inv h.

Lemma forHearts_reaches l : forall passed (st : St H),
  Inv (page st) -> In h l ->
  In h (attemptedNodes (snd (forHearts H l passed st)))
  /\ ((forall w, Inv w -> fst (click H h w) = None) ->
      In h (clickedNodes (snd (forHearts H l passed st)))).
Proof.
  destruct K as [KC KS].
  induction l as [|n tl IH]; intros passed st I Il; [destruct Il|].
  rewrite forHearts_cons.
  destruct (Nat.eq_dec n h) as [->|Ne].
  - destruct (U (page st) I) as (_ & V & F). rewrite V, F. simpl.
    destruct (click H h (page st)) as [[e|] w] eqn:E.
    + destruct (forHearts H tl passed (set_page w st)) as [[r st'] evs].
      simpl. split; [left; reflexivity|].
      intros R. specialize (R (page st) I). rewrite E in R. discriminate R.
    + match goal with |- context [forHearts H tl ?p ?s] =>
        destruct (forHearts H tl p s) as [[r st'] evs] end.
      simpl. split; [left; reflexivity | intros _; left; reflexivity].
  - assert (It : In h tl) by (destruct Il; [contradiction | assumption]).
    destruct (offsetParent_null H n (page st) || classList_contains_filled H n (page st)).
    + apply IH; assumption.
    + pose proof (KC n (page st) I) as Ic.
      destruct (click H n (page st)) as [[e|] w]; simpl in Ic.
      * specialize (IH passed (set_page w st) Ic It).
        destruct (forHearts H tl passed (set_page w st)) as [[r st'] evs].
        simpl in *. destruct IH as [A C]. split; [right; exact A | exact C].
      * match goal with |- context [forHearts H tl ?p ?s] =>
          specialize (IH p s (KS _ _ Ic) It);
          destruct (forHearts H tl p s) as [[r st'] evs] end.
        simpl in *. destruct IH as [A C].
        split; [right; exact A | intros R; right; exact (C R)].
Qed.

Lemma scan_reaches (st : St H) :
  Inv (page st) ->
  In h (attemptedNodes (traceOf (processVisibleHearts H st)))
  /\ ((forall w, Inv w -> fst (click H h w) = None) ->
      In h (clickedNodes (traceOf (processVisibleHearts H st))))
  /\ Inv (page (stateOf (processVisibleHearts H st))).
Proof.
  intros I. rewrite processVisibleHearts_forHearts.
  unfold traceOf at 1 2, stateOf at 1. simpl.
  destruct (U (page st) I) as (M & _).
  destruct (forHearts_reaches _ 0 st I M) as [A C].
  split; [exact A|]. split; [exact C|].
  apply forHearts_keeps. exact I.
Qed.

End Kept.

Lemma afterScans_keeps (H : Host) (Inv : world H -> Prop) (h : node) :
  keptByScan H Inv -> staysUnfilled H Inv h ->
  forall k (st : St H),
    Inv (page st) ->
    Inv (page (afterScans H k st))
    /\ ((forall w, Inv w -> fst (click H h w) = None) ->
        totalHeartsClicked st + k <= totalHeartsClicked (afterScans H k st)).
Proof.
  intros K U. induction k as [|k IH]; intros st I; cbn [afterScans].
  - split; [exact I | intros _; lia].
  - destruct (scan_reaches H Inv K h U st I) as (_ & C & I1).
    destruct (IH _ I1) as [I2 T2]. split; [exact I2|].
    intros R. specialize (T2 R). specialize (C R).
    destruct (processVisibleHearts_spec H st) as (n & st1 & ev1 & E & _ & T & _).
    rewrite E in *. unfold stateOf, traceOf in *. cbn [fst snd] in *.
    assert (0 < nclicks ev1).
    { rewrite nclicks_length. destruct (clickedNodes ev1); [destruct C | simpl; lia]. }
    lia.
Qed.

(** C10.  The script keeps no record of the hearts it has clicked: every
    scan queries the document anew.  A heart that the page leaves matched,
    visible and without the filled class whatever is clicked and however
    long the script sleeps ([Inv] is any set of pages closed under clicks
    and pauses on which this holds) has [click()] invoked on it by every
    scan, the first and each one after it; when its clicks return, each of
    them is counted again in [totalHeartsClicked], which grows in every
    scan by the number of calls of [click()] that returned, not by the
    number of distinct hearts: after [k + 1] scans it is at least
    [k + 1] more, whatever else the page holds. *)
Theorem unfilled_hearts_are_clicked_again (H : Host) (st : St H) (h : node)
    (Inv : world H -> Prop) :
  Inv (page st) -> keptByScan H Inv -> staysUnfilled H Inv h ->
  forall k,
    let before := afterScans H k st in
    let scan := processVisibleHearts H before in
    In h (attemptedNodes (traceOf scan))
    /\ totalHeartsClicked (stateOf scan)
       = totalHeartsClicked before + nclicks (traceOf scan)
    /\ ((forall w, Inv w -> fst (click H h w) = None) ->
        In h (clickedNodes (traceOf scan))
        /\ totalHeartsClicked st + k + 1 <= totalHeartsClicked (stateOf scan)).
Proof.
  intros I K U k before scan.
  destruct (afterScans_keeps H Inv h K U k st I) as [Ik Tk]. fold before in Ik, Tk.
  destruct (scan_reaches H Inv K h U before Ik) as (A & C & _). fold scan in A, C.
  destruct (processVisibleHearts_spec H before) as (n & st1 & ev1 & E & _ & T & _).
  fold scan in E.
  split; [exact A|]. split.
  - rewrite E. exact T.
  - intros R. specialize (C R). specialize (Tk R). split; [exact C|].
    rewrite E in *. unfold stateOf, traceOf in *. cbn [fst snd] in *.
    assert (0 < nclicks ev1).
    { rewrite nclicks_length. destruct (clickedNodes ev1); [destruct C | simpl; lia]. }
    lia.
Qed.

(** A sticky heart beside one that fills: the second scan clicks the
    sticky heart again, and it is counted again. *)
Lemma unfilled_hearts_are_clicked_again_witness :
  let first := processVisibleHearts simHost (initial simHost stickyAmongFilling) in
  let second := processVisibleHearts simHost (stateOf first) in
  In 7 (clickedNodes (traceOf second))
  /\ 2 <= totalHeartsClicked (stateOf second).
Proof.
  cbv zeta.
  destruct (unfilled_hearts_are_clicked_again simHost (initial simHost stickyAmongFilling) 7
              keepsSticky eq_refl keepsSticky_kept keepsSticky_unfilled 1)
    as (_ & _ & C).
  apply C. intros w I. cbn [click simHost]. unfold simClick.
  unfold keepsSticky in I. rewrite I. reflexivity.
Defined.

(** ** The aggressive scroll phase, step by step *)

Section ScrollPhase.

Variable H : Host.
Variable isWindowScroll : bool.
Variable scrollElement : node.

Lemma aggressiveLoop_done fuel attempts happened (st : St H) :
  maxAggressiveScrollAttemptsAtBottom <= attempts ->
  aggressiveLoop H fuel isWindowScroll scrollElement attempts happened st
  = (Ret happened, st, []).
Proof.
  intros L. apply Nat.ltb_ge in L.
  destruct fuel; simpl; rewrite L; reflexivity.
Qed.

Lemma aggressiveLoop_step fuel attempts happened (st : St H) :
  attempts < maxAggressiveScrollAttemptsAtBottom ->
  aggressiveLoop H (S fuel) isWindowScroll scrollElement attempts happened st
  = let w := page st in
    let w' := afterAttempt H isWindowScroll scrollElement w in
    let unchanged := unchangedBy H isWindowScroll scrollElement w in
    let events := attemptEvents H isWindowScroll scrollElement attempts w in
    let st' := set_page w' st in
    let attempts' := if unchanged then S attempts else 0 in
    let happened' := if unchanged then happened else true in
    if atEffectiveBottom H isWindowScroll scrollElement w' && unchanged
    then (Ret happened', st', events)
    else
      match aggressiveLoop H fuel isWindowScroll scrollElement attempts' happened' st' with
      | (r, st'', evs) => (r, st'', events ++ evs)
      end.
Proof.
  intros L. apply Nat.ltb_lt in L. simpl. rewrite L.
  unfold getScrollTop, getScrollHeight, getClientHeight, scrollToEnd.
  unfold attemptEvents, unchangedBy, atEffectiveBottom, afterAttempt, positionOf,
    scrollCommand.
  cbv zeta.
  destruct isWindowScroll; unfold_ops; simpl.
  all: match goal with
       | |- context [(?a <=? ?b)%Z] => destruct (a <=? b)%Z eqn:U
       end; simpl.
  all: match goal with
       | |- context [(?a <=? ?b)%Z] => destruct (a <=? b)%Z eqn:B
       end; simpl.
  all: try reflexivity.
  all: repeat match goal with
              | |- context [set_page ?a (set_page ?b ?s)] =>
                  change (set_page a (set_page b s)) with (set_page a s)
              end.
  all: match goal with
       | |- context [aggressiveLoop ?H' ?f ?b ?e ?a ?h ?s] =>
           destruct (aggressiveLoop H' f b e a h s) as [[r st''] evs]
       end; reflexivity.
Qed.

End ScrollPhase.

Lemma traceOf_triple {A S} (r : outcome A) (st : S) evs : traceOf (r, st, evs) = evs.
Proof. reflexivity. Qed.

Lemma outcomeOf_triple {A S} (r : outcome A) (st : S) evs : outcomeOf (r, st, evs) = r.
Proof. reflexivity. Qed.

Lemma stateOf_triple {A S} (r : outcome A) (st : S) evs : stateOf (r, st, evs) = st.
Proof. reflexivity. Qed.

Section ScrollPhaseFacts.

Variable H : Host.
Variable isWin : bool.
Variable el : node.

Lemma scrollCommands_attempt a w : scrollCommands (attemptEvents H isWin el a w) = 1.
Proof.
  unfold attemptEvents, scrollCommand.
  destruct isWin, (unchangedBy H _ el w), (atEffectiveBottom H _ el _); reflexivity.
Qed.

Lemma scrollsPaused_attempt a w tl :
  scrollsPaused (attemptEvents H isWin el a w ++ tl) = scrollsPaused tl.
Proof.
  unfold attemptEvents, scrollCommand.
  destruct isWin, (unchangedBy H _ el w), (atEffectiveBottom H _ el _); reflexivity.
Qed.

Lemma aggressiveLoop_paused fuel : forall attempts happened (st : St H),
  scrollsPaused (traceOf (aggressiveLoop H fuel isWin el attempts happened st)) = true.
Proof.
  induction fuel as [|fuel IH]; intros a h st.
  - simpl. destruct (a <? maxAggressiveScrollAttemptsAtBottom); reflexivity.
  - destruct (Nat.lt_ge_cases a maxAggressiveScrollAttemptsAtBottom) as [L|L].
    + rewrite aggressiveLoop_step by exact L. cbv zeta.
      destruct (atEffectiveBottom H isWin el _ && unchangedBy H isWin el (page st)).
      * rewrite ?traceOf_triple.
        rewrite <- (app_nil_r (attemptEvents _ _ _ _ _)), scrollsPaused_attempt.
        reflexivity.
      * match goal with
        | |- context [aggressiveLoop H fuel isWin el ?a' ?h' ?s] =>
            specialize (IH a' h' s);
            destruct (aggressiveLoop H fuel isWin el a' h' s) as [[r st''] evs]
        end.
        rewrite ?traceOf_triple in *. rewrite scrollsPaused_attempt. exact IH.
    + rewrite aggressiveLoop_done by exact L. reflexivity.
Qed.

End ScrollPhaseFacts.

(** *** The positions a scroll phase goes through *)

Section PositionFacts.

Variable H : Host.
Variable isWin : bool.
Variable el : node.

Let next := afterAttempt H isWin el.
Let adv := advance H isWin el.
Let after := pageAfter H isWin el.

Lemma unchangedBy_advance w :
  unchangedBy H isWin el w = negb (5 <? advance H isWin el w)%Z.
Proof.
  unfold unchangedBy, advance.
  destruct (5 <? _)%Z eqn:E; simpl.
  - apply Z.ltb_lt in E. apply Z.leb_gt. lia.
  - apply Z.ltb_ge in E. apply Z.leb_le. lia.
Qed.

Lemma pageAfter_S n w : after (S n) w = next (after n w).
Proof.
  unfold after, next. revert w. induction n as [|n IH]; intros w; simpl; auto.
  rewrite <- IH. reflexivity.
Qed.

Lemma movesIn_pos n : forall w,
  0 < movesIn H isWin el n w <-> exists i, i < n /\ (5 < adv (after i w))%Z.
Proof.
  unfold adv, after.
  induction n as [|n IH]; intros w; simpl.
  - split; [lia | intros (i & L & _); lia].
  - destruct (5 <? advance H isWin el w)%Z eqn:E.
    + split; [|lia]. intros _. exists 0. split; [lia|]. simpl. apply Z.ltb_lt. exact E.
    + simpl. rewrite IH. split.
      * intros (i & L & M). exists (S i). split; [lia | exact M].
      * intros ([|i] & L & M).
        -- simpl in M. apply Z.ltb_ge in E. lia.
        -- exists i. split; [lia | exact M].
Qed.

Lemma streak_bound n : forall a w, streak H isWin el a n w <= a + n.
Proof.
  induction n as [|n IH]; intros a w; simpl; [lia|].
  destruct (5 <? advance H isWin el w)%Z.
  - specialize (IH 0 (afterAttempt H isWin el w)). lia.
  - specialize (IH (S a) (afterAttempt H isWin el w)). lia.
Qed.

Lemma streak_trailing n : forall a w i,
  n - streak H isWin el a n w <= i < n -> (adv (after i w) <= 5)%Z.
Proof.
  unfold adv, after.
  induction n as [|n IH]; intros a w i L; [lia|].
  cbn [streak] in L.
  set (a' := if (5 <? advance H isWin el w)%Z then 0 else S a) in *.
  pose proof (streak_bound n a' (afterAttempt H isWin el w)) as B.
  destruct i as [|i].
  - simpl. destruct (5 <? advance H isWin el w)%Z eqn:E.
    + unfold a' in *. lia.
    + apply Z.ltb_ge in E. exact E.
  - cbn [pageAfter]. apply (IH a'). lia.
Qed.

Lemma aggressiveLoop_positions fuel : forall attempts happened (st : St H),
  attempts <= maxAggressiveScrollAttemptsAtBottom ->
  let phase := aggressiveLoop H fuel isWin el attempts happened st in
  let n := scrollCommands (traceOf phase) in
  page (stateOf phase) = after n (page st)
  /\ n + attempts
     <= maxAggressiveScrollAttemptsAtBottom * (movesIn H isWin el n (page st) + 1)
  /\ (forall b, outcomeOf phase = Ret b ->
        b = happened || (0 <? movesIn H isWin el n (page st)))
  /\ (forall b, outcomeOf phase = Ret b ->
        attempts < maxAggressiveScrollAttemptsAtBottom ->
        1 <= n
        /\ (adv (after (n - 1) (page st)) <= 5)%Z
        /\ (atEffectiveBottom H isWin el (after n (page st)) = true
            \/ streak H isWin el attempts n (page st)
               = maxAggressiveScrollAttemptsAtBottom)).
Proof.
  unfold adv, after, maxAggressiveScrollAttemptsAtBottom. cbv zeta.
  induction fuel as [|fuel IH]; intros a h st L.
  - cbn [aggressiveLoop]. unfold maxAggressiveScrollAttemptsAtBottom.
    destruct (a <? 3) eqn:A; simpl.
    + repeat split; try reflexivity; try lia; try discriminate.
    + apply Nat.ltb_ge in A. repeat split; try reflexivity; try lia.
      intros b E. inversion E. rewrite orb_false_r. reflexivity.
  - destruct (Nat.lt_ge_cases a 3) as [A|A].
    2:{ rewrite aggressiveLoop_done by (unfold maxAggressiveScrollAttemptsAtBottom; lia).
        rewrite traceOf_triple, outcomeOf_triple, stateOf_triple. simpl.
        repeat split; try lia.
        intros b E. inversion E. rewrite orb_false_r. reflexivity. }
    rewrite aggressiveLoop_step by (unfold maxAggressiveScrollAttemptsAtBottom; lia).
    cbv zeta.
    pose proof (scrollCommands_attempt H isWin el a (page st)) as SC.
    rewrite (unchangedBy_advance (page st)).
    destruct (atEffectiveBottom H isWin el _ && negb (5 <? advance H isWin el (page st))%Z)
      eqn:Brk.
    + rewrite traceOf_triple, outcomeOf_triple, stateOf_triple, SC.
      apply andb_true_iff in Brk as [B U]. apply negb_true_iff in U.
      pose proof U as U'. apply Z.ltb_ge in U'.
      rewrite U. simpl. rewrite U. simpl.
      repeat split; try lia; try (left; exact B).
      intros b E. inversion E. rewrite orb_false_r. reflexivity.
    + set (moved := (5 <? advance H isWin el (page st))%Z) in *.
      set (a' := if negb moved then S a else 0).
      set (h' := if negb moved then h else true).
      set (st' := set_page (afterAttempt H isWin el (page st)) st).
      assert (L' : a' <= 3) by (unfold a'; destruct moved; simpl; lia).
      specialize (IH a' h' st' L').
      destruct (aggressiveLoop H fuel isWin el a' h' st') as [[r st''] evs] eqn:E.
      rewrite ?traceOf_triple, ?outcomeOf_triple, ?stateOf_triple in *.
      destruct IH as (P & C & F & X).
      rewrite scrollCommands_app, SC. simpl Nat.add.
      cbn [pageAfter movesIn streak]. fold moved.
      change (page st') with (afterAttempt H isWin el (page st)) in *.
      assert (Ea : (if moved then 0 else S a) = a') by (unfold a'; destruct moved; reflexivity).
      rewrite Ea.
      split; [exact P|]. split; [|split].
      * unfold a' in C. destruct moved; simpl in *; lia.
      * intros b Eb. rewrite (F b Eb). unfold h'.
        destruct moved; simpl; [rewrite orb_true_r; reflexivity|reflexivity].
      * intros b Eb _. split; [lia|].
        destruct (Nat.lt_ge_cases a' 3) as [A'|A'].
        -- destruct (X b Eb A') as (N1 & U1 & Ex).
           destruct (scrollCommands evs) as [|m]; [lia|].
           replace (S (S m) - 1) with (S m) by lia.
           replace (S m - 1) with m in U1 by lia.
           cbn [pageAfter]. auto.
        -- assert (Z0 : scrollCommands evs = 0).
           { rewrite aggressiveLoop_done in E
               by (unfold maxAggressiveScrollAttemptsAtBottom; lia).
             injection E as <- <- <-. reflexivity. }
           rewrite Z0. cbn [Nat.sub pageAfter streak].
           unfold a' in A' |- *. destruct moved eqn:M; simpl in A'; [lia|].
           split; [apply Z.ltb_ge; exact M|]. right. simpl. lia.
Qed.

End PositionFacts.

(** *** Pages whose position never goes back and never passes [B] *)

Section Bounded.

Variable H : Host.
Variable isWin : bool.
Variable el : node.
Variable Inv : world H -> Prop.
Variable B : Z.

Let next := afterAttempt H isWin el.
Let position := positionOf H isWin el.

Hypothesis HI : forall w, Inv w ->
  Inv (next w) /\ (position w <= position (next w))%Z /\ (position w <= B)%Z.

Lemma movesIn_room n : forall w,
  Inv w -> (5 * Z.of_nat (movesIn H isWin el n w) <= B - position w)%Z.
Proof.
  induction n as [|n IH]; intros w I.
  - destruct (HI w I) as (_ & _ & Bd). cbn [movesIn]. lia.
  - destruct (HI w I) as (I' & Mono & Bd). specialize (IH (next w) I').
    cbn [movesIn]. fold next. unfold advance. fold next position.
    destruct (5 <? position (next w) - position w)%Z eqn:E.
    + apply Z.ltb_lt in E. lia.
    + lia.
Qed.

Lemma movesIn_le_room n w : Inv w -> movesIn H isWin el n w <= room H isWin el B w.
Proof.
  intros I. pose proof (movesIn_room n w I) as M. unfold room. fold position.
  apply Nat2Z.inj_le. rewrite Z2Nat.id.
  - apply Z.div_le_lower_bound; lia.
  - destruct (HI w I) as (_ & _ & Bd). apply Z.div_pos; lia.
Qed.

Lemma aggressiveLoop_terminates :
  forall fuel attempts happened (st : St H),
    Inv (page st) ->
    attempts <= maxAggressiveScrollAttemptsAtBottom ->
    maxAggressiveScrollAttemptsAtBottom * room H isWin el B (page st)
      + (maxAggressiveScrollAttemptsAtBottom - attempts) <= fuel ->
    exists b, outcomeOf (aggressiveLoop H fuel isWin el attempts happened st) = Ret b.
Proof.
  unfold maxAggressiveScrollAttemptsAtBottom.
  induction fuel as [|fuel IH]; intros a h st I L F.
  - assert (a = 3) by lia. subst a.
    rewrite aggressiveLoop_done by (unfold maxAggressiveScrollAttemptsAtBottom; lia).
    rewrite outcomeOf_triple. eauto.
  - destruct (Nat.eq_dec a 3) as [->|Ne].
    { rewrite aggressiveLoop_done by (unfold maxAggressiveScrollAttemptsAtBottom; lia).
      rewrite outcomeOf_triple. eauto. }
    rewrite aggressiveLoop_step by (unfold maxAggressiveScrollAttemptsAtBottom; lia).
    cbv zeta.
    destruct (HI (page st) I) as (I' & Mono & Bd).
    destruct (HI (next (page st)) I') as (_ & _ & Bd').
    fold next.
    assert (R1 : room H isWin el B (next (page st)) <= room H isWin el B (page st)).
    { unfold room. fold position. apply Z2Nat.inj_le.
      - apply Z.div_pos; lia.
      - apply Z.div_pos; lia.
      - apply Z.div_le_mono; lia. }
    destruct (atEffectiveBottom H isWin el _ && unchangedBy H isWin el (page st)) eqn:Brk.
    + rewrite outcomeOf_triple. eauto.
    + destruct (unchangedBy H isWin el (page st)) eqn:U.
      * specialize (IH (S a) h (set_page (next (page st)) st) I' ltac:(lia)).
        simpl page in IH. specialize (IH ltac:(lia)).
        destruct (aggressiveLoop H fuel isWin el (S a) h (set_page (next (page st)) st))
          as [[r st''] evs].
        rewrite ?outcomeOf_triple in *. exact IH.
      * assert (R2 : room H isWin el B (next (page st)) + 1
                     <= room H isWin el B (page st)).
        { unfold unchangedBy in U. fold position next in U. apply Z.leb_gt in U.
          unfold room. fold position.
          replace 1 with (Z.to_nat 1) by reflexivity.
          rewrite <- Z2Nat.inj_add by (try apply Z.div_pos; lia).
          apply Z2Nat.inj_le; try (try apply Z.add_nonneg_nonneg;
                                   try apply Z.div_pos; lia).
          rewrite <- Z.div_add by lia.
          apply Z.div_le_mono; lia. }
        specialize (IH 0 true (set_page (next (page st)) st) I' ltac:(lia)).
        simpl page in IH. specialize (IH ltac:(lia)).
        destruct (aggressiveLoop H fuel isWin el 0 true (set_page (next (page st)) st))
          as [[r st''] evs].
        rewrite ?outcomeOf_triple in *. exact IH.
Qed.

End Bounded.

(** ** The scroll phase on pages that keep scrolling *)

Lemma treadmill_step_moves (remaining moved : nat) :
  unchangedBy treadmill true 0 (S remaining, moved) = false
  /\ afterAttempt treadmill true 0 (S remaining, moved) = (remaining, S moved).
Proof.
  unfold unchangedBy, afterAttempt, positionOf.
  cbn -[Z.of_nat Z.mul Z.add Z.leb].
  split; [|reflexivity]. apply Z.leb_gt. lia.
Qed.

Lemma treadmill_step_stuck (moved : nat) :
  unchangedBy treadmill true 0 (0, moved) = true
  /\ afterAttempt treadmill true 0 (0, moved) = (0, moved).
Proof.
  unfold unchangedBy, afterAttempt, positionOf.
  cbn -[Z.of_nat Z.mul Z.add Z.leb].
  split; [|reflexivity]. apply Z.leb_le. lia.
Qed.

Lemma treadmill_never_bottom (w : nat * nat) :
  atEffectiveBottom treadmill true 0 w = false.
Proof.
  unfold atEffectiveBottom, positionOf.
  cbn -[Z.of_nat Z.mul Z.add Z.sub Z.leb].
  apply Z.leb_gt. lia.
Qed.

Lemma treadmill_stuck fuel : forall attempts happened (st : St treadmill),
  fst (page st) = 0 ->
  attempts <= maxAggressiveScrollAttemptsAtBottom ->
  maxAggressiveScrollAttemptsAtBottom - attempts <= fuel ->
  outcomeOf (aggressiveLoop treadmill fuel true 0 attempts happened st) = Ret happened
  /\ scrollCommands (traceOf (aggressiveLoop treadmill fuel true 0 attempts happened st))
     = maxAggressiveScrollAttemptsAtBottom - attempts.
Proof.
  unfold maxAggressiveScrollAttemptsAtBottom.
  induction fuel as [|fuel IH]; intros a h st Z0 L F.
  - assert (a = 3) by lia. subst a.
    rewrite aggressiveLoop_done by (unfold maxAggressiveScrollAttemptsAtBottom; lia).
    split; reflexivity.
  - destruct (Nat.eq_dec a 3) as [->|Ne].
    { rewrite aggressiveLoop_done by (unfold maxAggressiveScrollAttemptsAtBottom; lia).
      split; reflexivity. }
    rewrite aggressiveLoop_step by (unfold maxAggressiveScrollAttemptsAtBottom; lia).
    cbv zeta.
    pose proof (scrollCommands_attempt treadmill true 0 a (page st)) as SC.
    destruct (page st) as [remaining moved] eqn:P. simpl in Z0. subst remaining.
    destruct (treadmill_step_stuck moved) as [U N]. rewrite U, N.
    rewrite treadmill_never_bottom. cbv iota. simpl andb. cbv iota.
    specialize (IH (S a) h (@set_page treadmill (0, moved) st) eq_refl ltac:(lia) ltac:(lia)).
    destruct (aggressiveLoop treadmill fuel true 0 (S a) h (@set_page treadmill (0, moved) st))
      as [[r st''] evs].
    rewrite ?traceOf_triple, ?outcomeOf_triple in *.
    rewrite scrollCommands_app, SC. destruct IH as [-> ->]. split; [reflexivity|lia].
Qed.

Lemma treadmill_commands remaining : forall fuel happened (st : St treadmill),
  fst (page st) = remaining ->
  remaining + maxAggressiveScrollAttemptsAtBottom <= fuel ->
  (exists b, outcomeOf (aggressiveLoop treadmill fuel true 0 0 happened st) = Ret b)
  /\ scrollCommands (traceOf (aggressiveLoop treadmill fuel true 0 0 happened st))
     = remaining + maxAggressiveScrollAttemptsAtBottom.
Proof.
  unfold maxAggressiveScrollAttemptsAtBottom.
  induction remaining as [|remaining IH]; intros fuel h st P F.
  - destruct (treadmill_stuck fuel 0 h st P) as [O C];
      try (unfold maxAggressiveScrollAttemptsAtBottom; lia).
    rewrite O, C. split; [eauto | reflexivity].
  - destruct fuel as [|fuel]; [lia|].
    rewrite aggressiveLoop_step by (unfold maxAggressiveScrollAttemptsAtBottom; lia).
    cbv zeta.
    pose proof (scrollCommands_attempt treadmill true 0 0 (page st)) as SC.
    destruct (page st) as [r0 moved] eqn:Pg. simpl in P. subst r0.
    destruct (treadmill_step_moves remaining moved) as [U N]. rewrite U, N.
    rewrite treadmill_never_bottom. simpl andb. cbv iota.
    specialize (IH fuel true (@set_page treadmill (remaining, S moved) st) eq_refl ltac:(lia)).
    destruct (aggressiveLoop treadmill fuel true 0 0 true
                (@set_page treadmill (remaining, S moved) st)) as [[r st''] evs].
    rewrite ?traceOf_triple, ?outcomeOf_triple in *.
    rewrite scrollCommands_app, SC. destruct IH as [O ->]. split; [exact O|lia].
Qed.

Lemma endless_never_exits fuel : forall attempts happened (st : St endless),
  attempts < maxAggressiveScrollAttemptsAtBottom ->
  outcomeOf (aggressiveLoop endless fuel true 0 attempts happened st) = Diverge
  /\ scrollCommands (traceOf (aggressiveLoop endless fuel true 0 attempts happened st))
     = fuel.
Proof.
  induction fuel as [|fuel IH]; intros a h st L.
  - simpl. apply Nat.ltb_lt in L. rewrite L. split; reflexivity.
  - rewrite aggressiveLoop_step by exact L. cbv zeta.
    pose proof (scrollCommands_attempt endless true 0 a (page st)) as SC.
    assert (U : unchangedBy endless true 0 (page st) = false).
    { unfold unchangedBy, afterAttempt, positionOf.
      cbn -[Z.of_nat Z.mul Z.add Z.leb]. apply Z.leb_gt. lia. }
    rewrite U, andb_false_r.
    specialize (IH 0 true (set_page (afterAttempt endless true 0 (page st)) st)
                  ltac:(unfold maxAggressiveScrollAttemptsAtBottom; lia)).
    destruct (aggressiveLoop endless fuel true 0 0 true
                (set_page (afterAttempt endless true 0 (page st)) st))
      as [[r st''] evs].
    rewrite ?traceOf_triple, ?outcomeOf_triple in *.
    rewrite scrollCommands_app, SC. destruct IH as [-> ->]. split; reflexivity.
Qed.

(** C7 as stated fails: the attempt counter is set back to zero by every
    scroll command that moves the page, so no number bounds the scroll
    commands of the phase; on a page that gives way at every command the
    loop never exits. *)
Lemma scroll_commands_not_bounded :
  ~ (exists N, forall (H : Host) fuel isWin el (st : St H),
       scrollCommands (traceOf (aggressiveLoop H fuel isWin el 0 false st)) <= N).
Proof.
  intros [N B].
  specialize (B treadmill (N + 1 + maxAggressiveScrollAttemptsAtBottom) true 0
                (initial treadmill (N + 1, 0))).
  destruct (treadmill_commands (N + 1) (N + 1 + maxAggressiveScrollAttemptsAtBottom)
              false (initial treadmill (N + 1, 0)) eq_refl (le_n _)) as [_ C].
  rewrite C in B. lia.
Qed.

(** C7, amended.  The scroll phase issues scroll commands each followed at
    once by the pause of [aggressiveScrollPause]; after [n] commands the
    page has gone through [n] attempts (command and pause).  The budget
    [maxAggressiveScrollAttemptsAtBottom] counts attempts in a row that
    advance the position by at most 5 px and is restored by every attempt
    that advances it by more: the scroll commands number at most three
    times the attempts that advanced the position by more than 5 px, plus
    three.  When the loop exits, its last attempt advanced the position by
    at most 5 px, and either the page is then at its effective bottom
    ([position + client height >= scroll height - 5]) or the last three
    attempts each advanced it by at most 5 px.  On a page whose position
    never decreases under an attempt and never exceeds [B], at most
    [(B - position) / 5] attempts advance it by more than 5 px, and the
    loop exits after at most [3 * ((B - position) / 5 + 1)] scroll
    commands, the quotient rounded down. *)
Theorem scroll_phase_budget (H : Host) (isWin : bool) (el : node) (fuel : nat)
    (st : St H) :
  let phase := aggressiveLoop H fuel isWin el 0 false st in
  let n := scrollCommands (traceOf phase) in
  let w := page st in
  scrollsPaused (traceOf phase) = true
  /\ page (stateOf phase) = pageAfter H isWin el n w
  /\ n <= maxAggressiveScrollAttemptsAtBottom * (movesIn H isWin el n w + 1)
  /\ (forall b, outcomeOf phase = Ret b ->
        1 <= n
        /\ (advance H isWin el (pageAfter H isWin el (n - 1) w) <= 5)%Z
        /\ (atEffectiveBottom H isWin el (pageAfter H isWin el n w) = true
            \/ (maxAggressiveScrollAttemptsAtBottom <= n
                /\ forall i, n - maxAggressiveScrollAttemptsAtBottom <= i < n ->
                     (advance H isWin el (pageAfter H isWin el i w) <= 5)%Z)))
  /\ (forall (Inv : world H -> Prop) (B : Z),
        Inv w ->
        (forall w', Inv w' ->
           Inv (afterAttempt H isWin el w')
           /\ (positionOf H isWin el w'
               <= positionOf H isWin el (afterAttempt H isWin el w'))%Z
           /\ (positionOf H isWin el w' <= B)%Z) ->
        (5 * Z.of_nat (movesIn H isWin el n w) <= B - positionOf H isWin el w)%Z
        /\ n <= maxAggressiveScrollAttemptsAtBottom * (room H isWin el B w + 1)
        /\ (maxAggressiveScrollAttemptsAtBottom * (room H isWin el B w + 1) <= fuel ->
            exists b, outcomeOf phase = Ret b)).
Proof.
  intros phase n w.
  destruct (aggressiveLoop_positions H isWin el fuel 0 false st) as (P & C & _ & X).
  { unfold maxAggressiveScrollAttemptsAtBottom. lia. }
  fold phase in P, C, X. fold n in P, C, X. fold w in P, C, X.
  split; [apply aggressiveLoop_paused|].
  split; [exact P|].
  split; [lia|].
  split.
  - intros b E.
    destruct (X b E) as (N1 & U & Ex);
      [unfold maxAggressiveScrollAttemptsAtBottom; lia|].
    split; [exact N1|]. split; [exact U|].
    destruct Ex as [Bt | S]; [left; exact Bt | right].
    pose proof (streak_bound H isWin el n 0 w) as SB.
    split; [lia|].
    intros i L. apply (streak_trailing H isWin el n 0 w i). rewrite S. exact L.
  - intros Inv B I HI.
    split; [apply (movesIn_room H isWin el Inv B HI n w I)|].
    pose proof (movesIn_le_room H isWin el Inv B HI n w I) as M.
    split.
    + unfold maxAggressiveScrollAttemptsAtBottom in *. lia.
    + intros F.
      apply (aggressiveLoop_terminates H isWin el Inv B HI fuel 0 false st I);
        unfold maxAggressiveScrollAttemptsAtBottom, w in *; lia.
Qed.

(** The treadmill with four moves left, ten pixels each, so positions up
    to 40 px: the loop exits, after at most [3 * (40 / 5 + 1)] scroll
    commands. *)
Lemma scroll_phase_budget_witness :
  (exists b, outcomeOf (aggressiveLoop treadmill 27 true 0 0 false
                          (initial treadmill (4, 0))) = Ret b)
  /\ scrollCommands (traceOf (aggressiveLoop treadmill 27 true 0 0 false
                                (initial treadmill (4, 0)))) <= 3 * (8 + 1).
Proof.
  destruct (scroll_phase_budget treadmill true 0 27 (initial treadmill (4, 0)))
    as (_ & _ & _ & _ & T).
  destruct (T (fun w => fst w + snd w = 4) 40%Z) as (_ & N & R).
  - reflexivity.
  - intros [remaining moved] I. simpl in I.
    unfold afterAttempt, positionOf.
    destruct remaining as [|remaining]; cbn -[Z.of_nat Z.mul Z.add Z.leb] in I |- *;
      repeat split; lia.
  - split; [apply R; vm_compute; lia | exact N].
Defined.

(** ** A page that never grows *)

Lemma counterWrites_app a b : counterWrites (a ++ b) = counterWrites a ++ counterWrites b.
Proof.
  induction a as [|e tl IH]; simpl; auto.
  destruct e; simpl; rewrite ?IH; reflexivity.
Qed.

Lemma counterWrites_quiet evs : forallb quiet evs = true -> counterWrites evs = [].
Proof.
  induction evs as [|e tl IH]; simpl; auto.
  intros E; apply andb_true_iff in E as [E1 E2].
  destruct e; simpl in *; try discriminate; auto.
Qed.

Lemma processVisibleHearts_none (H : Host) (st : St H) :
  querySelectorAll_hearts H (page st) = [] ->
  processVisibleHearts H st
  = (Ret 0, st,
     [Log "processVisibleHearts: Found ${unfilledHearts.length} unfilled hearts." [0%Z]]).
Proof. intros Q. rewrite processVisibleHearts_eq, Q. reflexivity. Qed.

Lemma aggressiveLoop_stuck (H : Host) isWin el :
  (forall w, unchangedBy H isWin el w = true) ->
  forall fuel attempts happened (st : St H),
    attempts <= maxAggressiveScrollAttemptsAtBottom ->
    maxAggressiveScrollAttemptsAtBottom - attempts <= fuel ->
    exists b, outcomeOf (aggressiveLoop H fuel isWin el attempts happened st) = Ret b.
Proof.
  unfold maxAggressiveScrollAttemptsAtBottom. intros U.
  induction fuel as [|fuel IH]; intros a h st L F.
  - assert (a = 3) by lia. subst a.
    rewrite aggressiveLoop_done by (unfold maxAggressiveScrollAttemptsAtBottom; lia).
    rewrite outcomeOf_triple. eauto.
  - destruct (Nat.eq_dec a 3) as [->|Ne].
    { rewrite aggressiveLoop_done by (unfold maxAggressiveScrollAttemptsAtBottom; lia).
      rewrite outcomeOf_triple. eauto. }
    rewrite aggressiveLoop_step by (unfold maxAggressiveScrollAttemptsAtBottom; lia).
    cbv zeta. rewrite U.
    destruct (atEffectiveBottom H isWin el _ && true).
    + rewrite outcomeOf_triple. eauto.
    + specialize (IH (S a) h (set_page (afterAttempt H isWin el (page st)) st)
                    ltac:(lia) ltac:(lia)).
      destruct (aggressiveLoop H fuel isWin el (S a) h
                  (set_page (afterAttempt H isWin el (page st)) st)) as [[r st''] evs].
      rewrite outcomeOf_triple in *. exact IH.
Qed.

Section NeverGrows.

Variable H : Host.
Hypothesis NG : neverGrows H.

Let max := maxScrollsWithoutNewHearts.

Lemma ng_pass (st : St H) :
  wp (processVisibleHearts H)
     (fun r st' evs => r = Ret 0 /\ st' = st /\ forallb quiet evs = true
                       /\ nclicks evs = 0)
     st.
Proof.
  destruct NG as (Q & _ & _).
  eapply wp_eq; [apply processVisibleHearts_none, Q|]. repeat split.
Qed.

Lemma ng_scroll fuel isWin el (st : St H) :
  maxAggressiveScrollAttemptsAtBottom <= fuel ->
  wp (aggressiveScroll H fuel isWin el)
     (fun r st' evs => r = Ret tt /\ keepsVars st st'
                       /\ totalHeartsClicked st' = totalHeartsClicked st
                       /\ forallb silent evs = true)
     st.
Proof.
  intros F. destruct NG as (_ & _ & P).
  assert (U : forall w, unchangedBy H isWin el w = true).
  { intros w. unfold unchangedBy. apply Z.leb_le. specialize (P isWin el w). lia. }
  destruct (aggressiveLoop_stuck H isWin el U fuel 0 false st) as [b O]; [lia|lia|].
  unfold aggressiveScroll, getScrollTop, getScrollHeight, getClientHeight.
  wp_steps.
  eapply wp_mono; [apply wp_conj; [apply aggressiveLoop_wp | apply wp_outcome]|].
  cbv beta. intros r st1 ev1 [(_ & (K1 & K2 & K3) & T & S1) E].
  simpl in E. rewrite O in E. subst r.
  wp_steps. wp_if; wp_steps.
  1: wp_if; wp_steps.
  all: simpl; rewrite ?forallb_app, S1; simpl.
  all: repeat split; auto.
Qed.

Lemma ng_wait fuel (st : St H) :
  1 <= fuel ->
  wp (waitForMutations H fuel)
     (fun r st' evs => r = Ret tt
                       /\ scrollsWithoutNewHearts st' = scrollsWithoutNewHearts st
                       /\ totalHeartsClicked st' = totalHeartsClicked st
                       /\ processedHeartsInCycle st' = false
                       /\ iterations evs = 0 /\ nclicks evs = 0
                       /\ counterWrites evs = [])
     st.
Proof.
  intros F. destruct NG as (_ & W & _).
  unfold waitForMutations. wp_steps.
  destruct fuel as [|fuel]; [lia|]. simpl awaitResolve.
  wp_step. unfold wp at 1. simpl.
  match goal with
  | |- context [await_wakeup H ?w] =>
      pose proof (W w) as Ww; destruct (await_wakeup H w) as [wk w']
  end.
  simpl in Ww. subst wk. simpl.
  wp_steps. simpl. wp_steps. simpl. repeat split.
Qed.

Lemma ng_after (st : St H) :
  processedHeartsInCycle st = false ->
  wp (afterCycle H)
     (fun r st' evs => r = Ret tt
                       /\ scrollsWithoutNewHearts st' = S (scrollsWithoutNewHearts st)
                       /\ totalHeartsClicked st' = totalHeartsClicked st
                       /\ processedHeartsInCycle st' = false
                       /\ iterations evs = 0 /\ nclicks evs = 0
                       /\ counterWrites evs = [S (scrollsWithoutNewHearts st)])
     st.
Proof.
  intros P. unfold afterCycle. wp_steps. rewrite P. cbv iota. wp_steps.
  wp_use ng_pass. intros r st1 ev1 (-> & -> & Q & N).
  wp_steps. simpl. wp_steps. simpl.
  rewrite ?iterations_app, ?nclicks_app, ?counterWrites_app.
  rewrite (iterations_quiet _ Q), (counterWrites_quiet _ Q), N. simpl.
  repeat split; auto.
Qed.

Lemma ng_bottom (st : St H) :
  processedHeartsInCycle st = false ->
  wp (bottomCheck H)
     (fun r st' evs => r = Ret (max <=? S (scrollsWithoutNewHearts st))
                       /\ scrollsWithoutNewHearts st' = S (scrollsWithoutNewHearts st)
                       /\ totalHeartsClicked st' = totalHeartsClicked st
                       /\ processedHeartsInCycle st' = false
                       /\ iterations evs = 0 /\ nclicks evs = 0
                       /\ counterWrites evs = [S (scrollsWithoutNewHearts st)])
     st.
Proof.
  intros P. unfold bottomCheck. wp_steps.
  wp_use ng_pass. intros r st1 ev1 (-> & -> & Q & N).
  wp_steps. st_simpl. cbv iota. change (0 <? 0) with false. cbv iota.
  wp_steps. rewrite P. cbn [negb]. cbv iota. wp_steps. st_simpl.
  wp_if; wp_steps; st_simpl.
  all: unfold max; rewrite Heqb.
  all: rewrite ?app_nil_r, ?app_nil_l.
  all: rewrite ?iterations_app, ?nclicks_app, ?counterWrites_app.
  all: rewrite (iterations_quiet _ Q), (counterWrites_quiet _ Q), N; simpl.
  all: repeat split; auto.
Qed.

Lemma ng_body fuel (st : St H) :
  maxAggressiveScrollAttemptsAtBottom <= fuel ->
  processedHeartsInCycle st = false ->
  wp (loopBody H fuel)
     (fun r st' evs =>
        iterations evs = 1 /\ nclicks evs = 0
        /\ processedHeartsInCycle st' = false
        /\ totalHeartsClicked st' = totalHeartsClicked st
        /\ let c := scrollsWithoutNewHearts st in
           if roomToScroll H (page st) then
             r = Ret false /\ scrollsWithoutNewHearts st' = S c
             /\ counterWrites evs = [S c]
           else if max <=? S c then
             r = Ret true /\ scrollsWithoutNewHearts st' = S c
             /\ counterWrites evs = [S c]
           else
             r = Ret false /\ scrollsWithoutNewHearts st' = S (S c)
             /\ counterWrites evs = [S c; S (S c)])
     st.
Proof.
  intros F P. unfold loopBody, roomToScroll. wp_steps.
  set (el := match querySelector_grid H (page st) with
             | Some g => g | None => documentElement H end).
  set (isWin := el =? documentElement H).
  assert (Rest : forall st0 pre,
    processedHeartsInCycle st0 = false ->
    totalHeartsClicked st0 = totalHeartsClicked st ->
    iterations pre = 0 -> nclicks pre = 0 ->
    wp (bind H (aggressiveScroll H fuel isWin el)
          (fun _ => bind H (waitForMutations H fuel)
             (fun _ => bind H (afterCycle H) (fun _ => ret H false))))
       (fun r st' evs =>
          r = Ret false /\ iterations (Iteration :: pre ++ evs) = 1
          /\ nclicks (Iteration :: pre ++ evs) = 0
          /\ processedHeartsInCycle st' = false
          /\ totalHeartsClicked st' = totalHeartsClicked st
          /\ scrollsWithoutNewHearts st' = S (scrollsWithoutNewHearts st0)
          /\ counterWrites (Iteration :: pre ++ evs)
             = counterWrites pre ++ [S (scrollsWithoutNewHearts st0)])
       st0).
  { intros st0 pre P0 T0 I0 N0.
    wp_use ng_scroll; [exact F|].
    intros r st1 ev1 (-> & (K1 & K2 & K3) & T1 & S1).
    pose proof (silent_quiet _ S1) as Q1.
    wp_use ng_wait; [unfold maxAggressiveScrollAttemptsAtBottom in F; lia|].
    intros r st2 ev2 (-> & C2 & T2 & P2 & I2 & N2 & W2).
    wp_use ng_after; [exact P2|].
    intros r st3 ev3 (-> & C3 & T3 & P3 & I3 & N3 & W3).
    wp_steps. simpl.
    rewrite !iterations_app, !nclicks_app, !counterWrites_app.
    rewrite (iterations_quiet _ Q1), (counterWrites_quiet _ Q1), (nclicks_silent _ S1).
    rewrite I0, I2, I3, N0, N2, N3, W2, W3. simpl.
    repeat split; try congruence. }
  destruct (canStillScroll H isWin el (page st)) eqn:Can; cbn [negb]; cbv iota.
  - wp_step.
    eapply wp_mono; [apply (Rest st []); auto|]. cbv beta.
    intros r st' evs (-> & I & N & P' & T' & C' & W'). simpl in *.
    repeat split; auto.
  - wp_use ng_bottom; [exact P|].
    intros r st1 ev1 (-> & C1 & T1 & P1 & I1 & N1 & W1).
    destruct (max <=? S (scrollsWithoutNewHearts st)) eqn:Brk; cbv iota.
    + wp_steps. simpl. rewrite !app_nil_r, I1, N1, W1. repeat split; auto.
    + eapply wp_mono; [apply (Rest st1 ev1); auto|]. cbv beta.
      intros r st' evs (-> & I & N & P' & T' & C' & W'). simpl in *.
      rewrite W1 in W'. simpl in W'. rewrite C1 in C', W'.
      repeat split; auto.
Qed.

Lemma ng_loop fuel inner : forall (st : St H),
  maxAggressiveScrollAttemptsAtBottom <= inner ->
  processedHeartsInCycle st = false ->
  scrollsWithoutNewHearts st <= max ->
  max - scrollsWithoutNewHearts st <= fuel ->
  wp (mainLoop H fuel inner)
     (fun r st' evs =>
        let c := scrollsWithoutNewHearts st in
        r = Ret tt /\ scrollsWithoutNewHearts st' = max
        /\ totalHeartsClicked st' = totalHeartsClicked st
        /\ nclicks evs = 0
        /\ counterWrites evs = seq (S c) (max - c)
        /\ iterations evs <= max - c
        /\ max - c <= 2 * iterations evs
        /\ ((forall w, roomToScroll H w = true) -> iterations evs = max - c)
        /\ ((forall w, roomToScroll H w = false) -> iterations evs = (max - c + 1) / 2))
     st.
Proof.
  unfold max, maxScrollsWithoutNewHearts.
  induction fuel as [|fuel IH]; intros st F P C L; cbn [mainLoop]; wp_steps.
  - assert (E : scrollsWithoutNewHearts st = 4) by lia.
    rewrite E. unfold maxScrollsWithoutNewHearts. simpl Nat.ltb. cbv iota. wp_steps.
    simpl. repeat split; auto.
  - destruct (scrollsWithoutNewHearts st <? maxScrollsWithoutNewHearts) eqn:Lt;
      cbv iota; wp_steps.
    2:{ apply Nat.ltb_ge in Lt. unfold maxScrollsWithoutNewHearts in Lt.
        assert (E : scrollsWithoutNewHearts st = 4) by lia.
        rewrite E. simpl. repeat split; auto. }
    apply Nat.ltb_lt in Lt. unfold maxScrollsWithoutNewHearts in Lt.
    wp_use ng_body; [exact F|exact P|].
    intros r st1 ev1 (I1 & N1 & P1 & T1 & B1). cbv zeta in B1.
    unfold max, maxScrollsWithoutNewHearts in B1.
    destruct (roomToScroll H (page st)) eqn:Can;
      [|destruct (4 <=? S (scrollsWithoutNewHearts st)) eqn:Brk];
      destruct B1 as (-> & C1 & W1); cbv iota.
    + eapply wp_mono; [apply (IH st1 F P1); lia|]. cbv beta zeta.
      intros r st2 ev2 (-> & C2 & T2 & N2 & W2 & I2 & J2 & A2 & B2).
      rewrite !app_nil_l.
      rewrite iterations_app, nclicks_app, counterWrites_app, I1, N1, N2, W1, W2, C1.
      repeat split; auto; try lia.
      all: try (intros A; rewrite A in Can; discriminate).
      all: try (intros A; rewrite (A2 A); lia).
      all: try (intros B; rewrite (B2 B), C1).
      all: destruct (scrollsWithoutNewHearts st) as [|[|[|[|?]]]];
        try lia; try reflexivity.
    + wp_steps. rewrite !app_nil_l, app_nil_r, I1, N1, W1.
      apply Nat.leb_le in Brk.
      assert (E : scrollsWithoutNewHearts st = 3) by lia.
      rewrite E in *. simpl. repeat split; auto.
    + apply Nat.leb_gt in Brk.
      eapply wp_mono; [apply (IH st1 F P1); lia|]. cbv beta zeta.
      intros r st2 ev2 (-> & C2 & T2 & N2 & W2 & I2 & J2 & A2 & B2).
      rewrite !app_nil_l.
      rewrite iterations_app, nclicks_app, counterWrites_app, I1, N1, N2, W1, W2, C1.
      repeat split; auto; try lia.
      all: try (intros A; rewrite A in Can; discriminate).
      all: try (intros A; rewrite (A2 A); lia).
      all: try (intros B; rewrite (B2 B), C1).
      all: destruct (scrollsWithoutNewHearts st) as [|[|[|[|?]]]];
        try lia; try reflexivity.
Qed.

Lemma ng_run fuel (w : world H) :
  max <= fuel ->
  wp (clickAllHeartsFrom H fuel)
     (fun r st' evs =>
        r = Ret "Total hearts clicked: 0"%string
        /\ scrollsWithoutNewHearts st' = max
        /\ counterWrites evs = [1; 2; 3; 4]
        /\ 2 <= iterations evs <= max
        /\ ((forall w, roomToScroll H w = true) -> iterations evs = max)
        /\ ((forall w, roomToScroll H w = false) -> iterations evs = 2))
     (initial H w).
Proof.
  unfold max, maxScrollsWithoutNewHearts. intros F.
  unfold clickAllHeartsFrom. wp_steps.
  wp_use ng_pass. intros r st1 ev1 (-> & -> & Q & N).
  wp_steps. change (0 <? 0) with false. cbv iota. wp_steps.
  wp_use (ng_loop fuel fuel (initial H w));
    [unfold maxAggressiveScrollAttemptsAtBottom; lia | reflexivity
    | simpl; unfold max, maxScrollsWithoutNewHearts; lia
    | simpl; unfold max, maxScrollsWithoutNewHearts; lia |].
  cbv zeta. unfold max, maxScrollsWithoutNewHearts. st_simpl.
  intros r st2 ev2 (-> & C2 & T2 & N2 & W2 & I2 & J2 & A2 & B2).
  wp_steps. st_simpl. rewrite C2, T2. simpl Nat.leb. cbv iota. wp_steps.
  simpl app.
  do 3 (cbn [iterations counterWrites]; rewrite ?iterations_app, ?counterWrites_app).
  rewrite (iterations_quiet _ Q), (counterWrites_quiet _ Q), W2.
  cbn [iterations counterWrites app]. rewrite ?Nat.add_0_r, ?app_nil_r.
  simpl in *.
  repeat split; auto; try lia.
Qed.

End NeverGrows.

Lemma fixedPage_neverGrows grid position total viewport :
  neverGrows (fixedPage [] false grid position total viewport).
Proof.
  split; [|split].
  - intros w. reflexivity.
  - intros w. reflexivity.
  - intros isWin el w. unfold positionOf, afterAttempt. destruct isWin; simpl; lia.
Qed.

(** C1 as stated fails: on a page that is at its bottom both the bottom
    check at the head of an iteration and the re-check after the wait
    count as unproductive, so the loop is left after two iterations, not
    four. *)
Lemma never_growing_page_two_iterations :
  ~ (forall (H : Host) (w : world H) (fuel : nat),
       neverGrows H -> maxScrollsWithoutNewHearts <= fuel ->
       iterations (traceOf (clickAllHearts H fuel w)) = maxScrollsWithoutNewHearts).
Proof.
  intros C.
  specialize (C atBottom tt 4 (fixedPage_neverGrows None 0 100 100) (le_n _)).
  vm_compute in C. discriminate.
Qed.

(** C1, amended.  On a page that never grows (no unfilled heart is ever
    found, no mutation batch is delivered, scroll commands never advance
    the position) the run returns, with [scrollsWithoutNewHearts] counted
    up 1, 2, 3, 4 by four unproductive scans and equal to
    [maxScrollsWithoutNewHearts] at the end.  That takes between two and
    four iterations of the main loop: four when the page reports room to
    scroll at the head of every iteration, two when it reports none, since
    then the bottom check and the re-check after the wait both count. *)
Theorem never_growing_page_stops (H : Host) (w : world H) (fuel : nat) :
  neverGrows H ->
  maxScrollsWithoutNewHearts <= fuel ->
  let run := clickAllHearts H fuel w in
  outcomeOf run = Ret "Total hearts clicked: 0"%string
  /\ scrollsWithoutNewHearts (stateOf run) = maxScrollsWithoutNewHearts
  /\ counterWrites (traceOf run) = [1; 2; 3; 4]
  /\ 2 <= iterations (traceOf run) <= maxScrollsWithoutNewHearts
  /\ ((forall w, roomToScroll H w = true) ->
      iterations (traceOf run) = maxScrollsWithoutNewHearts)
  /\ ((forall w, roomToScroll H w = false) -> iterations (traceOf run) = 2).
Proof.
  intros NG F. exact (ng_run H NG fuel w F).
Qed.

Lemma never_growing_page_stops_witness :
  iterations (traceOf (clickAllHearts unresponsive 4 tt)) = 4
  /\ iterations (traceOf (clickAllHearts atBottom 4 tt)) = 2.
Proof.
  split.
  - apply (never_growing_page_stops unresponsive tt 4
             (fixedPage_neverGrows None 0 5000 100) (le_n _)).
    intros w. reflexivity.
  - apply (never_growing_page_stops atBottom tt 4
             (fixedPage_neverGrows None 0 100 100) (le_n _)).
    intros w. reflexivity.
Defined.

(** ** Scans of the simulated page *)

Lemma clickedNodes_clickBlocks (l : list node) : clickedNodes (clickBlocks l) = l.
Proof. induction l as [|h tl IH]; simpl; congruence. Qed.

Lemma quiet_clickBlocks l : forallb quiet (clickBlocks l) = true.
Proof. induction l as [|h tl IH]; simpl; auto. Qed.

Lemma sim_query (a b : list node) :
  map hid (filter (fun h => negb (hfilled h)) (map filledHeart a ++ map (heart Fills) b))
  = b.
Proof.
  rewrite filter_app, map_app.
  assert (A : filter (fun h => negb (hfilled h)) (map filledHeart a) = []).
  { induction a as [|x a IH]; simpl; auto. }
  assert (B : map hid (filter (fun h => negb (hfilled h)) (map (heart Fills) b)) = b).
  { induction b as [|x b IH]; simpl; congruence. }
  rewrite A, B. reflexivity.
Qed.

Lemma sim_find (a : list node) (h : node) (b : list node) :
  ~ In h a ->
  find (fun x => hid x =? h) (map filledHeart a ++ map (heart Fills) (h :: b))
  = Some (heart Fills h).
Proof.
  intros Nin. induction a as [|x a IH]; simpl.
  - rewrite Nat.eqb_refl. reflexivity.
  - destruct (x =? h) eqn:E.
    + apply Nat.eqb_eq in E. subst. exfalso. apply Nin. left. reflexivity.
    + apply IH. intros I. apply Nin. right. exact I.
Qed.

Lemma sim_fill (a : list node) (h : node) (b : list node) :
  ~ In h b ->
  map (fillHeart h) (map filledHeart a ++ map (heart Fills) (h :: b))
  = map filledHeart (a ++ [h]) ++ map (heart Fills) b.
Proof.
  intros Nin. rewrite !map_app. simpl. rewrite <- app_assoc. simpl.
  f_equal.
  - induction a as [|x a IH]; simpl; auto. rewrite IH. f_equal.
    unfold fillHeart, filledHeart. simpl. destruct (x =? h); reflexivity.
  - unfold fillHeart at 1. simpl. rewrite Nat.eqb_refl. f_equal.
    induction b as [|x b IH]; simpl; auto.
    rewrite IH by (intros I; apply Nin; right; exact I). f_equal.
    unfold fillHeart. simpl. destruct (x =? h) eqn:E; auto.
    apply Nat.eqb_eq in E. subst. exfalso. apply Nin. left. reflexivity.
Qed.

Lemma sim_forHearts (b : list node) : forall (a : list node) passed (st : St simHost),
  dom (page st) = map filledHeart a ++ map (heart Fills) b ->
  NoDup (a ++ b) ->
  forHearts simHost b passed st
  = (Ret (passed + List.length b),
     set_total (totalHeartsClicked st + List.length b)
       (@set_page simHost (withDom (map filledHeart (a ++ b)) (page st)) st),
     clickBlocks b).
Proof.
  induction b as [|h b IH]; intros a passed st D ND.
  - rewrite forHearts_nil, !Nat.add_0_r, app_nil_r. simpl in D. rewrite app_nil_r in D.
    destruct st as [c t p r w]. destruct w. simpl in *. subst. reflexivity.
  - rewrite forHearts_cons.
    assert (Na : ~ In h a).
    { intros I. apply NoDup_remove_2 in ND. apply ND. apply in_or_app. left. exact I. }
    assert (Nb : ~ In h b).
    { intros I. apply NoDup_remove_2 in ND. apply ND. apply in_or_app. right. exact I. }
    cbn [offsetParent_null classList_contains_filled click simHost simClick].
    unfold simClick, simLookup. rewrite D, (sim_find a h b Na).
    cbn [hvisible hfilled hbehaviour heart negb orb].
    cbn [sleep simHost].
    rewrite (IH (a ++ [h]) (S passed)).
    + cbn [page set_page set_total totalHeartsClicked dom withDom].
      rewrite <- app_assoc. simpl app. simpl List.length.
      rewrite !Nat.add_succ_r. reflexivity.
    + cbn [page set_page set_total dom withDom]. apply sim_fill. exact Nb.
    + rewrite <- app_assoc. simpl. exact ND.
Qed.

Lemma sim_pass_clicks (a b : list node) (st : St simHost) :
  dom (page st) = map filledHeart a ++ map (heart Fills) b ->
  NoDup (a ++ b) ->
  processVisibleHearts simHost st
  = (Ret (List.length b),
     set_total (totalHeartsClicked st + List.length b)
       (@set_page simHost (withDom (map filledHeart (a ++ b)) (page st)) st),
     foundLine (List.length b) :: clickBlocks b).
Proof.
  intros D ND. rewrite processVisibleHearts_forHearts.
  cbn [querySelectorAll_hearts simHost]. rewrite D, sim_query.
  rewrite (sim_forHearts b a 0 st D ND). reflexivity.
Qed.

Lemma sim_pass_none (l : list node) (st : St simHost) :
  dom (page st) = map filledHeart l ->
  processVisibleHearts simHost st = (Ret 0, st, [foundLine 0]).
Proof.
  intros D. apply processVisibleHearts_none.
  cbn [querySelectorAll_hearts simHost]. rewrite D.
  rewrite <- (app_nil_r (map filledHeart l)).
  apply (sim_query l []).
Qed.

(** ** The two-page run *)

(** One turn of the loops. *)
Section Unfolding.

Variable H : Host.

Lemma mainLoop_S fuel inner :
  mainLoop H (S fuel) inner
  = bind H (get H scrollsWithoutNewHearts)
      (fun c => if c <? maxScrollsWithoutNewHearts
                then bind H (loopBody H inner)
                       (fun stop => if stop then ret H tt else mainLoop H fuel inner)
                else ret H tt).
Proof. reflexivity. Qed.

Lemma awaitResolve_S fuel :
  awaitResolve H (S fuel)
  = bind H (fun st => let (wk, w) := await_wakeup H (page st) in
                      (Ret wk, set_page w st, []))
      (fun wk =>
         match wk with
         | TimerFired =>
             bind H (log H "MutationObserver: Timeout waiting for mutations." [])
               (fun _ => bind H (get H resolve)
                  (fun r => if r then ret H tt else awaitResolve H fuel))
         | Mutations ms =>
             bind H (mutationCallback H ms)
               (fun resolved => if resolved then ret H tt else awaitResolve H fuel)
         end).
Proof. reflexivity. Qed.

Lemma clickedNodes_attempt isWin el a w : clickedNodes (attemptEvents H isWin el a w) = [].
Proof.
  unfold attemptEvents, scrollCommand.
  destruct isWin, (unchangedBy H _ el w), (atEffectiveBottom H _ el _); reflexivity.
Qed.

End Unfolding.

(** Rules of [wpc], one per operation of the monad and per turn of a loop. *)
Section ClickRules.

Variable H : Host.
Implicit Types st : St H.

Lemma wpc_bind {A B} (m : M H A) (k : A -> M H B) P st :
  wpc m (fun r st1 c1 =>
           match r with
           | Ret a => wpc (k a) (fun r2 st2 c2 => P r2 st2 (c1 ++ c2)) st1
           | Throw e => P (Throw e) st1 c1
           | Diverge => P Diverge st1 c1
           end) st ->
  wpc (bind H m k) P st.
Proof.
  unfold wpc. intros W. apply wp_bind. eapply wp_mono; [exact W|]. cbv beta.
  intros r st1 ev1. destruct r; auto.
  intros W'. eapply wp_mono; [exact W'|]. cbv beta.
  intros r2 st2 ev2. rewrite clickedNodes_app. auto.
Qed.

Lemma wpc_eq {A} (m : M H A) P st r st' evs :
  m st = (r, st', evs) -> P r st' (clickedNodes evs) -> wpc m P st.
Proof. intros E HP. unfold wpc. eapply wp_eq; [exact E|exact HP]. Qed.

Lemma wpc_ret {A} (a : A) P st : P (Ret a) st [] -> wpc (ret H a) P st.
Proof. auto. Qed.

Lemma wpc_log t a P st : P (Ret tt) st [] -> wpc (log H t a) P st.
Proof. auto. Qed.

Lemma wpc_emit e P st : clickedNodes [e] = [] -> P (Ret tt) st [] -> wpc (emit H e) P st.
Proof. intros E HP. unfold wpc, wp. simpl fst; simpl snd. rewrite E. exact HP. Qed.

Lemma wpc_get {A} (f : St H -> A) P st : P (Ret (f st)) st [] -> wpc (get H f) P st.
Proof. auto. Qed.

Lemma wpc_read {A} (f : world H -> A) P st :
  P (Ret (f (page st))) st [] -> wpc (read H f) P st.
Proof. auto. Qed.

Lemma wpc_modify f P st : P (Ret tt) (f st) [] -> wpc (modify H f) P st.
Proof. auto. Qed.

Lemma wpc_call e f P st :
  clickedNodes [e] = [] ->
  P (Ret tt) (set_page (f (page st)) st) [] -> wpc (call H e f) P st.
Proof. intros E HP. unfold wpc, wp. simpl fst; simpl snd. rewrite E. exact HP. Qed.

Lemma wpc_pause ms P st :
  P (Ret tt) (set_page (sleep H ms (page st)) st) [] -> wpc (pause H ms) P st.
Proof. auto. Qed.

Lemma wpc_setScrolls c P st :
  P (Ret tt) (set_scrolls c st) [] -> wpc (setScrolls H c) P st.
Proof. auto. Qed.

Lemma wpc_await (P : outcome wakeup -> St H -> list node -> Prop) st :
  P (Ret (fst (await_wakeup H (page st))))
    (set_page (snd (await_wakeup H (page st))) st) [] ->
  wpc (fun st => let (wk, w) := await_wakeup H (page st) in (Ret wk, set_page w st, []))
      P st.
Proof. unfold wpc, wp. destruct (await_wakeup H (page st)); simpl; auto. Qed.

Lemma wpc_loop_done fuel isWin el a h P st :
  maxAggressiveScrollAttemptsAtBottom <= a ->
  P (Ret h) st [] ->
  wpc (aggressiveLoop H fuel isWin el a h) P st.
Proof. intros L HP. eapply wpc_eq; [apply aggressiveLoop_done; exact L | exact HP]. Qed.

Lemma wpc_loop_break fuel isWin el a h P st :
  a < maxAggressiveScrollAttemptsAtBottom ->
  unchangedBy H isWin el (page st) = true ->
  atEffectiveBottom H isWin el (afterAttempt H isWin el (page st)) = true ->
  P (Ret h) (set_page (afterAttempt H isWin el (page st)) st) [] ->
  wpc (aggressiveLoop H (S fuel) isWin el a h) P st.
Proof.
  intros L U B HP. eapply wpc_eq.
  - rewrite aggressiveLoop_step by exact L. cbv zeta. rewrite U, B. reflexivity.
  - rewrite clickedNodes_attempt. exact HP.
Qed.

Lemma wpc_loop_stay fuel isWin el a h P st :
  a < maxAggressiveScrollAttemptsAtBottom ->
  unchangedBy H isWin el (page st) = true ->
  atEffectiveBottom H isWin el (afterAttempt H isWin el (page st)) = false ->
  wpc (aggressiveLoop H fuel isWin el (S a) h) P
      (set_page (afterAttempt H isWin el (page st)) st) ->
  wpc (aggressiveLoop H (S fuel) isWin el a h) P st.
Proof.
  intros L U B HP. unfold wpc in HP. apply wp_inv in HP as (r & s & e & E & HP).
  eapply wpc_eq.
  - rewrite aggressiveLoop_step by exact L. cbv zeta. rewrite U, B, E. reflexivity.
  - rewrite clickedNodes_app, clickedNodes_attempt. exact HP.
Qed.

Lemma wpc_loop_move fuel isWin el a h P st :
  a < maxAggressiveScrollAttemptsAtBottom ->
  unchangedBy H isWin el (page st) = false ->
  wpc (aggressiveLoop H fuel isWin el 0 true) P
      (set_page (afterAttempt H isWin el (page st)) st) ->
  wpc (aggressiveLoop H (S fuel) isWin el a h) P st.
Proof.
  intros L U HP. unfold wpc in HP. apply wp_inv in HP as (r & s & e & E & HP).
  eapply wpc_eq.
  - rewrite aggressiveLoop_step by exact L. cbv zeta. rewrite U, andb_false_r, E.
    reflexivity.
  - rewrite clickedNodes_app, clickedNodes_attempt. exact HP.
Qed.

End ClickRules.

(** One step of symbolic execution under [wpc]; conditions are evaluated
    where they are closed and split where they depend on the pages. *)
Ltac wpc_step :=
  lazymatch goal with
  | |- wpc (bind _ _ _) _ _ => apply wpc_bind
  | |- wpc (ret _ _) _ _ => apply wpc_ret
  | |- wpc (emit _ _) _ _ => apply wpc_emit; [reflexivity|]
  | |- wpc (log _ _ _) _ _ => apply wpc_log
  | |- wpc (get _ _) _ _ => apply wpc_get
  | |- wpc (read _ _) _ _ => apply wpc_read
  | |- wpc (modify _ _) _ _ => apply wpc_modify
  | |- wpc (call _ _ _) _ _ => apply wpc_call; [reflexivity|]
  | |- wpc (pause _ _) _ _ => apply wpc_pause
  | |- wpc (setScrolls _ _) _ _ => apply wpc_setScrolls
  | |- wpc (mainLoop _ (S _) _) _ _ => rewrite mainLoop_S
  | |- wpc (awaitResolve _ (S _)) _ _ => rewrite awaitResolve_S
  | |- wpc (fun st => let (wk, w) := _ in _) _ _ => apply wpc_await
  | |- wpc (aggressiveLoop _ _ _ _ _ _) _ _ =>
      first
        [ apply wpc_loop_done; [vm_compute; lia |]
        | apply wpc_loop_break; [vm_compute; lia | vm_compute; reflexivity
                                | vm_compute; reflexivity |]
        | apply wpc_loop_stay; [vm_compute; lia | vm_compute; reflexivity
                               | vm_compute; reflexivity |]
        | apply wpc_loop_move; [vm_compute; lia | vm_compute; reflexivity |] ]
  | |- wpc (if ?c then _ else _) _ _ =>
      let v := eval vm_compute in c in
      lazymatch v with
      | true => change c with true; cbv iota
      | false => change c with false; cbv iota
      | _ => destruct c eqn:?; cbv iota
      end
  | |- wpc (match ?c with TimerFired => _ | Mutations _ => _ end) _ _ =>
      let v := eval cbv in c in change c with v; cbv iota
  end;
  cbv beta iota zeta.

(** Unfold the phases of the run, one layer at a time. *)
Ltac sim_delta :=
  cbv delta [clickAllHeartsFrom loopBody bottomCheck aggressiveScroll waitForMutations
             afterCycle mutationCallback getScrollTop getScrollHeight getClientHeight
             scrollToEnd];
  cbv beta zeta.

(** Reduce the reads of the state and of the simulated page. *)
Ltac sim_simpl :=
  cbn [scrollsWithoutNewHearts totalHeartsClicked processedHeartsInCycle resolve page
       set_scrolls set_total set_processed set_resolve set_page initial
       world documentElement body querySelectorAll_hearts offsetParent_null
       classList_contains_filled click querySelector_grid scrollY innerHeight
       body_scrollHeight scrollTop clientHeight scrollHeight window_scrollTo
       set_scrollTop sleep observe disconnect set_timeout clear_timeout await_wakeup
       simHost simAwait simScrollTo twoPages withDom afterAttempt fst snd Nat.eqb
       dom nextPage notifies responsive growthRequested top height client app].

(** A scan of the simulated page: nothing to click, the first page, or the
    second page after the first. *)
Ltac sim_pass ND1 ND :=
  lazymatch goal with
  | |- wpc (processVisibleHearts simHost) _ ?st =>
      first
        [ eapply wpc_eq; [eapply sim_pass_none; sim_simpl; reflexivity |]
        | eapply wpc_eq; [eapply (sim_pass_clicks []); [sim_simpl; reflexivity | exact ND1] |]
        | eapply wpc_eq; [eapply sim_pass_clicks; [sim_simpl; reflexivity | exact ND] |] ];
      cbn [clickedNodes foundLine]; rewrite ?clickedNodes_clickBlocks
  end.

(** Keep the continuation folded while a step is taken. *)
Ltac hide_post :=
  lazymatch goal with
  | |- wpc _ ?Q _ => first [is_var Q | let q := fresh "post" in set (q := Q)]
  end.

Ltac reveal_post :=
  repeat match goal with
         | |- ?q _ _ _ => is_var q; subst q; cbv beta iota
         end.

(** Put the state back in the form of a record of values. *)
Ltac sim_state :=
  lazymatch goal with
  | |- wpc ?m ?Q ?st =>
      let st' := eval cbv beta iota delta
                   [scrollsWithoutNewHearts totalHeartsClicked processedHeartsInCycle
                    resolve page set_scrolls set_total set_processed set_resolve set_page
                    initial twoPages withDom dom nextPage notifies responsive
                    growthRequested top height client] in st in
      change (wpc m Q st')
  | _ => idtac
  end.

Ltac sim_step ND1 ND2 :=
  hide_post;
  first [ wpc_step | sim_pass ND1 ND2 | progress sim_delta ];
  sim_simpl; reveal_post; cbn [app]; sim_state.

(** The whole run on the two-page simulation, executed symbolically: page 1 is
    clicked by the initial scan, the first scroll reveals page 2, which the
    scan after the wait clicks; the remaining iterations find nothing and
    count up to the threshold. *)
Lemma two_pages_wpc (notify : bool) (page1 page2 : list node) (extra : nat) :
  NoDup (page1 ++ page2) ->
  wpc (clickAllHeartsFrom simHost (S (S (S (S extra)))))
     (fun r st clicked =>
        r = Ret (String.append "Total hearts clicked: "
                   (show (List.length page1 + List.length page2)))
        /\ clicked = page1 ++ page2
        /\ scrollsWithoutNewHearts st = maxScrollsWithoutNewHearts)
     (initial simHost (twoPages notify page1 page2)).
Proof.
  intros ND.
  assert (ND1 : NoDup ([] ++ page1)) by (simpl; eapply NoDup_app_remove_r; exact ND).
  assert (ND2 : NoDup (([] ++ page1) ++ page2)) by (simpl; exact ND).
  destruct notify.
  all: repeat sim_step ND1 ND2.
  all: split; [|split];
    [cbn [Nat.add]; reflexivity | rewrite ?app_nil_r; reflexivity | reflexivity].
Qed.

(** C4, as stated, fails: on a two-page document with five hearts the run
    clicks all five and returns, but the no-progress counter is then at the
    threshold, not strictly below it (the loop of lines 127-233 is only left
    with the counter at the threshold). *)
Lemma two_pages_counter_reaches_threshold :
  let run := clickAllHearts simHost 10 (twoPages true [2; 3] [4; 5; 6]) in
  outcomeOf run = Ret "Total hearts clicked: 5"%string
  /\ clickedNodes (traceOf run) = [2; 3; 4; 5; 6]
  /\ ~ scrollsWithoutNewHearts (stateOf run) < maxScrollsWithoutNewHearts.
Proof.
  vm_compute. repeat split. intros L. apply Nat.leb_le in L. discriminate L.
Qed.

(** C4, amended. On the simulated document whose N hearts are split across
    two pages, page 2 arriving during the first wait that follows a scroll
    (with or without a mutation notification), the run clicks every heart
    exactly once, page 1 then page 2 in document order, returns the summary
    [Total hearts clicked: N], and ends with the no-progress counter equal
    to the threshold maxScrollsWithoutNewHearts. *)
Theorem two_pages_all_clicked (notify : bool) (page1 page2 : list node) (extra : nat) :
  NoDup (page1 ++ page2) ->
  let run := clickAllHearts simHost (4 + extra) (twoPages notify page1 page2) in
  outcomeOf run
  = Ret (String.append "Total hearts clicked: "
           (show (List.length page1 + List.length page2)))
  /\ clickedNodes (traceOf run) = page1 ++ page2
  /\ scrollsWithoutNewHearts (stateOf run) = maxScrollsWithoutNewHearts.
Proof.
  intros ND. exact (two_pages_wpc notify page1 page2 extra ND).
Qed.

Lemma two_pages_all_clicked_witness :
  NoDup ([2; 3] ++ [4; 5; 6])
  /\ (let run := clickAllHearts simHost (4 + 6) (twoPages false [2; 3] [4; 5; 6]) in
      outcomeOf run
      = Ret (String.append "Total hearts clicked: "
               (show (List.length [2; 3] + List.length [4; 5; 6])))
      /\ clickedNodes (traceOf run) = [2; 3] ++ [4; 5; 6]
      /\ scrollsWithoutNewHearts (stateOf run) = maxScrollsWithoutNewHearts).
Proof.
  assert (ND : NoDup ([2; 3] ++ [4; 5; 6])).
  { simpl. repeat constructor; simpl; intuition discriminate. }
  split; [exact ND | exact (two_pages_all_clicked false [2; 3] [4; 5; 6] 6 ND)].
Defined.

(** ** Mutation batches and the wait *)

Lemma isExcludedTag_In t : isExcludedTag t = true <-> In t excludedTags.
Proof.
  unfold isExcludedTag, excludedTags. simpl.
  rewrite !orb_true_iff, !String.eqb_eq. intuition congruence.
Qed.

Lemma relevantMutationDetected_iff ms :
  relevantMutationDetected ms = true
  <-> exists m n, In m ms /\ mtype m = "childList"%string /\ In n (addedNodes m)
                  /\ nodeType n = ELEMENT_NODE /\ ~ In (tagName n) excludedTags.
Proof.
  unfold relevantMutationDetected, hasNonScriptOrStyleNodes.
  rewrite existsb_exists. split.
  - intros (m & Im & C). apply andb_true_iff in C as [C E].
    apply andb_true_iff in C as [T _]. apply String.eqb_eq in T.
    apply existsb_exists in E as (n & In_n & N).
    apply andb_true_iff in N as [N X]. apply Z.eqb_eq in N.
    exists m, n. repeat split; auto.
    rewrite <- isExcludedTag_In. destruct (isExcludedTag (tagName n)); [discriminate|auto].
  - intros (m & n & Im & T & In_n & N & X). exists m. split; [exact Im|].
    rewrite <- isExcludedTag_In in X.
    rewrite !andb_true_iff. repeat split.
    + apply String.eqb_eq. exact T.
    + apply Nat.ltb_lt. destruct (addedNodes m); [contradiction|simpl; lia].
    + apply existsb_exists. exists n. split; [exact In_n|].
      apply andb_true_iff. split; [apply Z.eqb_eq; exact N|].
      destruct (isExcludedTag (tagName n)); [contradiction X; reflexivity|reflexivity].
Qed.

(** X1.  [mutationCallback] acts only on a batch that holds a [childList]
    record adding an element node whose tag is none of SCRIPT, STYLE and
    LINK.  Any other batch (attribute changes, text nodes, scripts, styles,
    links) is ignored: nothing is printed, scanned, cleared or resolved and
    the state is left as it is.  A batch that does hold such a node prints
    the detection line, clears the timer if a wait is pending, and
    pauses 300 ms before scanning. *)
Theorem irrelevant_mutations_are_ignored (H : Host) (ms : list MutationRecord) (st : St H) :
  ((forall m n, In m ms -> In n (addedNodes m) ->
      mtype m <> "childList"%string \/ nodeType n <> ELEMENT_NODE
      \/ In (tagName n) excludedTags) ->
   mutationCallback H ms st = (Ret false, st, []))
  /\ ((exists m n, In m ms /\ mtype m = "childList"%string /\ In n (addedNodes m)
                   /\ nodeType n = ELEMENT_NODE /\ ~ In (tagName n) excludedTags) ->
      exists rest,
        traceOf (mutationCallback H ms st)
        = Log "MutationObserver: Detected new relevant nodes." []
            :: (if resolve st then [ClearTimeout] else [])
            ++ Pause 300 :: rest).
Proof.
  split.
  - intros I.
    assert (R : relevantMutationDetected ms = false).
    { destruct (relevantMutationDetected ms) eqn:E; [|reflexivity].
      apply relevantMutationDetected_iff in E as (m & n & Im & T & In_n & N & X).
      destruct (I m n Im In_n) as [A | [A | A]]; contradiction. }
    unfold mutationCallback. rewrite R. reflexivity.
  - intros E. apply relevantMutationDetected_iff in E.
    unfold mutationCallback. rewrite E.
    unfold_ops. simpl.
    destruct (resolve st); simpl.
    all: match goal with
         | |- context [processVisibleHearts ?h ?s] =>
             destruct (processVisibleHearts_spec h s) as (n & st' & evs & P & _);
             rewrite P
         end; simpl.
    all: destruct (0 <? n); simpl; eexists; reflexivity.
Qed.

Lemma irrelevant_mutations_are_ignored_witness :
  mutationCallback atBottom
    [ {| mtype := "attributes"; addedNodes := [] |};
      {| mtype := "childList";
         addedNodes := [ {| nodeType := 1; tagName := "SCRIPT" |};
                         {| nodeType := 3; tagName := "" |} ] |} ]
    (initial atBottom tt)
  = (Ret false, initial atBottom tt, []).
Proof.
  apply (proj1 (irrelevant_mutations_are_ignored atBottom _ (initial atBottom tt))).
  intros m n Im In_n.
  destruct Im as [<- | [<- | []]]; simpl in In_n.
  - destruct In_n.
  - destruct In_n as [<- | [<- | []]].
    + right. right. left. reflexivity.
    + right. left. discriminate.
Defined.

Section Callback.

Variable H : Host.
Implicit Types st : St H.

Lemma mutationCallback_effects ms st :
  wp (mutationCallback H ms)
     (fun r st' evs =>
        r = Ret (relevantMutationDetected ms && resolve st)
        /\ scrollsWithoutNewHearts st' = scrollsWithoutNewHearts st
        /\ resolve st' = resolve st
        /\ totalHeartsClicked st' = totalHeartsClicked st + nclicks evs
        /\ processedHeartsInCycle st' = processedHeartsInCycle st || (0 <? nclicks evs)
        /\ forallb quiet evs = true) st.
Proof.
  unfold mutationCallback. destruct (relevantMutationDetected ms).
  2:{ wp_step. simpl. rewrite orb_false_r. repeat split; auto. }
  wp_steps. wp_if; wp_steps.
  all: wp_use pass_wp; intros r st' evs (n & -> & (K1 & K2 & K3) & T & N & Q).
  all: wp_steps; wp_if; wp_steps.
  all: st_simpl; simpl in K1, K2, K3, T.
  all: rewrite ?nclicks_app, ?forallb_app, ?Q; simpl; rewrite ?Nat.add_0_r.
  all: rewrite <- N, ?Heqb0, ?orb_true_r, ?orb_false_r.
  all: repeat split; try congruence; try lia.
Qed.

End Callback.

(** X2.  What [mutationCallback] itself does: it never throws and never
    writes the no-progress counter; it resolves a promise only for a batch
    it finds relevant; each click of its scan that returns adds one to
    [totalHeartsClicked]; and it sets [processedHeartsInCycle] when, and
    only when, its scan clicked a heart, never clearing it. *)
Theorem callback_leaves_the_counter_alone (H : Host) (ms : list MutationRecord) (st : St H) :
  let call := mutationCallback H ms st in
  (exists b, outcomeOf call = Ret b /\ (b = true -> relevantMutationDetected ms = true))
  /\ scrollsWithoutNewHearts (stateOf call) = scrollsWithoutNewHearts st
  /\ counterWrites (traceOf call) = []
  /\ totalHeartsClicked (stateOf call) = totalHeartsClicked st + nclicks (traceOf call)
  /\ processedHeartsInCycle (stateOf call)
     = processedHeartsInCycle st || (0 <? nclicks (traceOf call)).
Proof.
  pose proof (mutationCallback_effects H ms st) as W.
  apply wp_inv in W as (r & st' & evs & E & R & C & Rs & T & P & Q).
  cbv zeta. rewrite E. unfold outcomeOf, stateOf, traceOf. simpl.
  split.
  - eexists. split; [exact R|]. intros B. apply andb_true_iff in B. apply B.
  - repeat split; auto. apply counterWrites_quiet. exact Q.
Qed.

Lemma waitForMutations_flags (H : Host) fuel (st : St H) :
  wp (waitForMutations H fuel)
     (fun r st' evs =>
        processedHeartsInCycle st' = (0 <? nclicks evs)
        /\ scrollsWithoutNewHearts st' = scrollsWithoutNewHearts st
        /\ counterWrites evs = []
        /\ totalHeartsClicked st' = totalHeartsClicked st + nclicks evs
        /\ (r = Ret tt -> resolve st' = false)
        /\ (r = Ret tt \/ r = Diverge)
        /\ iterations evs = 0) st.
Proof.
  unfold waitForMutations. wp_steps.
  eapply wp_mono; [apply awaitResolve_wp; reflexivity|]. cbv beta.
  intros r st1 ev1 (O & C1 & R1 & T1 & Q1 & P1 & P2).
  pose proof (counterWrites_quiet _ Q1) as CW.
  pose proof (iterations_quiet _ Q1) as IT.
  assert (P : processedHeartsInCycle st1 = (0 <? nclicks ev1)).
  { destruct (nclicks ev1) as [|k] eqn:N.
    - rewrite P2 by reflexivity. reflexivity.
    - apply P1. lia. }
  st_simpl. simpl in C1, T1.
  destruct O as [-> | [-> Z0]].
  - wp_steps. st_simpl.
    rewrite ?nclicks_app, ?counterWrites_app, ?iterations_app, CW, IT. simpl.
    rewrite ?Nat.add_0_r. repeat split; auto.
  - simpl. rewrite CW, IT. repeat split; auto. discriminate.
Qed.

(** ** The loop runs only while hearts are found *)

Section Progress.

Variable H : Host.
Implicit Types st : St H.

Lemma bottomCheck_keeps st :
  wp (bottomCheck H)
     (fun r st' evs =>
        nclicks evs = 0 -> scrollsWithoutNewHearts st <= scrollsWithoutNewHearts st') st.
Proof.
  unfold bottomCheck. wp_steps. wp_use pass_wp.
  intros r st1 ev1 (n & -> & (K1 & K2 & K3) & T & N & Q).
  wp_steps. wp_if; wp_steps.
  2: wp_if; wp_steps.
  all: match goal with
       | |- wp (if ?c then _ else _) _ _ => destruct c
       end; wp_steps.
  all: st_simpl; simpl; rewrite ?nclicks_app; simpl; rewrite ?Nat.add_0_r.
  all: try (apply Nat.ltb_lt in Heqb; lia).
  all: intros _; lia.
Qed.

Lemma bottomCheck_progress st :
  scrollsWithoutNewHearts st < maxScrollsWithoutNewHearts ->
  wp (bottomCheck H)
     (fun r st' evs =>
        exists b, r = Ret b
          /\ b = (maxScrollsWithoutNewHearts <=? scrollsWithoutNewHearts st')
          /\ scrollsWithoutNewHearts st' <= maxScrollsWithoutNewHearts
          /\ (nclicks evs = 0 -> scrollsWithoutNewHearts st <= scrollsWithoutNewHearts st')
          /\ iterations evs = 0) st.
Proof.
  intros C.
  eapply wp_mono;
    [exact (wp_conj H _ _ _ _ (bottomCheck_wp H st C) (bottomCheck_keeps st))|].
  cbv beta. intros r st' evs [(b & -> & C' & B & T & CB & RS & I) P].
  exists b. repeat split; auto. apply iterations_inner. exact I.
Qed.

Lemma afterCycle_counts st :
  wp (afterCycle H)
     (fun r st' evs =>
        nclicks evs = 0 -> processedHeartsInCycle st = false ->
        scrollsWithoutNewHearts st' = S (scrollsWithoutNewHearts st)) st.
Proof.
  unfold afterCycle. wp_steps. wp_if; wp_steps.
  2:{ wp_use pass_wp.
      intros r st1 ev1 (n & -> & (K1 & K2 & K3) & T & N & Q).
      wp_steps. wp_if; wp_steps.
      all: st_simpl; simpl; rewrite ?nclicks_app; simpl; rewrite ?Nat.add_0_r.
      - apply Nat.ltb_lt in Heqb0. lia.
      - intros _ _. congruence. }
  st_simpl. intros _ F. congruence.
Qed.

Lemma afterCycle_progress st :
  scrollsWithoutNewHearts st < maxScrollsWithoutNewHearts ->
  wp (afterCycle H)
     (fun r st' evs =>
        r = Ret tt
        /\ scrollsWithoutNewHearts st' <= maxScrollsWithoutNewHearts
        /\ (nclicks evs = 0 -> processedHeartsInCycle st = false ->
            scrollsWithoutNewHearts st' = S (scrollsWithoutNewHearts st))
        /\ iterations evs = 0) st.
Proof.
  intros C.
  eapply wp_mono;
    [exact (wp_conj H _ _ _ _ (afterCycle_wp H st C) (afterCycle_counts st))|].
  cbv beta. intros r st' evs [(-> & C' & T & CB & I & RS) P].
  repeat split; auto. apply iterations_inner. exact I.
Qed.

Lemma loopBody_progress fuel st :
  scrollsWithoutNewHearts st < maxScrollsWithoutNewHearts ->
  wp (loopBody H fuel)
     (fun r st' evs =>
        iterations evs = 1
        /\ (r = Ret false ->
            1 + scrollsWithoutNewHearts st
            <= maxScrollsWithoutNewHearts * nclicks evs + scrollsWithoutNewHearts st')) st.
Proof.
  intros C. unfold loopBody. wp_steps.
  set (el := match querySelector_grid H (page st) with
             | Some g => g | None => documentElement H end).
  set (isWin := el =? documentElement H).
  assert (Rest : forall st0 pre,
    scrollsWithoutNewHearts st0 < maxScrollsWithoutNewHearts ->
    iterations pre = 0 ->
    (nclicks pre = 0 -> scrollsWithoutNewHearts st <= scrollsWithoutNewHearts st0) ->
    wp (bind H (aggressiveScroll H fuel isWin el)
          (fun _ => bind H (waitForMutations H fuel)
             (fun _ => bind H (afterCycle H) (fun _ => ret H false))))
       (fun r st' evs =>
          iterations (Iteration :: pre ++ evs) = 1
          /\ (r = Ret false ->
              1 + scrollsWithoutNewHearts st
              <= maxScrollsWithoutNewHearts * nclicks (Iteration :: pre ++ evs)
                 + scrollsWithoutNewHearts st')) st0).
  { intros st0 pre C0 I0 P0.
    wp_use aggressiveScroll_wp.
    intros r st1 ev1 (O1 & (K1 & K2 & K3) & T1 & S1).
    pose proof (iterations_quiet _ (silent_quiet _ S1)) as I1.
    pose proof (nclicks_silent _ S1) as N1.
    destruct O1 as [[[] ->]| ->].
    2:{ simpl. rewrite iterations_app, I0, I1. split; [reflexivity|discriminate]. }
    wp_use waitForMutations_flags.
    intros r st2 ev2 (P2 & C2 & _ & _ & _ & O2 & I2).
    destruct O2 as [-> | ->].
    2:{ simpl. rewrite !iterations_app, I0, I1, I2. split; [reflexivity|discriminate]. }
    wp_use afterCycle_progress; [lia|].
    intros r st3 ev3 (-> & C3 & P3 & I3).
    wp_steps. simpl. rewrite !app_nil_r.
    rewrite !iterations_app, !nclicks_app, I0, I1, I2, I3, N1.
    split; [reflexivity|]. intros _.
    unfold maxScrollsWithoutNewHearts in *.
    destruct (nclicks pre) as [|a]; [|lia].
    destruct (nclicks ev2) as [|b]; [|lia].
    destruct (nclicks ev3) as [|c]; [|lia].
    specialize (P0 eq_refl). specialize (P3 eq_refl P2). lia. }
  destruct (negb (canStillScroll H isWin el (page st))).
  - wp_use bottomCheck_progress; [exact C|].
    intros r st1 ev1 (b & -> & B1 & C1 & P1 & I1).
    destruct b.
    + wp_steps. simpl. rewrite app_nil_r, I1. split; [reflexivity|discriminate].
    + symmetry in B1. apply Nat.leb_gt in B1. cbv beta iota.
      eapply wp_mono; [apply (Rest st1 ev1 B1 I1 P1)|].
      cbv beta. intros r st' evs P. exact P.
  - wp_step.
    eapply wp_mono; [apply (Rest st [] C eq_refl); auto|].
    cbv beta. intros r st' evs P. exact P.
Qed.

Lemma mainLoop_progress fuel inner : forall st,
  scrollsWithoutNewHearts st <= maxScrollsWithoutNewHearts ->
  wp (mainLoop H fuel inner)
     (fun r st' evs =>
        iterations evs + scrollsWithoutNewHearts st
        <= maxScrollsWithoutNewHearts * nclicks evs + maxScrollsWithoutNewHearts) st.
Proof.
  induction fuel as [|fuel IH]; intros st C; cbn [mainLoop]; wp_steps.
  - destruct (scrollsWithoutNewHearts st <? maxScrollsWithoutNewHearts); wp_steps;
      cbn [app iterations nclicks]; lia.
  - destruct (scrollsWithoutNewHearts st <? maxScrollsWithoutNewHearts) eqn:L; wp_steps.
    2:{ cbn [app iterations nclicks]. lia. }
    apply Nat.ltb_lt in L.
    eapply wp_mono;
      [exact (wp_conj H _ _ _ _ (loopBody_wp H inner st L)
                (loopBody_progress inner st L))|].
    cbv beta.
    intros r st1 ev1 [(O1 & C1 & _) (I1 & P1)].
    destruct O1 as [(b & -> & B1) | ->]; cbv beta iota; cbn [app].
    2:{ rewrite I1. unfold maxScrollsWithoutNewHearts in *. lia. }
    destruct b; cbv beta iota.
    + wp_step. rewrite app_nil_r, I1. unfold maxScrollsWithoutNewHearts in *. lia.
    + eapply wp_mono; [apply (IH st1 C1)|]. cbv beta.
      intros r st2 ev2 P2. specialize (P1 eq_refl).
      rewrite iterations_app, nclicks_app, I1.
      unfold maxScrollsWithoutNewHearts in *. lia.
Qed.

Lemma clickAllHearts_progress fuel w :
  wp (clickAllHeartsFrom H fuel)
     (fun r st' evs =>
        iterations evs <= maxScrollsWithoutNewHearts * (nclicks evs + 1))
     (initial H w).
Proof.
  unfold clickAllHeartsFrom. wp_steps. wp_use pass_wp.
  intros r st1 ev1 (n & -> & (K1 & K2 & K3) & T1 & N1 & Q1).
  pose proof (iterations_quiet _ Q1) as I1. simpl in K1.
  assert (Loop : forall st0 pre,
    scrollsWithoutNewHearts st0 = 0 -> iterations pre = 0 ->
    wp (bind H (mainLoop H fuel fuel)
          (fun _ => bind H (call H Disconnect (disconnect H))
             (fun _ => bind H (get H totalHeartsClicked)
                (fun t => bind H (log H "Finished. Total hearts clicked: ${totalHeartsClicked}." [Z.of_nat t])
                   (fun _ => bind H (get H scrollsWithoutNewHearts)
                      (fun c => bind H
                         (if maxScrollsWithoutNewHearts <=? c
                          then log H "Stopped after ${scrollsWithoutNewHearts} scroll attempts without new hearts or reaching bottom." [Z.of_nat c]
                          else log H "Stopped because no more scrollable content was detected or loop completed naturally." [])
                         (fun _ => ret H (String.append "Total hearts clicked: " (show t)))))))))
       (fun r st' evs =>
          iterations (pre ++ evs) <= maxScrollsWithoutNewHearts * (nclicks (pre ++ evs) + 1))
       st0).
  { intros st0 pre C0 I0.
    wp_use mainLoop_progress; [lia|].
    intros r st2 ev2 P2. rewrite C0 in P2.
    destruct r as [[]| |].
    2,3: rewrite iterations_app, nclicks_app, I0;
      unfold maxScrollsWithoutNewHearts in *; lia.
    wp_steps.
    match goal with
    | |- wp (if ?c then _ else _) _ _ => destruct c; cbv iota
    end; wp_steps.
    all: rewrite !iterations_app, !nclicks_app, I0; simpl.
    all: unfold maxScrollsWithoutNewHearts in *; lia. }
  destruct (0 <? n); cbv iota.
  - do 4 wp_step.
    eapply wp_mono; [apply (Loop _ (ev1 ++ [Log "Processed ${heartsProcessedInitially} hearts on initial (post-manual-scroll) load." [Z.of_nat n]; CounterSet 0]))|].
    + reflexivity.
    + rewrite iterations_app, I1. reflexivity.
    + cbv beta. intros r st' evs P. 
      repeat rewrite <- app_assoc in *. simpl in *. exact P.
  - do 2 wp_step.
    eapply wp_mono; [apply (Loop _ (ev1 ++ [Log "No hearts found on initial (post-manual-scroll) load. This might be okay if all visible were already filled." []]))|].
    + st_simpl. exact K1.
    + rewrite iterations_app, I1. reflexivity.
    + cbv beta. intros r st' evs P.
      repeat rewrite <- app_assoc in *. simpl in *. exact P.
Qed.

End Progress.

(** X5.  In every run, finished or cut short, the main loop is entered at
    most [maxScrollsWithoutNewHearts] times for each heart clicked, plus
    [maxScrollsWithoutNewHearts] times: every iteration that clicks
    nothing counts towards the threshold. *)
Theorem iterations_bounded_by_clicks (H : Host) (fuel : nat) (w : world H) :
  iterations (traceOf (clickAllHearts H fuel w))
  <= maxScrollsWithoutNewHearts * (nclicks (traceOf (clickAllHearts H fuel w)) + 1).
Proof. exact (clickAllHearts_progress H fuel w). Qed.

(** ** A run that returns *)

Lemma sticky_mainLoop outer inner : forall st : St sticky,
  scrollsWithoutNewHearts st = 0 ->
  outcomeOf (mainLoop sticky outer (S inner) st) = Diverge.
Proof.
  induction outer as [|outer IH]; intros [c t p r []] C; simpl in C; subst c.
  - reflexivity.
  - rewrite mainLoop_S.
    unfold bind at 1. unfold get at 1. cbn [scrollsWithoutNewHearts].
    change (0 <? maxScrollsWithoutNewHearts) with true. cbv iota.
    unfold bind at 1.
    destruct (loopBody sticky (S inner) _) as [[r1 st1] ev1] eqn:E.
    vm_compute in E. injection E as <- <- <-.
    match goal with
    | |- context [mainLoop sticky outer (S inner) ?s] =>
        specialize (IH s eq_refl);
        destruct (mainLoop sticky outer (S inner) s) as [[r2 st2] ev2]
    end.
    unfold outcomeOf in *. simpl in *. exact IH.
Qed.

Lemma sticky_run fuel : outcomeOf (clickAllHearts sticky fuel tt) = Diverge.
Proof.
  change (wp (clickAllHeartsFrom sticky fuel) (fun r _ _ => r = Diverge)
            (initial sticky tt)).
  unfold clickAllHeartsFrom. wp_steps.
  eapply wp_eq; [vm_compute; reflexivity|]. cbv beta iota.
  change (0 <? 1) with true. cbv iota. wp_steps.
  match goal with
  | |- wp (mainLoop sticky fuel fuel) _ ?s =>
      destruct (mainLoop sticky fuel fuel s) as [[r2 st2] ev2] eqn:E2;
      assert (D : r2 = Diverge);
      [ destruct fuel as [|k];
        [ vm_compute in E2; congruence
        | pose proof (sticky_mainLoop (S k) k s eq_refl) as D;
          rewrite E2 in D; exact D ]
      | eapply wp_eq; [exact E2|]; subst r2; reflexivity ]
  end.
Qed.

(** C3 as stated fails: a run need not return.  On a page whose one
    heart stays unfilled however often it is clicked, every scan clicks it,
    every iteration sets the no-progress counter back to zero, and the
    main loop never ends, whatever the fuel. *)
Lemma run_on_sticky_page_never_returns :
  ~ (exists fuel, outcomeOf (clickAllHearts sticky fuel tt) <> Diverge).
Proof. intros [fuel N]. apply N. apply sticky_run. Qed.

(** *** Pages the run stays within *)

Section PageKept.

Variable H : Host.
Variable Inv : world H -> Prop.
Hypothesis HK : hostKeeps H Inv.

Lemma pk_ret {A} (a : A) : pageKept Inv (ret H a).
Proof. intros st I. exact I. Qed.

Lemma pk_bind {A B} (m : M H A) (k : A -> M H B) :
  pageKept Inv m -> (forall a, pageKept Inv (k a)) -> pageKept Inv (bind H m k).
Proof.
  intros Hm Hk st I. unfold bind. specialize (Hm st I).
  destruct (m st) as [[[a|e|] st1] ev1]; simpl in *; auto.
  specialize (Hk a st1 Hm). destruct (k a st1) as [[r st2] ev2]. exact Hk.
Qed.

Lemma pk_try_catch {A} (m : M H A) (h : exn -> M H A) :
  pageKept Inv m -> (forall e, pageKept Inv (h e)) -> pageKept Inv (try_catch H m h).
Proof.
  intros Hm Hh st I. unfold try_catch. specialize (Hm st I).
  destruct (m st) as [[[a|e|] st1] ev1]; simpl in *; auto.
  specialize (Hh e st1 Hm). destruct (h e st1) as [[r st2] ev2]. exact Hh.
Qed.

Lemma pk_emit e : pageKept Inv (emit H e).
Proof. intros st I. exact I. Qed.

Lemma pk_log t a : pageKept Inv (log H t a).
Proof. intros st I. exact I. Qed.

Lemma pk_get {A} (f : St H -> A) : pageKept Inv (get H f).
Proof. intros st I. exact I. Qed.

Lemma pk_read {A} (f : world H -> A) : pageKept Inv (read H f).
Proof. intros st I. exact I. Qed.

Lemma pk_modify f : (forall st, page (f st) = page st) -> pageKept Inv (modify H f).
Proof. intros P st I. unfold modify. simpl. rewrite P. exact I. Qed.

Lemma pk_setScrolls c : pageKept Inv (setScrolls H c).
Proof. intros st I. exact I. Qed.

Lemma pk_diverge {A} : pageKept Inv (@diverge H A).
Proof. intros st I. exact I. Qed.

Lemma pk_call e f : (forall w, Inv w -> Inv (f w)) -> pageKept Inv (call H e f).
Proof. intros F st I. unfold call. simpl. apply F. exact I. Qed.

Lemma pk_pause ms : pageKept Inv (pause H ms).
Proof. apply pk_call. apply HK. Qed.

Ltac pk_step :=
  lazymatch goal with
  | |- pageKept _ (bind _ _ _) => apply pk_bind; [|intros ?]
  | |- pageKept _ (try_catch _ _ _) => apply pk_try_catch; [|intros ?]
  | |- pageKept _ (ret _ _) => apply pk_ret
  | |- pageKept _ (log _ _ _) => apply pk_log
  | |- pageKept _ (pause _ _) => apply pk_pause
  | |- pageKept _ (setScrolls _ _) => apply pk_setScrolls
  | |- pageKept _ (get _ _) => apply pk_get
  | |- pageKept _ (read _ _) => apply pk_read
  | |- pageKept _ (modify _ _) => apply pk_modify; intros ?; reflexivity
  | |- pageKept _ (diverge _) => apply pk_diverge
  | |- pageKept _ (emit _ _) => apply pk_emit
  | |- pageKept _ (call _ _ _) => apply pk_call; intros ? ?; apply HK; assumption
  | |- pageKept _ (if ?c then _ else _) => destruct c
  end.

Lemma pk_forHearts l : forall passed, pageKept Inv (forHearts H l passed).
Proof.
  induction l as [|h tl IH]; intros passed; cbn [forHearts]; [apply pk_ret|].
  unfold clickHeart. repeat pk_step; auto.
  intros st I. destruct HK as (KC & _). specialize (KC h (page st) I).
  destruct (click H h (page st)) as [[e|] w]; exact KC.
Qed.

Lemma pk_processVisibleHearts : pageKept Inv (processVisibleHearts H).
Proof. unfold processVisibleHearts. repeat pk_step. apply pk_forHearts. Qed.

Lemma pk_mutationCallback ms : pageKept Inv (mutationCallback H ms).
Proof. unfold mutationCallback. repeat pk_step. apply pk_processVisibleHearts. Qed.

Lemma pk_awaitResolve fuel : pageKept Inv (awaitResolve H fuel).
Proof.
  induction fuel as [|fuel IH]; cbn [awaitResolve]; [apply pk_diverge|].
  apply pk_bind.
  - intros st I. destruct HK as (_ & _ & _ & _ & _ & _ & _ & _ & KA).
    specialize (KA (page st) I). destruct (await_wakeup H (page st)). exact KA.
  - intros [|ms]; repeat pk_step; auto. apply pk_mutationCallback.
Qed.

Lemma pk_aggressiveLoop isWin el fuel : forall attempts happened,
  pageKept Inv (aggressiveLoop H fuel isWin el attempts happened).
Proof.
  induction fuel as [|fuel IH]; intros attempts happened; cbn [aggressiveLoop].
  - repeat pk_step.
  - unfold getScrollTop, getScrollHeight, getClientHeight, scrollToEnd.
    repeat pk_step; auto; cbv zeta; repeat pk_step; auto.
Qed.

Lemma pk_aggressiveScroll isWin el fuel : pageKept Inv (aggressiveScroll H fuel isWin el).
Proof.
  unfold aggressiveScroll, getScrollTop, getScrollHeight, getClientHeight.
  repeat pk_step. apply pk_aggressiveLoop.
Qed.

Lemma pk_bottomCheck : pageKept Inv (bottomCheck H).
Proof. unfold bottomCheck. repeat pk_step. apply pk_processVisibleHearts. Qed.

Lemma pk_waitForMutations fuel : pageKept Inv (waitForMutations H fuel).
Proof. unfold waitForMutations. repeat pk_step. apply pk_awaitResolve. Qed.

Lemma pk_afterCycle : pageKept Inv (afterCycle H).
Proof. unfold afterCycle. repeat pk_step. apply pk_processVisibleHearts. Qed.

Lemma pk_loopBody fuel : pageKept Inv (loopBody H fuel).
Proof.
  unfold loopBody. repeat pk_step.
  - apply pk_bottomCheck.
  - apply pk_aggressiveScroll.
  - apply pk_waitForMutations.
  - apply pk_afterCycle.
Qed.

Lemma wp_kept {A} (m : M H A) st :
  pageKept Inv m -> Inv (page st) -> wp m (fun _ st' _ => Inv (page st')) st.
Proof. intros P I. exact (P st I). Qed.

End PageKept.

(** *** Enough fuel *)

Section Returns.

Variable H : Host.
Variable inner : nat.
Variable Inv : world H -> Prop.
Implicit Types st : St H.

Hypothesis HK : hostKeeps H Inv.
Hypothesis scrollEnds : forall isWin el attempts happened st,
  Inv (page st) ->
  outcomeOf (aggressiveLoop H inner isWin el attempts happened st) <> Diverge.
Hypothesis waitEnds : forall st,
  Inv (page st) -> resolve st = true ->
  outcomeOf (awaitResolve H inner st) <> Diverge.

Lemma aggressiveScroll_returns isWin el st :
  Inv (page st) ->
  wp (aggressiveScroll H inner isWin el) (fun r _ _ => r <> Diverge) st.
Proof.
  intros I.
  unfold aggressiveScroll, getScrollTop, getScrollHeight, getClientHeight.
  wp_steps.
  match goal with
  | |- wp (aggressiveLoop H inner isWin el 0 false) _ ?s =>
      eapply wp_mono;
        [exact (wp_conj H _ _ _ _ (aggressiveLoop_wp H inner isWin el 0 false s)
                  (wp_outcome H _ s))|]
  end.
  cbv beta. intros r st1 ev1 [(O & _) E].
  destruct O as [[happened ->] | ->].
  2:{ exfalso. symmetry in E. exact (scrollEnds _ _ _ _ _ I E). }
  wp_steps. wp_if; wp_steps.
  1: wp_if; wp_steps.
  all: discriminate.
Qed.

Lemma waitForMutations_returns st :
  Inv (page st) ->
  wp (waitForMutations H inner) (fun r _ _ => r <> Diverge) st.
Proof.
  intros I. unfold waitForMutations. wp_steps.
  match goal with
  | |- wp (awaitResolve H inner) _ ?s =>
      assert (R : resolve s = true) by reflexivity;
      assert (Is : Inv (page s))
        by (destruct HK as (_ & _ & _ & _ & KO & _ & KT & _);
            apply KT, KO; exact I);
      eapply wp_mono;
        [exact (wp_conj H _ _ _ _ (awaitResolve_wp H inner s R) (wp_outcome H _ s))|]
  end.
  cbv beta. intros r st1 ev1 [(O & _) E].
  destruct O as [-> | [-> _]].
  2:{ exfalso. symmetry in E. exact (waitEnds _ Is R E). }
  wp_steps. discriminate.
Qed.

Lemma loopBody_returns st :
  Inv (page st) ->
  scrollsWithoutNewHearts st < maxScrollsWithoutNewHearts ->
  wp (loopBody H inner) (fun r _ _ => r <> Diverge) st.
Proof.
  intros I C. unfold loopBody. wp_steps.
  set (el := match querySelector_grid H (page st) with
             | Some g => g | None => documentElement H end).
  set (isWin := el =? documentElement H).
  assert (Rest : forall st0,
    Inv (page st0) ->
    scrollsWithoutNewHearts st0 < maxScrollsWithoutNewHearts ->
    wp (bind H (aggressiveScroll H inner isWin el)
          (fun _ => bind H (waitForMutations H inner)
             (fun _ => bind H (afterCycle H) (fun _ => ret H false))))
       (fun r _ _ => r <> Diverge) st0).
  { intros st0 I0 C0. apply wp_bind.
    eapply wp_mono;
      [exact (wp_conj H _ _ _ _
                (wp_conj H _ _ _ _ (aggressiveScroll_wp H inner isWin el st0)
                   (aggressiveScroll_returns isWin el st0 I0))
                (wp_kept H Inv _ st0 (pk_aggressiveScroll H Inv HK isWin el inner) I0))|].
    cbv beta. intros r st1 ev1 [[(O1 & (K1 & _) & _) N1] I1].
    destruct O1 as [[[] ->] | ->]; [|contradiction N1; reflexivity].
    apply wp_bind.
    eapply wp_mono;
      [exact (wp_conj H _ _ _ _ (waitForMutations_wp H inner st1)
                (waitForMutations_returns st1 I1))|].
    cbv beta. intros r st2 ev2 [(O2 & C2 & _) N2].
    destruct O2 as [-> | [-> _]]; [|contradiction N2; reflexivity].
    wp_use afterCycle_wp; [lia|].
    intros r st3 ev3 (-> & _). wp_steps. discriminate. }
  destruct (negb (canStillScroll H isWin el (page st))).
  - eapply wp_mono;
      [exact (wp_conj H _ _ _ _ (bottomCheck_wp H st C)
                (wp_kept H Inv _ st (pk_bottomCheck H Inv HK) I))|].
    cbv beta. intros r st1 ev1 [(b & -> & C1 & B1 & _) I1].
    destruct b.
    + wp_steps. discriminate.
    + symmetry in B1. apply Nat.leb_gt in B1. cbv beta iota.
      eapply wp_mono; [apply (Rest st1 I1 B1)|]. cbv beta. auto.
  - wp_step. eapply wp_mono; [apply (Rest st I C)|]. cbv beta. auto.
Qed.

Lemma mainLoop_exhausts outer : forall st,
  Inv (page st) ->
  scrollsWithoutNewHearts st <= maxScrollsWithoutNewHearts ->
  wp (mainLoop H outer inner) (fun r _ evs => r = Diverge -> iterations evs = outer) st.
Proof.
  induction outer as [|outer IH]; intros st I C; cbn [mainLoop]; wp_steps.
  - destruct (scrollsWithoutNewHearts st <? maxScrollsWithoutNewHearts); wp_steps;
      [reflexivity | discriminate].
  - destruct (scrollsWithoutNewHearts st <? maxScrollsWithoutNewHearts) eqn:L; wp_steps.
    2: discriminate.
    apply Nat.ltb_lt in L.
    eapply wp_mono;
      [exact (wp_conj H _ _ _ _
                (wp_conj H _ _ _ _
                   (wp_conj H _ _ _ _ (loopBody_wp H inner st L)
                      (loopBody_progress H inner st L))
                   (loopBody_returns st I L))
                (wp_kept H Inv _ st (pk_loopBody H Inv HK inner) I))|].
    cbv beta.
    intros r st1 ev1 [[[(O1 & C1 & _) (I1 & _)] N1] K1].
    destruct O1 as [(b & -> & _) | ->]; [|contradiction N1; reflexivity].
    destruct b; cbv beta iota.
    + wp_step. discriminate.
    + eapply wp_mono; [apply (IH st1 K1 C1)|]. cbv beta.
      intros r st2 ev2 D2 D. cbn [app]. rewrite iterations_app, I1, (D2 D). reflexivity.
Qed.

End Returns.

Lemma clickAllHearts_exhausts (H : Host) (Inv : world H -> Prop) fuel (w : world H) :
  Inv w -> hostKeeps H Inv ->
  (forall isWin el attempts happened (st : St H),
     Inv (page st) ->
     outcomeOf (aggressiveLoop H fuel isWin el attempts happened st) <> Diverge) ->
  (forall st : St H,
     Inv (page st) -> resolve st = true ->
     outcomeOf (awaitResolve H fuel st) <> Diverge) ->
  wp (clickAllHeartsFrom H fuel)
     (fun r _ evs => r = Diverge -> fuel <= iterations evs) (initial H w).
Proof.
  intros I HK SE WE.
  unfold clickAllHeartsFrom. wp_steps.
  match goal with
  | |- wp (processVisibleHearts H) _ ?s =>
      eapply wp_mono;
        [exact (wp_conj H _ _ _ _ (pass_wp H s)
                  (wp_kept H Inv _ s (pk_processVisibleHearts H Inv HK) I))|]
  end.
  cbv beta.
  intros r st1 ev1 [(n & -> & (K1 & K2 & K3) & T1 & N1 & Q1) I1].
  simpl in K1.
  destruct (0 <? n); cbv iota; [do 4 wp_step | do 2 wp_step].
  all: wp_use (mainLoop_exhausts H fuel Inv HK SE WE fuel);
    [exact I1 | st_simpl; unfold maxScrollsWithoutNewHearts; lia|].
  all: intros r st2 ev2 D.
  all: destruct r as [[]| |]; [|discriminate|].
  all: try (intros _; rewrite ?iterations_app, (D eq_refl); simpl; lia).
  all: wp_steps;
    match goal with
    | |- wp (if ?c then _ else _) _ _ => destruct c; cbv iota
    end; wp_steps; discriminate.
Qed.

(** C3, amended.  At every point of a run [totalHeartsClicked] is the
    number of calls of [click()] that have returned, and a run that
    returns returns the string [Total hearts clicked: N] with [N] that
    number.  A run returns unless a scroll phase or a wait on the observer
    promise never ends or hearts keep being clicked: when, on the pages
    the run can reach ([Inv] is any set of pages that holds the first one
    and is closed under what the script and the page do), every
    aggressive scroll phase and every wait ends within [fuel] steps, a run
    that clicks [N] hearts with
    [maxScrollsWithoutNewHearts * (N + 1) < fuel] returns within [fuel]
    iterations of the main loop.  (Mutation batches are handled one at a
    time and the document has a body: see the model notes.) *)
Theorem run_returns_the_clicks_counted (H : Host) (fuel : nat) (w : world H) :
  let run := clickAllHearts H fuel w in
  let summary := String.append "Total hearts clicked: " (show (nclicks (traceOf run))) in
  totalHeartsClicked (stateOf run) = nclicks (traceOf run)
  /\ (outcomeOf run <> Diverge -> outcomeOf run = Ret summary)
  /\ (forall Inv : world H -> Prop,
        Inv w -> hostKeeps H Inv ->
        (forall isWin el attempts happened (st : St H),
           Inv (page st) ->
           outcomeOf (aggressiveLoop H fuel isWin el attempts happened st) <> Diverge) ->
        (forall st : St H,
           Inv (page st) -> resolve st = true ->
           outcomeOf (awaitResolve H fuel st) <> Diverge) ->
        maxScrollsWithoutNewHearts * (nclicks (traceOf run) + 1) < fuel ->
        outcomeOf run = Ret summary).
Proof.
  intros run summary. unfold summary, run, clickAllHearts.
  destruct (clickAllHearts_wp H fuel w) as (O0 & _ & T0 & _).
  split; [exact T0|].
  split.
  { intros ND. destruct O0 as [(E & _) | E]; [exact E | contradiction]. }
  intros Inv I HK SE WE.
  pose proof (wp_conj H _ _ _ _
                (wp_conj H _ _ _ _ (clickAllHearts_wp H fuel w)
                   (clickAllHearts_progress H fuel w))
                (clickAllHearts_exhausts H Inv fuel w I HK SE WE)) as W.
  apply wp_inv in W as (r & st' & evs & E & [(O & _ & T & _) P] & X).
  rewrite E. unfold outcomeOf, stateOf, traceOf. simpl. intros F.
  destruct O as [(-> & _) | ->]; [reflexivity|].
  specialize (X eq_refl). unfold maxScrollsWithoutNewHearts in *. lia.
Qed.

(** Once a scroll command leaves the page exactly as it is, the loop uses
    up its budget and returns. *)
Lemma aggressiveLoop_settled (H : Host) isWin el :
  forall fuel attempts happened (st : St H),
    afterAttempt H isWin el (page st) = page st ->
    maxAggressiveScrollAttemptsAtBottom - attempts <= fuel ->
    outcomeOf (aggressiveLoop H fuel isWin el attempts happened st) <> Diverge.
Proof.
  unfold maxAggressiveScrollAttemptsAtBottom.
  induction fuel as [|fuel IH]; intros a h st F L.
  - rewrite aggressiveLoop_done by (unfold maxAggressiveScrollAttemptsAtBottom; lia).
    discriminate.
  - destruct (Nat.lt_ge_cases a 3) as [A|A].
    2:{ rewrite aggressiveLoop_done by (unfold maxAggressiveScrollAttemptsAtBottom; lia).
        discriminate. }
    rewrite aggressiveLoop_step by (unfold maxAggressiveScrollAttemptsAtBottom; lia).
    cbv zeta.
    assert (U : unchangedBy H isWin el (page st) = true).
    { unfold unchangedBy. rewrite F. apply Z.leb_le. lia. }
    rewrite U, F.
    destruct (atEffectiveBottom H isWin el (page st) && true); [discriminate|].
    specialize (IH (S a) h (set_page (page st) st) F ltac:(lia)).
    destruct (aggressiveLoop H fuel isWin el (S a) h (set_page (page st) st))
      as [[r st'] evs].
    exact IH.
Qed.

Lemma simHost_scroll_idempotent isWin el (w : Sim) :
  afterAttempt simHost isWin el (afterAttempt simHost isWin el w)
  = afterAttempt simHost isWin el w.
Proof.
  unfold afterAttempt. destruct isWin; cbn [sleep set_scrollTop window_scrollTo
    body_scrollHeight scrollHeight simHost]; [|reflexivity].
  unfold simScrollTo. destruct (responsive w) eqn:R.
  - cbn [responsive height client]. reflexivity.
  - rewrite R. reflexivity.
Qed.

Lemma simHost_scroll_ends fuel isWin el attempts happened (st : St simHost) :
  4 <= fuel ->
  outcomeOf (aggressiveLoop simHost fuel isWin el attempts happened st) <> Diverge.
Proof.
  intros F. destruct fuel as [|fuel]; [lia|].
  destruct (Nat.lt_ge_cases attempts maxAggressiveScrollAttemptsAtBottom) as [A|A].
  2:{ rewrite aggressiveLoop_done by exact A. discriminate. }
  rewrite aggressiveLoop_step by exact A. cbv zeta.
  destruct (atEffectiveBottom simHost isWin el _ && _); [discriminate|].
  match goal with
  | |- context [aggressiveLoop simHost fuel isWin el ?a ?h ?s] =>
      pose proof (aggressiveLoop_settled simHost isWin el fuel a h s
                    (simHost_scroll_idempotent isWin el (page st))) as S;
      destruct (aggressiveLoop simHost fuel isWin el a h s) as [[r st'] evs]
  end.
  apply S. unfold maxAggressiveScrollAttemptsAtBottom. lia.
Qed.

Lemma simHost_wait_ends fuel (st : St simHost) :
  1 <= fuel -> resolve st = true ->
  outcomeOf (awaitResolve simHost fuel st) <> Diverge.
Proof.
  intros F R. destruct fuel as [|fuel]; [lia|].
  rewrite awaitResolve_S. unfold bind at 1.
  assert (W : await_wakeup simHost (page st) = (TimerFired, snd (simAwait (page st)))
              \/ await_wakeup simHost (page st)
                 = (Mutations newContent, snd (simAwait (page st)))).
  { cbn [await_wakeup simHost]. unfold simAwait.
    destruct (growthRequested (page st)); [|left; reflexivity].
    destruct (nextPage (page st)); [|left; reflexivity].
    destruct (notifies (page st)); [right | left]; reflexivity. }
  destruct W as [-> | ->].
  - unfold_ops. cbn. rewrite R. discriminate.
  - pose proof (mutationCallback_effects simHost newContent
                  (@set_page simHost (snd (simAwait (page st))) st)) as W.
    apply wp_inv in W as (r & st' & evs & E & -> & _).
    unfold bind. rewrite E. st_simpl. rewrite R.
    change (relevantMutationDetected newContent) with true. cbn. discriminate.
Qed.

(** A run over two pages of hearts returns the number of its clicks. *)
Lemma run_returns_the_clicks_counted_witness :
  outcomeOf (clickAllHearts simHost 25 (twoPages true [2; 3] [4; 5; 6]))
  = Ret "Total hearts clicked: 5"%string
  /\ nclicks (traceOf (clickAllHearts simHost 25 (twoPages true [2; 3] [4; 5; 6]))) = 5.
Proof.
  assert (N : nclicks (traceOf (clickAllHearts simHost 25 (twoPages true [2; 3] [4; 5; 6])))
              = 5) by (vm_compute; reflexivity).
  split; [|exact N].
  destruct (run_returns_the_clicks_counted simHost 25 (twoPages true [2; 3] [4; 5; 6]))
    as (_ & _ & R).
  rewrite (R (fun _ => True)), ?N.
  - reflexivity.
  - exact I.
  - repeat split; intros; exact I.
  - intros isWin el attempts happened st _. apply simHost_scroll_ends. lia.
  - intros st _. apply simHost_wait_ends. lia.
  - unfold maxScrollsWithoutNewHearts. lia.
Defined.

(** ** The end of a run *)

Lemma clickAllHearts_closing (H : Host) fuel (w : world H) :
  wp (clickAllHeartsFrom H fuel)
     (fun r st' evs =>
        r <> Diverge -> exists pre, evs = pre ++ closingLines (totalHeartsClicked st'))
     (initial H w).
Proof.
  unfold clickAllHeartsFrom. do 4 wp_step. wp_use pass_wp.
  intros r st1 ev1 (n & -> & (K1 & K2 & K3) & T1 & N1 & Q1).
  simpl in K1. apply wp_bind.
  apply (wp_eq H _ _ st1 (Ret tt) (set_scrolls 0 st1)
           (if 0 <? n
            then [Log "Processed ${heartsProcessedInitially} hearts on initial (post-manual-scroll) load." [Z.of_nat n]; CounterSet 0]
            else [Log "No hearts found on initial (post-manual-scroll) load. This might be okay if all visible were already filled." []])).
  { destruct (0 <? n); unfold_ops; [reflexivity|].
    destruct st1; simpl in *; subst; reflexivity. }
  set (first := if 0 <? n then _ else _). clearbody first.
  wp_use mainLoop_wp; [st_simpl; unfold maxScrollsWithoutNewHearts; lia|].
  intros r st2 ev2 (O2 & _).
  destruct O2 as [(-> & E2 & _) | ->]; [|intros F; contradiction F; reflexivity].
  wp_steps. st_simpl. rewrite E2. simpl Nat.leb. cbv iota. wp_steps.
  intros _. st_simpl.
  exists ([Log "clickAllHearts: Process starting now." []]
          ++ [Log "Starting heart clicking process (after initial manual scroll by user)..." []]
          ++ ev1 ++ first ++ ev2).
  unfold closingLines. cbn [app]. rewrite <- !app_assoc. cbn [app]. reflexivity.
Qed.

(** X6.  A run that finishes always ends with [observer.disconnect()], the
    line [Finished. Total hearts clicked: N.] with [N] the number of clicks
    that returned, and the line [Stopped after 4 scroll attempts ...]; the
    other closing line, of line 240, is never printed last. *)
Theorem finished_run_closing_lines (H : Host) (fuel : nat) (w : world H) :
  let run := clickAllHearts H fuel w in
  outcomeOf run <> Diverge ->
  exists pre, traceOf run = pre ++ closingLines (nclicks (traceOf run)).
Proof.
  intros run. unfold run, clickAllHearts.
  pose proof (wp_conj H _ _ _ _ (clickAllHearts_wp H fuel w)
                (clickAllHearts_closing H fuel w)) as W.
  apply wp_inv in W as (r & st' & evs & E & (_ & _ & T & _) & C).
  rewrite E. unfold outcomeOf, traceOf. simpl. intros ND.
  rewrite <- T. apply C. exact ND.
Qed.

Lemma finished_run_closing_lines_witness :
  exists pre,
    traceOf (clickAllHearts atBottom 4 tt)
    = pre ++ closingLines (nclicks (traceOf (clickAllHearts atBottom 4 tt))).
Proof.
  apply (finished_run_closing_lines atBottom 4 tt).
  vm_compute. discriminate.
Defined.

(** ** The elements a run acts on *)

Section EmitsOnly.

Variable H : Host.
Variable ok : event -> Prop.

Lemma eo_ret {A} (a : A) : emitsOnly ok (ret H a).
Proof. intros st. constructor. Qed.

Lemma eo_bind {A B} (m : M H A) (k : A -> M H B) :
  emitsOnly ok m -> (forall a, emitsOnly ok (k a)) -> emitsOnly ok (bind H m k).
Proof.
  intros Hm Hk st. unfold bind. specialize (Hm st).
  destruct (m st) as [[[a|e|] st1] ev1]; simpl in *; auto.
  specialize (Hk a st1). destruct (k a st1) as [[r st2] ev2]. simpl in *.
  apply Forall_app. auto.
Qed.

Lemma eo_bind_read {A B} (f : world H -> A) (k : A -> M H B) :
  (forall w, emitsOnly ok (k (f w))) -> emitsOnly ok (bind H (read H f) k).
Proof.
  intros Hk st. unfold bind, read. specialize (Hk (page st) st).
  destruct (k (f (page st)) st) as [[r st2] ev2]. simpl in *. exact Hk.
Qed.

Lemma eo_try_catch {A} (m : M H A) (h : exn -> M H A) :
  emitsOnly ok m -> (forall e, emitsOnly ok (h e)) -> emitsOnly ok (try_catch H m h).
Proof.
  intros Hm Hh st. unfold try_catch. specialize (Hm st).
  destruct (m st) as [[[a|e|] st1] ev1]; simpl in *; auto.
  specialize (Hh e st1). destruct (h e st1) as [[r st2] ev2]. simpl in *.
  apply Forall_app. auto.
Qed.

Lemma eo_emit e : ok e -> emitsOnly ok (emit H e).
Proof. intros O st. repeat constructor. exact O. Qed.

Lemma eo_call e f : ok e -> emitsOnly ok (call H e f).
Proof. intros O st. repeat constructor. exact O. Qed.

Lemma eo_get {A} (f : St H -> A) : emitsOnly ok (get H f).
Proof. intros st. constructor. Qed.

Lemma eo_read {A} (f : world H -> A) : emitsOnly ok (read H f).
Proof. intros st. constructor. Qed.

Lemma eo_modify f : emitsOnly ok (modify H f).
Proof. intros st. constructor. Qed.

Lemma eo_diverge {A} : emitsOnly ok (@diverge H A).
Proof. intros st. constructor. Qed.

Hypothesis okPlain : forall e, plain e = true -> ok e.

Lemma eo_log t a : emitsOnly ok (log H t a).
Proof. apply eo_emit. apply okPlain. reflexivity. Qed.

Lemma eo_pause ms : emitsOnly ok (pause H ms).
Proof. apply eo_call. apply okPlain. reflexivity. Qed.

Lemma eo_setScrolls c : emitsOnly ok (setScrolls H c).
Proof. intros st. repeat constructor. apply okPlain. reflexivity. Qed.

Ltac eo_step :=
  lazymatch goal with
  | |- emitsOnly _ (bind _ _ _) => apply eo_bind; [|intros ?]
  | |- emitsOnly _ (ret _ _) => apply eo_ret
  | |- emitsOnly _ (log _ _ _) => apply eo_log
  | |- emitsOnly _ (pause _ _) => apply eo_pause
  | |- emitsOnly _ (setScrolls _ _) => apply eo_setScrolls
  | |- emitsOnly _ (get _ _) => apply eo_get
  | |- emitsOnly _ (read _ _) => apply eo_read
  | |- emitsOnly _ (modify _ _) => apply eo_modify
  | |- emitsOnly _ (diverge _) => apply eo_diverge
  | |- emitsOnly _ (emit _ _) => apply eo_emit; apply okPlain; reflexivity
  | |- emitsOnly _ (call _ _ _) => apply eo_call; try (apply okPlain; reflexivity)
  | |- emitsOnly _ (if ?c then _ else _) => destruct c
  end.

Hypothesis okClick : forall h (w w' : world H),
  In h (querySelectorAll_hearts H w) -> actionable w' h = true ->
  ok (Click h) /\ forall e, ok (ClickThrew h e).

Lemma eo_forHearts l :
  (forall h, In h l -> exists w, In h (querySelectorAll_hearts H w)) ->
  forall passed, emitsOnly ok (forHearts H l passed).
Proof.
  induction l as [|h tl IH]; intros Q passed st.
  - constructor.
  - assert (Q' : forall h', In h' tl -> exists w, In h' (querySelectorAll_hearts H w)).
    { intros h' I. apply Q. right. exact I. }
    rewrite forHearts_cons.
    destruct (offsetParent_null H h (page st) || classList_contains_filled H h (page st))
      eqn:F.
    + apply IH. exact Q'.
    + destruct (Q h (or_introl eq_refl)) as [w0 I0].
      assert (A : actionable (page st) h = true) by (unfold actionable; rewrite F; reflexivity).
      destruct (okClick h w0 (page st) I0 A) as [OC OT].
      destruct (click H h (page st)) as [[e|] w].
      * pose proof (IH Q' passed (set_page w st)) as T.
        destruct (forHearts H tl passed (set_page w st)) as [[r st'] evs].
        simpl in *. repeat constructor; auto.
      * match goal with |- context [forHearts H tl ?p ?s] =>
          pose proof (IH Q' p s) as T; destruct (forHearts H tl p s) as [[r st'] evs] end.
        simpl in *. repeat constructor; auto; apply okPlain; reflexivity.
Qed.

Lemma eo_processVisibleHearts : emitsOnly ok (processVisibleHearts H).
Proof.
  unfold processVisibleHearts. apply eo_bind_read. intros w.
  repeat eo_step. apply eo_forHearts. intros h I. exists w. exact I.
Qed.

Lemma eo_mutationCallback ms : emitsOnly ok (mutationCallback H ms).
Proof.
  unfold mutationCallback. repeat eo_step. apply eo_processVisibleHearts.
Qed.

Lemma eo_awaitResolve fuel : emitsOnly ok (awaitResolve H fuel).
Proof.
  induction fuel as [|fuel IH]; cbn [awaitResolve]; [apply eo_diverge|].
  apply eo_bind.
  - intros st. destruct (await_wakeup H (page st)). constructor.
  - intros [|ms]; repeat eo_step; auto. apply eo_mutationCallback.
Qed.

Hypothesis okWindow : forall w y,
  scrollElementOf H w = documentElement H -> ok (WindowScrollTo y).
Hypothesis okElement : forall w y,
  scrollElementOf H w <> documentElement H -> ok (SetScrollTop (scrollElementOf H w) y).
Hypothesis okObserve : forall w, ok (Observe (observerTargetOf H w)).

Lemma eo_aggressiveLoop w fuel : forall attempts happened,
  emitsOnly ok (aggressiveLoop H fuel (scrollElementOf H w =? documentElement H)
                  (scrollElementOf H w) attempts happened).
Proof.
  induction fuel as [|fuel IH]; intros attempts happened; cbn [aggressiveLoop].
  - repeat eo_step.
  - unfold getScrollTop, getScrollHeight, getClientHeight, scrollToEnd.
    destruct (scrollElementOf H w =? documentElement H) eqn:E.
    + apply Nat.eqb_eq in E.
      repeat eo_step; auto; cbv zeta; repeat eo_step; auto.
      all: eapply okWindow; exact E.
    + apply Nat.eqb_neq in E.
      repeat eo_step; auto; cbv zeta; repeat eo_step; auto.
      all: apply okElement; exact E.
Qed.

Lemma eo_loopBody fuel : emitsOnly ok (loopBody H fuel).
Proof.
  unfold loopBody. apply eo_bind; [repeat eo_step|intros _].
  apply eo_bind_read. intros w. cbv zeta.
  fold (scrollElementOf H w).
  repeat eo_step.
  - unfold bottomCheck. repeat eo_step. apply eo_processVisibleHearts.
  - unfold aggressiveScroll, getScrollTop, getScrollHeight, getClientHeight.
    repeat eo_step. apply eo_aggressiveLoop.
  - unfold waitForMutations. apply eo_bind; [repeat eo_step|intros _].
    apply eo_bind_read. intros w'. cbv zeta. fold (observerTargetOf H w').
    repeat eo_step; auto. apply eo_awaitResolve.
  - unfold afterCycle. repeat eo_step. apply eo_processVisibleHearts.
Qed.

Lemma eo_mainLoop fuel inner : emitsOnly ok (mainLoop H fuel inner).
Proof.
  induction fuel as [|fuel IH]; cbn [mainLoop]; repeat eo_step; auto.
  apply eo_loopBody.
Qed.

Lemma eo_clickAllHeartsFrom fuel : emitsOnly ok (clickAllHeartsFrom H fuel).
Proof.
  unfold clickAllHeartsFrom. repeat eo_step.
  - apply eo_processVisibleHearts.
  - apply eo_mainLoop.
Qed.

End EmitsOnly.

(** X7.  On a page whose query for the grid container always gives the
    same answer, every scroll command of a run sets [scrollTop] of the grid
    and none scrolls the window when the grid exists (and is not the
    document element); without a grid every scroll command is
    [window.scrollTo].  Every subscription of the observer is to the grid,
    or to [document.body] when there is none. *)
Theorem scrolls_and_observes_the_grid (H : Host) (grid : option node) (fuel : nat)
    (w : world H) :
  (forall w, querySelector_grid H w = grid) ->
  forallb (targetOk H grid) (traceOf (clickAllHearts H fuel w)) = true.
Proof.
  intros G. apply forallb_forall. apply Forall_forall.
  apply (eo_clickAllHeartsFrom H (fun e => targetOk H grid e = true)).
  - intros [] U; try discriminate U; reflexivity.
  - intros h w1 w2 _ _. split; reflexivity.
  - intros w' y E. unfold scrollElementOf in E. rewrite G in E.
    unfold targetOk. apply Nat.eqb_eq. exact E.
  - intros w' y E. unfold scrollElementOf in *. rewrite G in *.
    unfold targetOk. apply Nat.eqb_neq in E. rewrite E, Nat.eqb_refl. reflexivity.
  - intros w'. unfold observerTargetOf. rewrite G. unfold targetOk.
    apply Nat.eqb_refl.
Qed.

Lemma scrolls_and_observes_the_grid_witness :
  forallb (targetOk gridded (Some 5)) (traceOf (clickAllHearts gridded 4 tt)) = true
  /\ scrollCommands (traceOf (clickAllHearts gridded 4 tt)) = 12.
Proof.
  split.
  - apply (scrolls_and_observes_the_grid gridded (Some 5) 4 tt).
    intros w. reflexivity.
  - vm_compute. reflexivity.
Defined.

(** X12.  In every run, [click()] is never invoked on an element that the
    selector of line 54 never matches, nor on one that is hidden or
    carries the filled class in every state of the page. *)
Theorem never_clicks_a_filled_or_hidden_heart (H : Host) (fuel : nat) (w : world H)
    (h : node) :
  (forall w, ~ In h (querySelectorAll_hearts H w))
  \/ (forall w, offsetParent_null H h w = true \/ classList_contains_filled H h w = true) ->
  ~ In h (attemptedNodes (traceOf (clickAllHearts H fuel w))).
Proof.
  intros Never.
  assert (OK : Forall (fun e => match e with
                                | Click n | ClickThrew n _ => n <> h
                                | _ => True
                                end) (traceOf (clickAllHearts H fuel w))).
  { apply (eo_clickAllHeartsFrom H).
    - intros [] P; try discriminate P; exact I.
    - intros n w1 w2 I1 A. assert (NE : n <> h).
      { intros ->. destruct Never as [N | N].
        - exact (N w1 I1).
        - unfold actionable in A. destruct (N w2) as [E | E]; rewrite E in A;
            [discriminate A | rewrite orb_true_r in A; discriminate A]. }
      split; [exact NE | intros _; exact NE].
    - intros; exact I.
    - intros; exact I.
    - intros; exact I. }
  induction (traceOf (clickAllHearts H fuel w)) as [|e tl IH]; [intros []|].
  inversion OK as [|? ? Oe Otl]; subst.
  destruct e; simpl; try (apply IH; exact Otl).
  all: intros [E | I]; [congruence | exact (IH Otl I)].
Qed.

Lemma never_clicks_a_filled_or_hidden_heart_witness :
  ~ In 8 (attemptedNodes (traceOf (clickAllHearts sticky 3 tt))).
Proof.
  apply (never_clicks_a_filled_or_hidden_heart sticky 3 tt 8).
  left. intros w [E | []]. discriminate E.
Defined.

(** ** One scan, one scroll phase *)

Lemma sleepTime_app a b : sleepTime (a ++ b) = (sleepTime a + sleepTime b)%Z.
Proof.
  induction a as [|e tl IH]; simpl; auto.
  destruct e; simpl; rewrite ?IH; lia.
Qed.

Lemma subseq_nil l : subseq [] l = true.
Proof. destruct l; reflexivity. Qed.

Lemma subseq_tail l : forall x a, subseq (x :: a) l = true -> subseq a l = true.
Proof.
  induction l as [|y l IH]; intros x a S; simpl in *; [discriminate|].
  destruct a as [|z a]; [reflexivity|].
  destruct (x =? y).
  - destruct (z =? y); [eapply IH; exact S | exact S].
  - destruct (z =? y); [eapply IH; eapply IH; exact S | eapply IH; exact S].
Qed.

Lemma subseq_skip y l a : subseq a l = true -> subseq a (y :: l) = true.
Proof.
  intros S. destruct a as [|x a]; [reflexivity|]. simpl.
  destruct (x =? y); [eapply subseq_tail; exact S | exact S].
Qed.

Lemma subseq_length l : forall a, subseq a l = true -> List.length a <= List.length l.
Proof.
  induction l as [|y l IH]; intros a S; simpl in *.
  - destruct a; [simpl; lia | discriminate].
  - destruct a as [|x a]; [simpl; lia|].
    destruct (x =? y).
    + apply IH in S. simpl. lia.
    + apply IH in S. simpl in *. lia.
Qed.

Lemma nclicks_attempted evs : nclicks evs <= List.length (attemptedNodes evs).
Proof.
  induction evs as [|e tl IH]; simpl; auto.
  destruct e; simpl; lia.
Qed.

Section Scan.

Variable H : Host.
Implicit Types st : St H.

Lemma forHearts_subseq l : forall passed st,
  subseq (attemptedNodes (snd (forHearts H l passed st))) l = true.
Proof.
  induction l as [|h tl IH]; intros passed st.
  - reflexivity.
  - rewrite forHearts_cons.
    destruct (offsetParent_null H h (page st) || classList_contains_filled H h (page st)).
    + apply subseq_skip, IH.
    + destruct (click H h (page st)) as [[e|] w].
      * specialize (IH passed (set_page w st)).
        destruct (forHearts H tl passed (set_page w st)) as [[r st'] evs].
        simpl in *. rewrite Nat.eqb_refl. exact IH.
      * match goal with |- context [forHearts H tl ?p ?s] =>
          specialize (IH p s); destruct (forHearts H tl p s) as [[r st'] evs] end.
        simpl in *. rewrite Nat.eqb_refl. exact IH.
Qed.

Lemma forHearts_sleep l : forall passed st,
  sleepTime (snd (forHearts H l passed st))
  = (delayBetweenClicks * Z.of_nat (nclicks (snd (forHearts H l passed st))))%Z.
Proof.
  unfold delayBetweenClicks.
  induction l as [|h tl IH]; intros passed st.
  - reflexivity.
  - rewrite forHearts_cons.
    destruct (offsetParent_null H h (page st) || classList_contains_filled H h (page st)).
    + apply IH.
    + destruct (click H h (page st)) as [[e|] w].
      * specialize (IH passed (set_page w st)).
        destruct (forHearts H tl passed (set_page w st)) as [[r st'] evs].
        simpl in *. exact IH.
      * match goal with |- context [forHearts H tl ?p ?s] =>
          specialize (IH p s); destruct (forHearts H tl p s) as [[r st'] evs] end.
        cbn [snd sleepTime nclicks] in *. unfold delayBetweenClicks. lia.
Qed.

End Scan.

(** X8.  A scan walks the node list it queried once, in order: the hearts
    on which [click()] is invoked are the matched elements with some left
    out, whatever the page does meanwhile.  So the count it returns is at
    most the number of clicks attempted, which is at most
    [unfilledHearts.length]; [totalHeartsClicked] grows by the count, and
    the no-progress counter and both fields of [currentScrollOperation]
    are left alone. *)
Theorem scan_visits_each_match_once (H : Host) (st : St H) :
  let scan := processVisibleHearts H st in
  let matched := querySelectorAll_hearts H (page st) in
  subseq (attemptedNodes (traceOf scan)) matched = true
  /\ (exists n, outcomeOf scan = Ret n
                /\ n <= List.length (attemptedNodes (traceOf scan))
                /\ List.length (attemptedNodes (traceOf scan)) <= List.length matched
                /\ totalHeartsClicked (stateOf scan) = totalHeartsClicked st + n)
  /\ scrollsWithoutNewHearts (stateOf scan) = scrollsWithoutNewHearts st
  /\ processedHeartsInCycle (stateOf scan) = processedHeartsInCycle st
  /\ resolve (stateOf scan) = resolve st.
Proof.
  cbv zeta.
  assert (S : subseq (attemptedNodes (traceOf (processVisibleHearts H st)))
                (querySelectorAll_hearts H (page st)) = true).
  { rewrite processVisibleHearts_forHearts. unfold traceOf at 1. simpl.
    apply forHearts_subseq. }
  destruct (processVisibleHearts_spec H st) as (n & st' & evs & E & (K1 & K2 & K3) & T & N & Q).
  split; [exact S|]. apply subseq_length in S. rewrite E in *.
  unfold outcomeOf, stateOf, traceOf in *. simpl in *.
  split; [|auto].
  exists n. repeat split; auto; try lia.
  rewrite N. apply nclicks_attempted.
Qed.

(** X9.  A scan sleeps [delayBetweenClicks] once for every click that
    returned and at no other time: no pause for a heart it skips, for a
    click that throws, or when nothing matches. *)
Theorem scan_sleeps_once_per_click (H : Host) (st : St H) :
  sleepTime (traceOf (processVisibleHearts H st))
  = (delayBetweenClicks
     * Z.of_nat (nclicks (traceOf (processVisibleHearts H st))))%Z.
Proof.
  rewrite processVisibleHearts_forHearts. unfold traceOf at 1 2. cbn [snd sleepTime nclicks].
  apply forHearts_sleep.
Qed.

Section ScrollLoop.

Variable H : Host.
Variable isWin : bool.
Variable el : node.

Lemma sleepTime_attempt a w :
  sleepTime (attemptEvents H isWin el a w) = aggressiveScrollPause.
Proof.
  unfold attemptEvents, scrollCommand.
  destruct isWin, (unchangedBy H _ el w), (atEffectiveBottom H _ el _); reflexivity.
Qed.

Lemma aggressiveLoop_reports fuel : forall attempts happened (st : St H),
  let phase := aggressiveLoop H fuel isWin el attempts happened st in
  sleepTime (traceOf phase)
     = (aggressiveScrollPause * Z.of_nat (scrollCommands (traceOf phase)))%Z
  /\ nclicks (traceOf phase) = 0
  /\ scrollsWithoutNewHearts (stateOf phase) = scrollsWithoutNewHearts st
  /\ totalHeartsClicked (stateOf phase) = totalHeartsClicked st.
Proof.
  cbv zeta.
  induction fuel as [|fuel IH]; intros a h st.
  - simpl. destruct (a <? maxAggressiveScrollAttemptsAtBottom); simpl;
      repeat split; auto.
  - destruct (Nat.lt_ge_cases a maxAggressiveScrollAttemptsAtBottom) as [L|L].
    2:{ rewrite aggressiveLoop_done by exact L.
        rewrite traceOf_triple, stateOf_triple. simpl.
        repeat split; auto. }
    rewrite aggressiveLoop_step by exact L. cbv zeta.
    pose proof (scrollCommands_attempt H isWin el a (page st)) as SC.
    pose proof (sleepTime_attempt a (page st)) as SL.
    pose proof (clickedNodes_attempt H isWin el a (page st)) as CN.
    assert (NA : nclicks (attemptEvents H isWin el a (page st)) = 0).
    { rewrite nclicks_length, CN. reflexivity. }
    destruct (atEffectiveBottom H isWin el _ && unchangedBy H isWin el (page st)) eqn:Brk.
    + rewrite traceOf_triple, stateOf_triple.
      rewrite SC, SL, NA. simpl. repeat split; auto; try lia.
    + match goal with
      | |- context [aggressiveLoop H fuel isWin el ?a' ?h' ?s'] =>
          specialize (IH a' h' s');
          destruct (aggressiveLoop H fuel isWin el a' h' s') as [[r st''] evs]
      end.
      rewrite ?traceOf_triple, ?stateOf_triple in *.
      destruct IH as (S & N & C & T).
      rewrite scrollCommands_app, sleepTime_app, nclicks_app, SC, SL, S, NA.
      st_simpl. simpl in C, T.
      repeat split; auto; try lia.
Qed.

Lemma aggressiveLoop_unmoved :
  (forall w, unchangedBy H isWin el w = true) ->
  forall fuel attempts happened (st : St H),
    attempts < maxAggressiveScrollAttemptsAtBottom ->
    maxAggressiveScrollAttemptsAtBottom - attempts <= fuel ->
    let phase := aggressiveLoop H fuel isWin el attempts happened st in
    outcomeOf phase = Ret happened
    /\ 1 <= scrollCommands (traceOf phase)
       <= maxAggressiveScrollAttemptsAtBottom - attempts
    /\ ((forall w, atEffectiveBottom H isWin el w = false) ->
        scrollCommands (traceOf phase) = maxAggressiveScrollAttemptsAtBottom - attempts)
    /\ ((forall w, atEffectiveBottom H isWin el w = true) ->
        scrollCommands (traceOf phase) = 1).
Proof.
  unfold maxAggressiveScrollAttemptsAtBottom. intros U. cbv zeta.
  induction fuel as [|fuel IH]; intros a h st L F; [lia|].
  rewrite aggressiveLoop_step by (unfold maxAggressiveScrollAttemptsAtBottom; lia).
  cbv zeta.
  pose proof (scrollCommands_attempt H isWin el a (page st)) as SC.
  rewrite U in *. rewrite andb_true_r.
  destruct (atEffectiveBottom H isWin el _) eqn:B.
  - rewrite traceOf_triple, outcomeOf_triple, SC.
    repeat split; auto; try lia.
    intros NB. rewrite NB in B. discriminate.
  - destruct (Nat.eq_dec (S a) 3) as [E|NE].
    + rewrite aggressiveLoop_done by (unfold maxAggressiveScrollAttemptsAtBottom; lia).
      rewrite traceOf_triple, outcomeOf_triple, app_nil_r, SC.
      repeat split; auto; try lia.
    + specialize (IH (S a) h (set_page (afterAttempt H isWin el (page st)) st)
                    ltac:(lia) ltac:(lia)).
      destruct (aggressiveLoop H fuel isWin el (S a) h
                  (set_page (afterAttempt H isWin el (page st)) st)) as [[r st''] evs].
      rewrite ?traceOf_triple, ?outcomeOf_triple in *.
      destruct IH as (O & C & NB & AB).
      rewrite scrollCommands_app, SC.
      repeat split; auto; try lia.
      * intros NBot. rewrite (NB NBot). lia.
      * intros ABot. rewrite ABot in B. discriminate.
Qed.

End ScrollLoop.

(** X10.  The flag the aggressive scroll loop leaves in
    [actualScrollHappenedInAggressiveLoop] is true exactly when one of its
    attempts advanced the scroll position by more than 5 px: the position
    read after the scroll command and the pause exceeds by more than 5 the
    position read before them.  The loop sleeps [aggressiveScrollPause]
    once per scroll command and at no other time, clicks nothing, and
    leaves the no-progress counter and [totalHeartsClicked] as they are. *)
Theorem scroll_loop_reports_movement (H : Host) (isWin : bool) (el : node) (fuel : nat)
    (st : St H) :
  let phase := aggressiveLoop H fuel isWin el 0 false st in
  let n := scrollCommands (traceOf phase) in
  (forall b, outcomeOf phase = Ret b ->
     (b = true <->
      exists i, i < n
        /\ (5 < advance H isWin el (pageAfter H isWin el i (page st)))%Z))
  /\ sleepTime (traceOf phase) = (aggressiveScrollPause * Z.of_nat n)%Z
  /\ nclicks (traceOf phase) = 0
  /\ scrollsWithoutNewHearts (stateOf phase) = scrollsWithoutNewHearts st
  /\ totalHeartsClicked (stateOf phase) = totalHeartsClicked st.
Proof.
  intros phase n.
  split; [|exact (aggressiveLoop_reports H isWin el fuel 0 false st)].
  intros b E.
  destruct (aggressiveLoop_positions H isWin el fuel 0 false st) as (_ & _ & F & _).
  { unfold maxAggressiveScrollAttemptsAtBottom. lia. }
  rewrite (F b E). cbn [orb].
  rewrite <- (movesIn_pos H isWin el). fold phase n.
  rewrite Nat.ltb_lt. reflexivity.
Qed.

(** X11.  On a page that no scroll command moves by more than 5 px, the
    aggressive scroll loop ends after at most
    [maxAggressiveScrollAttemptsAtBottom] scroll commands and reports no
    movement: after exactly that many when the page never looks scrolled to
    its end, after exactly one when it always does. *)
Theorem unmoved_page_exhausts_the_budget (H : Host) (isWin : bool) (el : node)
    (fuel : nat) (st : St H) :
  (forall w, unchangedBy H isWin el w = true) ->
  maxAggressiveScrollAttemptsAtBottom <= fuel ->
  let phase := aggressiveLoop H fuel isWin el 0 false st in
  outcomeOf phase = Ret false
  /\ 1 <= scrollCommands (traceOf phase) <= maxAggressiveScrollAttemptsAtBottom
  /\ ((forall w, atEffectiveBottom H isWin el w = false) ->
      scrollCommands (traceOf phase) = maxAggressiveScrollAttemptsAtBottom)
  /\ ((forall w, atEffectiveBottom H isWin el w = true) ->
      scrollCommands (traceOf phase) = 1).
Proof.
  intros U F.
  destruct (aggressiveLoop_unmoved H isWin el U fuel 0 false st) as (O & C & NB & AB).
  - unfold maxAggressiveScrollAttemptsAtBottom. lia.
  - lia.
  - cbv zeta. rewrite Nat.sub_0_r in *. auto.
Qed.

Lemma unmoved_page_exhausts_the_budget_witness :
  scrollCommands (traceOf (aggressiveLoop unresponsive 3 true 0 0 false
                             (initial unresponsive tt))) = 3
  /\ scrollCommands (traceOf (aggressiveLoop atBottom 3 true 0 0 false
                                (initial atBottom tt))) = 1.
Proof.
  split.
  - apply (unmoved_page_exhausts_the_budget unresponsive true 0 3
             (initial unresponsive tt)).
    + intros w. reflexivity.
    + apply le_n.
    + intros w. reflexivity.
  - apply (unmoved_page_exhausts_the_budget atBottom true 0 3 (initial atBottom tt)).
    + intros w. reflexivity.
    + apply le_n.
    + intros w. reflexivity.
Defined.
